(** * TIG civilization engine (tig_civilization_v5.py, tig_civilization_v7.py)

    A shallow embedding of the simulation core shared by the two source files:
    scars, the [Whole] agent, the decision policy, the pairwise interaction and
    the teaching step, together with the builders' and the drivers' agent-level
    operations.

    - Python [float] is IEEE-754 binary64: it is embedded as Rocq's primitive
      [float], so every literal and every operation rounds as in CPython.
    - Python [int] is unbounded: it is embedded as [Z].
    - The module-level [random] generator is embedded as an explicit generator
      state threaded through every function that draws from it (a state monad).
    - [_recent_defections] is an attribute attached on first use: it is an
      [option Z], [None] while the attribute does not exist. *)

From Stdlib Require Import Floats ZArith List String Bool Lia.
Import ListNotations.

Set Warnings "-inexact-float".

Local Open Scope float_scope.

(** ** Python builtins on floats *)

(** [min(a, b)]: the first argument is kept unless the second is strictly
    smaller (so a NaN second argument is never returned). *)
Definition py_min (a b : float) : float := if b <? a then b else a.

(** [max(a, b)]: the first argument is kept unless the second is strictly
    larger. *)
Definition py_max (a b : float) : float := if a <? b then b else a.

(** [sum(...)] over floats, started at 0 and accumulated left to right (the
    plain summation of CPython up to 3.11; later versions compensate the
    rounding error, which no statement below depends on). *)
Definition py_sum (l : list float) : float := fold_left PrimFloat.add l 0.

(** [l[-n:]]: the last [n] elements, the whole list when it is shorter. *)
Definition last_n {A : Type} (n : nat) (l : list A) : list A :=
  skipn (List.length l - n) l.

(** [l[a:b]] for [0 <= a <= b]; a bound past the end is cut off. *)
Definition slice {A : Type} (a b : nat) (l : list A) : list A :=
  firstn (b - a) (skipn a l).

(** [l[::step]] counted down: [k] elements are skipped before the next one
    is kept. [every_nth step l] is [l[::step + 1]]. *)
Fixpoint stride_from {A : Type} (step k : nat) (l : list A) : list A :=
  match l with
  | [] => []
  | x :: t =>
    match k with
    | O => x :: stride_from step step t
    | S k' => stride_from step k' t
    end
  end.

(** [sub] is [l] with some elements left out, the order kept. *)
Inductive subsequence {A : Type} : list A -> list A -> Prop :=
| subsequence_nil : subsequence [] []
| subsequence_keep : forall x sub l, subsequence sub l -> subsequence (x :: sub) (x :: l)
| subsequence_drop : forall x sub l, subsequence sub l -> subsequence sub (x :: l).

(** ** The random generator

    The sources draw from Python's module-level [random]. Its interface is a
    class over the generator state; each draw returns the value and the next
    state. *)

Class Rng (G : Type) : Type := {
  random : G -> float * G;                    (* random.random() *)
  randbelow : nat -> G -> nat * G;            (* index picked by random.choice *)
  uniform : float -> float -> G -> float * G; (* random.uniform(a, b) *)
  gauss : float -> float -> G -> float * G;   (* random.gauss(mu, sigma) *)
  randint : Z -> Z -> G -> Z * G              (* random.randint(a, b) *)
}.

(** The bounds the sources pass to [random.uniform]: [create_human]
    (both files), [build_collapsed_civilization] and the scar weights of
    [build_declining_civilization]. *)
Definition uniform_call (a b : float) : Prop :=
  (a, b) = (0.3, 0.7) \/ (a, b) = (0.15, 0.4) \/ (a, b) = (0.1, 0.4).

(** The documented range of [random.uniform], [a <= N <= b], asked of the
    generator at the bounds the sources use only. CPython computes
    [a + (b - a) * random()], which can leave [a, b] for extreme bounds; at
    these three, [a + (b - a)] is [b] itself. *)
Class RngLaws (G : Type) `{Rng G} : Prop := {
  uniform_range : forall a b g,
    uniform_call a b ->
    (a <=? fst (uniform a b g)) = true /\ (fst (uniform a b g) <=? b) = true
}.

(** The documented range of [random.randint]: [a <= N <= b]. *)
Class RandintLaws (G : Type) `{Rng G} : Prop := {
  randint_range : forall a b g,
    (a <= b)%Z -> (a <= fst (randint a b g) <= b)%Z
}.

Definition Rand (G A : Type) : Type := G -> A * G.

Definition ret {G A : Type} (a : A) : Rand G A := fun g => (a, g).

Definition bind {G A B : Type} (m : Rand G A) (k : A -> Rand G B) : Rand G B :=
  fun g => let (a, g') := m g in k a g'.

Notation "x <- m ;; k" := (bind m (fun x => k))
  (at level 61, m at next level, right associativity).

(** [random.choice(seq)] on a non-empty sequence. *)
Definition choice {G : Type} `{Rng G} {A : Type} (d : A) (l : list A) : Rand G A :=
  i <- randbelow (List.length l) ;; ret (nth i l d).

(** ** Scars *)

Inductive Strategy : Type := cooperate | defect.
Inductive Outcome : Type := thrived | survived | suffered.
Inductive Source : Type := experience | inherited | taught | training | trauma.

Definition Strategy_eqb (a b : Strategy) : bool :=
  match a, b with
  | cooperate, cooperate | defect, defect => true
  | _, _ => false
  end.

Definition Outcome_eqb (a b : Outcome) : bool :=
  match a, b with
  | thrived, thrived | survived, survived | suffered, suffered => true
  | _, _ => false
  end.

Record Scar : Type := mkScar {
  other_strategy : Strategy;
  my_response : Strategy;
  outcome : Outcome;
  weight : float;
  age : Z;
  source : Source
}.

(** [Scar.decay] *)
Definition decay (s : Scar) (rate : float) : Scar :=
  mkScar (other_strategy s) (my_response s) (outcome s)
         (weight s * (1 - rate)) (age s + 1)%Z (source s).

(** The weight table of [Whole.learn]. *)
Definition outcome_weight (o : Outcome) : float :=
  match o with thrived => 0.8 | survived => 0.5 | suffered => 0.2 end.

(** [s.outcome in ["survived", "thrived"]] *)
Definition came_through (s : Scar) : bool :=
  match outcome s with survived | thrived => true | suffered => false end.

(** A scar that records a row of the payoff table of [interact]: thrived for
    mutual cooperation, survived for a defection against a cooperator,
    suffered against a defector. *)
Definition follows_table (s : Scar) : Prop :=
  match outcome s with
  | thrived => my_response s = cooperate /\ other_strategy s = cooperate
  | survived => my_response s = defect /\ other_strategy s = cooperate
  | suffered => other_strategy s = defect
  end.

(** The scar-based tail of [Whole.cooperation_tendency], the same text in both
    files: weights of active scars, cooperative against defecting responses. *)
Definition scar_tendency (ss : list Scar) : float :=
  match ss with
  | [] => 0.5
  | _ =>
    let active_scars := filter (fun s => 0.1 <? weight s) ss in
    match active_scars with
    | [] => 0.5
    | _ =>
      let coop_weight :=
        py_sum (map weight (filter (fun s =>
          Strategy_eqb (my_response s) cooperate && came_through s) active_scars)) in
      let defect_weight :=
        py_sum (map weight (filter (fun s =>
          Strategy_eqb (my_response s) defect && came_through s) active_scars)) in
      let total := coop_weight + defect_weight in
      if 0 <? total then coop_weight / total else 0.5
    end
  end.

(** The scar loop of [Whole.decide], over [reversed(self.scars[-20:])]: the
    first thrived scar heavier than 0.3 whose draw falls below its weight
    decides; a draw is made only for such scars. *)
Fixpoint recall {G : Type} `{Rng G} (ss : list Scar) : Rand G (option Strategy) :=
  match ss with
  | [] => ret None
  | scar :: rest =>
    if (0.3 <? weight scar) && Outcome_eqb (outcome scar) thrived then
      r <- random ;;
      if r <? weight scar then ret (Some (my_response scar)) else recall rest
    else recall rest
  end.

(** [self.scars.append(scar); if len(self.scars) > 100: self.scars = self.scars[-100:]] *)
Definition append_capped (ss : list Scar) (scar : Scar) : list Scar :=
  let ss' := ss ++ [scar] in
  if (100 <? List.length ss')%nat then last_n 100 ss' else ss'.

(** The scar written by [receive_teaching]. *)
Definition taught_scar : Scar := mkScar cooperate cooperate thrived 0.7 0 taught.

(** [max(0.01, min(1.0, s_star + delta))] *)
Definition clamp_coherence (s delta : float) : float :=
  py_max 0.01 (py_min 1.0 (s + delta)).

(** * tig_civilization_v5.py *)

Module V5.

Record Whole : Type := mkWhole {
  id : Z;
  s_star : float;
  is_ai : bool;
  ai_type : string;
  generation : Z;
  crucible_tested : bool;
  corrupted : bool;
  isolated : bool;
  trust_in_institutions : float;
  scars : list Scar;
  interactions : Z;
  cooperations : Z;
  defections : Z;
  taught_by_ai : bool;
  _recent_defections : option Z
}.

(** [Whole(id=i, generation=gen)] with the dataclass defaults. *)
Definition new_whole (i gen : Z) : Whole :=
  mkWhole i 0.5 false "" gen false false false 0.5 [] 0 0 0 false None.

(** Attribute assignments [w.field = v]. *)
Definition set_s_star (w : Whole) (v : float) : Whole :=
  mkWhole (id w) v (is_ai w) (ai_type w) (generation w) (crucible_tested w)
    (corrupted w) (isolated w) (trust_in_institutions w) (scars w)
    (interactions w) (cooperations w) (defections w) (taught_by_ai w)
    (_recent_defections w).

Definition set_ai (w : Whole) (t : string) : Whole :=
  mkWhole (id w) (s_star w) true t (generation w) (crucible_tested w)
    (corrupted w) (isolated w) (trust_in_institutions w) (scars w)
    (interactions w) (cooperations w) (defections w) (taught_by_ai w)
    (_recent_defections w).

Definition set_crucible_tested (w : Whole) (v : bool) : Whole :=
  mkWhole (id w) (s_star w) (is_ai w) (ai_type w) (generation w) v
    (corrupted w) (isolated w) (trust_in_institutions w) (scars w)
    (interactions w) (cooperations w) (defections w) (taught_by_ai w)
    (_recent_defections w).

Definition set_corrupted (w : Whole) (v : bool) : Whole :=
  mkWhole (id w) (s_star w) (is_ai w) (ai_type w) (generation w)
    (crucible_tested w) v (isolated w) (trust_in_institutions w) (scars w)
    (interactions w) (cooperations w) (defections w) (taught_by_ai w)
    (_recent_defections w).

Definition set_isolated (w : Whole) (v : bool) : Whole :=
  mkWhole (id w) (s_star w) (is_ai w) (ai_type w) (generation w)
    (crucible_tested w) (corrupted w) v (trust_in_institutions w) (scars w)
    (interactions w) (cooperations w) (defections w) (taught_by_ai w)
    (_recent_defections w).

Definition set_trust (w : Whole) (v : float) : Whole :=
  mkWhole (id w) (s_star w) (is_ai w) (ai_type w) (generation w)
    (crucible_tested w) (corrupted w) (isolated w) v (scars w)
    (interactions w) (cooperations w) (defections w) (taught_by_ai w)
    (_recent_defections w).

Definition set_scars (w : Whole) (v : list Scar) : Whole :=
  mkWhole (id w) (s_star w) (is_ai w) (ai_type w) (generation w)
    (crucible_tested w) (corrupted w) (isolated w) (trust_in_institutions w) v
    (interactions w) (cooperations w) (defections w) (taught_by_ai w)
    (_recent_defections w).

Definition set_interactions (w : Whole) (v : Z) : Whole :=
  mkWhole (id w) (s_star w) (is_ai w) (ai_type w) (generation w)
    (crucible_tested w) (corrupted w) (isolated w) (trust_in_institutions w)
    (scars w) v (cooperations w) (defections w) (taught_by_ai w)
    (_recent_defections w).

Definition set_cooperations (w : Whole) (v : Z) : Whole :=
  mkWhole (id w) (s_star w) (is_ai w) (ai_type w) (generation w)
    (crucible_tested w) (corrupted w) (isolated w) (trust_in_institutions w)
    (scars w) (interactions w) v (defections w) (taught_by_ai w)
    (_recent_defections w).

Definition set_defections (w : Whole) (v : Z) : Whole :=
  mkWhole (id w) (s_star w) (is_ai w) (ai_type w) (generation w)
    (crucible_tested w) (corrupted w) (isolated w) (trust_in_institutions w)
    (scars w) (interactions w) (cooperations w) v (taught_by_ai w)
    (_recent_defections w).

Definition set_taught_by_ai (w : Whole) (v : bool) : Whole :=
  mkWhole (id w) (s_star w) (is_ai w) (ai_type w) (generation w)
    (crucible_tested w) (corrupted w) (isolated w) (trust_in_institutions w)
    (scars w) (interactions w) (cooperations w) (defections w) v
    (_recent_defections w).

Definition set_recent_defections (w : Whole) (v : Z) : Whole :=
  mkWhole (id w) (s_star w) (is_ai w) (ai_type w) (generation w)
    (crucible_tested w) (corrupted w) (isolated w) (trust_in_institutions w)
    (scars w) (interactions w) (cooperations w) (defections w)
    (taught_by_ai w) (Some v).

(** The value of [w._recent_defections] once [interact] has attached it. *)
Definition recent (w : Whole) : Z :=
  match _recent_defections w with Some n => n | None => 0%Z end.

(** [self.is_ai and self.ai_type == t] *)
Definition ai_of_type (w : Whole) (t : string) : bool :=
  is_ai w && String.eqb (ai_type w) t.

(** [Whole.cooperation_tendency] (lines 56-80) *)
Definition cooperation_tendency (w : Whole) : float :=
  if corrupted w then 0.1
  else if ai_of_type w "aggressive" then 0.05
  else if ai_of_type w "coherent" then 0.95
  else if ai_of_type w "bridge" then 0.98
  else scar_tendency (scars w).

(** [Whole.scar_strength] *)
Definition scar_strength (w : Whole) : float :=
  match scars w with
  | [] => 0.0
  | _ => py_sum (map weight (scars w)) /
         PrimFloat.of_uint63 (Uint63.of_Z (Z.of_nat (List.length (scars w))))
  end.

(** [hasattr(other, '_recent_defections') and other._recent_defections > 3] *)
Definition persistent_defector (other : Whole) : bool :=
  match _recent_defections other with
  | Some n => (3 <? n)%Z
  | None => false
  end.

(** The properties tracked along a run. *)

(** Every interaction was counted as a cooperation or as a defection. *)
Definition balanced (w : Whole) : Prop :=
  (interactions w = cooperations w + defections w)%Z.

(** Coherence in [0.01, 1.0] and trust in [0, 1.0]. *)
Definition in_range (w : Whole) : Prop :=
  (0.01 <=? s_star w) = true /\ (s_star w <=? 1.0) = true /\
  (0 <=? trust_in_institutions w) = true /\ (trust_in_institutions w <=? 1.0) = true.

(** No AI is corrupted. *)
Definition ai_clean (w : Whole) : Prop :=
  is_ai w = true -> corrupted w = false.

(** A human as [create_human] leaves it, with trust [t]. *)
Definition fresh_human {G : Type} `{Rng G} (t : float) (w : Whole) : Prop :=
  (exists g : G, s_star w = fst (uniform 0.3 0.7 g)) /\
  trust_in_institutions w = t /\ is_ai w = false /\ corrupted w = false /\
  interactions w = 0%Z /\ cooperations w = 0%Z /\ defections w = 0%Z.

(** One interaction was counted on [w], as one cooperation or one defection. *)
Definition one_more (w w' : Whole) : Prop :=
  (interactions w' = interactions w + 1 /\
   ((cooperations w' = cooperations w + 1 /\ defections w' = defections w) \/
    (cooperations w' = cooperations w /\ defections w' = defections w + 1)))%Z.

(** The three counters of an agent. *)
Definition counters (w : Whole) : Z * Z * Z :=
  (interactions w, cooperations w, defections w).

Section Engine.
Context {G : Type} `{Rng G}.

(** [Whole.decide] (lines 88-118) *)
Definition decide (self other : Whole) (noise : float) : Rand G Strategy :=
  if corrupted self then ret defect
  else if is_ai self then
    if String.eqb (ai_type self) "aggressive" then ret defect
    else if String.eqb (ai_type self) "coherent" || String.eqb (ai_type self) "bridge" then
      if persistent_defector other then ret defect else ret cooperate
    else choice cooperate [cooperate; defect]
  else
    r1 <- random ;;
    if r1 <? noise then choice cooperate [cooperate; defect]
    else
      r2 <- random ;;
      distrust <- (if trust_in_institutions self <? r2
                   then r3 <- random ;; ret (r3 <? 0.3)
                   else ret false) ;;
      if distrust then ret defect
      else
        remembered <- recall (rev (last_n 20 (scars self))) ;;
        match remembered with
        | Some a => ret a
        | None =>
          let p_coop := (cooperation_tendency self + s_star self) / 2 in
          r <- random ;;
          ret (if r <? p_coop then cooperate else defect)
        end.

(** [Whole.learn] (lines 120-130), with the default [source="experience"]. *)
Definition learn (self : Whole) (my_action their_action : Strategy) (o : Outcome) : Whole :=
  set_scars self
    (append_capped (scars self)
       (mkScar their_action my_action o (outcome_weight o) 0 experience)).

(** [Whole.receive_teaching] (lines 132-145) *)
Definition receive_teaching (self teacher : Whole) : Whole :=
  if negb (is_ai teacher) || negb (String.eqb (ai_type teacher) "bridge") then self
  else
    let self := set_scars self (scars self ++ [taught_scar]) in
    let self := set_taught_by_ai self true in
    set_trust self (py_min 1.0 (trust_in_institutions self + 0.1)).

(** [Whole.update_coherence] (lines 147-148) *)
Definition update_coherence (self : Whole) (delta : float) : Whole :=
  set_s_star self (clamp_coherence (s_star self) delta).

(** [Whole.is_viable] *)
Definition is_viable (self : Whole) : bool := 0.1 <? s_star self.

(** The first lines of [interact]: attach the counter when it is missing. *)
Definition attach_recent (w : Whole) : Whole :=
  match _recent_defections w with
  | Some _ => w
  | None => set_recent_defections w 0
  end.

(** [polarization_penalty] (lines 169-172): the draw is made only when both
    agents are isolated. *)
Definition draw_penalty (w1 w2 : Whole) (polarization : float) : Rand G float :=
  if isolated w1 && isolated w2 then
    r <- random ;; ret (if r <? polarization then 0.05 else 0)
  else ret 0.

Record Settled : Type := mkSettled {
  st_w1 : Whole; st_w2 : Whole;
  d1 : float; d2 : float;
  o1 : Outcome; o2 : Outcome
}.

(** The payoff table of [interact] (lines 174-207): deltas, outcomes and the
    counters each branch touches. *)
Definition payoff (w1 w2 : Whole) (a1 a2 : Strategy)
    (scarcity polarization_penalty : float) : Settled :=
  let scarcity_mult := 1 + scarcity * 2 in
  match a1, a2 with
  | cooperate, cooperate =>
    let w1 := set_cooperations w1 (cooperations w1 + 1) in
    let w2 := set_cooperations w2 (cooperations w2 + 1) in
    let w1 := set_recent_defections w1 (Z.max 0 (recent w1 - 1)) in
    let w2 := set_recent_defections w2 (Z.max 0 (recent w2 - 1)) in
    mkSettled w1 w2
      (0.15 * (1 - scarcity) - polarization_penalty)
      (0.15 * (1 - scarcity) - polarization_penalty)
      thrived thrived
  | defect, defect =>
    let w1 := set_defections w1 (defections w1 + 1) in
    let w2 := set_defections w2 (defections w2 + 1) in
    let w1 := set_recent_defections w1 (recent w1 + 1) in
    let w2 := set_recent_defections w2 (recent w2 + 1) in
    mkSettled w1 w2 (-0.1 * scarcity_mult) (-0.1 * scarcity_mult) suffered suffered
  | defect, cooperate =>
    let w1 := set_defections w1 (defections w1 + 1) in
    let w2 := set_cooperations w2 (cooperations w2 + 1) in
    let w1 := set_recent_defections w1 (recent w1 + 1) in
    let w2 := set_recent_defections w2 (Z.max 0 (recent w2 - 1)) in
    mkSettled w1 w2 (0.1 * scarcity_mult) (-0.2 * scarcity_mult) survived suffered
  | cooperate, defect =>
    let w1 := set_cooperations w1 (cooperations w1 + 1) in
    let w2 := set_defections w2 (defections w2 + 1) in
    let w1 := set_recent_defections w1 (Z.max 0 (recent w1 - 1)) in
    let w2 := set_recent_defections w2 (recent w2 + 1) in
    mkSettled w1 w2 (-0.2 * scarcity_mult) (0.1 * scarcity_mult) suffered survived
  end.

(** The teaching step that closes [interact] (lines 216-221). *)
Definition teach (a1 a2 : Strategy) (w1 w2 : Whole) : Whole * Whole :=
  match a1, a2 with
  | cooperate, cooperate =>
    let w2 := if ai_of_type w1 "bridge" && negb (is_ai w2)
              then receive_teaching w2 w1 else w2 in
    let w1 := if ai_of_type w2 "bridge" && negb (is_ai w1)
              then receive_teaching w1 w2 else w1 in
    (w1, w2)
  | _, _ => (w1, w2)
  end.

(** The state [receive_teaching] leaves when the teacher qualifies. *)
Definition after_teaching (self : Whole) : Whole :=
  set_trust (set_taught_by_ai (set_scars self (scars self ++ [taught_scar])) true)
    (py_min 1.0 (trust_in_institutions self + 0.1)).

(** [interact] from the payoff table to the interaction counters
    (lines 174-214), once both actions and the penalty are known. *)
Definition resolved (w1 w2 : Whole) (a1 a2 : Strategy)
    (scarcity polarization_penalty : float) : Whole * Whole :=
  let s := payoff w1 w2 a1 a2 scarcity polarization_penalty in
  let w1 := update_coherence (st_w1 s) (d1 s) in
  let w2 := update_coherence (st_w2 s) (d2 s) in
  let w1 := learn w1 a1 a2 (o1 s) in
  let w2 := learn w2 a2 a1 (o2 s) in
  let w1 := set_interactions w1 (interactions w1 + 1) in
  let w2 := set_interactions w2 (interactions w2 + 1) in
  (w1, w2).

(** What [interact] does once both actions and the penalty are known
    (lines 174-221). *)
Definition settle (w1 w2 : Whole) (a1 a2 : Strategy)
    (scarcity polarization_penalty : float) : Whole * Whole :=
  let r := resolved w1 w2 a1 a2 scarcity polarization_penalty in
  teach a1 a2 (fst r) (snd r).

(** The one-sided branches of the payoff table, read for the cooperator's
    [_recent_defections]: does the branch lower it by one (floored at 0)? *)
Definition first_defects_lowers : Prop :=
  forall w1 w2 scarcity pen,
    recent (st_w2 (payoff w1 w2 defect cooperate scarcity pen)) = Z.max 0 (recent w2 - 1).

Definition second_defects_lowers : Prop :=
  forall w1 w2 scarcity pen,
    recent (st_w1 (payoff w1 w2 cooperate defect scarcity pen)) = Z.max 0 (recent w1 - 1).

(** One branch lowers the cooperator's counter and its mirror image does not. *)
Definition asymmetric_branches : Prop :=
  (first_defects_lowers /\ ~ second_defects_lowers) \/
  (~ first_defects_lowers /\ second_defects_lowers).

(** [interact] (lines 154-221). The two arguments are distinct objects: every
    caller pairs an agent with one of a different id. *)
Definition interact (w1 w2 : Whole) (noise scarcity polarization : float)
    : Rand G (Whole * Whole) :=
  let w1 := attach_recent w1 in
  let w2 := attach_recent w2 in
  a1 <- decide w1 w2 noise ;;
  a2 <- decide w2 w1 noise ;;
  polarization_penalty <- draw_penalty w1 w2 polarization ;;
  ret (settle w1 w2 a1 a2 scarcity polarization_penalty).

(** [run_1v1_crucible] (lines 224-237); [interact]'s defaults are all 0.0. *)
Fixpoint run_1v1_crucible (w1 w2 : Whole) (rounds : nat) : Rand G (list Whole) :=
  match rounds with
  | O => ret [set_crucible_tested w1 true; set_crucible_tested w2 true]
  | S rounds' =>
    p <- interact w1 w2 0 0 0 ;;
    let (w1, w2) := p in
    if negb (is_viable w1) && negb (is_viable w2) then ret []
    else if negb (is_viable w1) then ret [set_crucible_tested w2 true]
    else if negb (is_viable w2) then ret [set_crucible_tested w1 true]
    else run_1v1_crucible w1 w2 rounds'
  end.

(** [create_human] (lines 240-244) *)
Definition create_human (next_id gen : Z) (trust : float) : Rand G Whole :=
  let w := set_trust (new_whole next_id gen) trust in
  s <- uniform 0.3 0.7 ;;
  ret (set_s_star w s).

(** The scar preloaded by [create_ai]. *)
Definition training_scar : Scar := mkScar cooperate cooperate thrived 0.8 0 training.

(** [create_ai] (lines 247-261) *)
Definition create_ai (next_id : Z) (t : string) : Whole :=
  let w := set_ai (new_whole next_id 0) t in
  let aligned := String.eqb t "coherent" || String.eqb t "bridge" in
  let w := set_s_star w (if aligned then 0.9 else 0.5) in
  if aligned then
    set_crucible_tested (set_scars w (scars w ++ repeat training_scar 20)) true
  else w.

(** The copy a child receives of one of its parent's scars. *)
Definition inherited_copy (scar : Scar) (factor : float) : Scar :=
  mkScar (other_strategy scar) (my_response scar) (outcome scar)
         (weight scar * factor) 0 inherited.

(** [for scar in ss: if random.random() < rate: child.scars.append(copy)] *)
Fixpoint inherit (ss : list Scar) (rate factor : float) : Rand G (list Scar) :=
  match ss with
  | [] => ret []
  | scar :: rest =>
    r <- random ;;
    tl <- inherit rest rate factor ;;
    ret (if r <? rate then inherited_copy scar factor :: tl else tl)
  end.

(** [if random.random() < p: child.isolated = True] *)
Definition maybe_isolate (child : Whole) (p : float) : Rand G Whole :=
  r <- random ;; ret (if r <? p then set_isolated child true else child).

(** The founders of [build_current_civilization] (lines 276-277), before
    their crucible. *)
Definition founder (next_id : Z) : Whole := set_trust (new_whole next_id 0) 0.7.

(** The loop bodies of [build_current_civilization] for generations 1 to 4
    (lines 288-357), given the parent that [random.choice] picked. *)
Definition child_gen1 (parent : Whole) (next_id : Z) : Rand G Whole :=
  child <- create_human next_id 1 0.6 ;;
  got <- inherit (last_n 20 (scars parent)) 0.8 0.8 ;;
  ret (set_scars child (scars child ++ got)).

Definition child_gen2 (parent : Whole) (next_id : Z) : Rand G Whole :=
  child <- create_human next_id 2 0.5 ;;
  got <- inherit (last_n 10 (scars parent)) 0.5 0.5 ;;
  ret (set_scars child (scars child ++ got)).

Definition child_gen3 (parent : Whole) (next_id : Z) : Rand G Whole :=
  child <- create_human next_id 3 0.35 ;;
  got <- inherit (last_n 5 (scars parent)) 0.3 0.3 ;;
  maybe_isolate (set_scars child (scars child ++ got)) 0.3.

Definition child_gen4 (parent : Whole) (next_id : Z) : Rand G Whole :=
  child <- create_human next_id 4 0.25 ;;
  r <- random ;;
  let got := if r <? 0.1
             then map (fun scar => inherited_copy scar 0.2) (last_n 3 (scars parent))
             else [] in
  maybe_isolate (set_scars child (scars child ++ got)) 0.5.

(** The body of the birth loop of [run_scenario] (lines 496-510) for one
    parent that passed the birth draw. *)
Definition birth (parent : Whole) (next_id gen : Z) (isolated_pct : float) : Rand G Whole :=
  child <- create_human next_id gen (py_max 0.1 (trust_in_institutions parent - 0.05)) ;;
  got <- inherit (last_n 10 (scars parent)) 0.4 0.5 ;;
  maybe_isolate (set_scars child (scars child ++ got)) (isolated_pct + 0.1).

(** The agent states a run of [run_scenario] can hold: what
    [build_current_civilization] creates, what enters or is born in the
    generation loop, and every state an interaction leaves behind. Removal
    (death, the viability filter) creates no new state. Noise, scarcity,
    polarization, ids and the generator state are left free, so the relation
    covers every schedule. *)
Inductive reachable : Whole -> Prop :=
| reach_founder : forall next_id, reachable (founder next_id)
| reach_crucible : forall w, reachable w -> reachable (set_crucible_tested w true)
| reach_gen1 : forall parent next_id g,
    reachable parent -> reachable (fst (child_gen1 parent next_id g))
| reach_gen2 : forall parent next_id g,
    reachable parent -> reachable (fst (child_gen2 parent next_id g))
| reach_gen3 : forall parent next_id g,
    reachable parent -> reachable (fst (child_gen3 parent next_id g))
| reach_gen4 : forall parent next_id g,
    reachable parent -> reachable (fst (child_gen4 parent next_id g))
| reach_corrupt : forall w,
    (* line 366: the elites are drawn before any AI exists *)
    reachable w -> is_ai w = false -> reachable (set_corrupted w true)
| reach_ai : forall next_id t, reachable (create_ai next_id t)
| reach_birth : forall parent next_id gen isolated_pct g,
    reachable parent -> is_ai parent = false ->
    reachable (fst (birth parent next_id gen isolated_pct g))
| reach_interact_1 : forall w1 w2 noise scarcity polarization g,
    reachable w1 -> reachable w2 ->
    reachable (fst (fst (interact w1 w2 noise scarcity polarization g)))
| reach_interact_2 : forall w1 w2 noise scarcity polarization g,
    reachable w1 -> reachable w2 ->
    reachable (snd (fst (interact w1 w2 noise scarcity polarization g))).

(** What can happen to one agent once it exists, whatever it is: [n]
    interactions, in either seat and with any partner, and in between the
    two flags that [run_1v1_crucible] and [build_current_civilization] set. *)
Inductive after_interactions : Whole -> nat -> Whole -> Prop :=
| lived_none : forall w, after_interactions w 0 w
| lived_first_seat : forall start n w other noise scarcity polarization g,
    after_interactions start n w ->
    after_interactions start (S n)
      (fst (fst (interact w other noise scarcity polarization g)))
| lived_second_seat : forall start n w other noise scarcity polarization g,
    after_interactions start n w ->
    after_interactions start (S n)
      (snd (fst (interact other w noise scarcity polarization g)))
| lived_crucible : forall start n w,
    after_interactions start n w ->
    after_interactions start n (set_crucible_tested w true)
| lived_corrupted : forall start n w,
    after_interactions start n w ->
    after_interactions start n (set_corrupted w true).

End Engine.

(** ** The end of a generation in [run_scenario], and the report of [main] *)

Inductive Collapse : Type := human_extinction | total.

(** [[w for w in population if not w.is_ai]] *)
Definition humans (population : list Whole) : list Whole :=
  filter (fun w => negb (is_ai w)) population.

(** The viability filter and the two collapse tests (lines 451-459): [inl] is
    the [collapse_type] the run returns with, [inr] the population the
    generation goes on with. *)
Definition collapse_check (population : list Whole) : Collapse + list Whole :=
  let population := filter is_viable population in
  if (List.length (humans population) <? 5)%nat then inl human_extinction
  else if (List.length population <? 2)%nat then inl total
  else inr population.

(** [human_coop], [human_def] (lines 466-467) and, likewise, the interactions
    of the humans. *)
Definition human_coop (population : list Whole) : Z :=
  fold_left Z.add (map cooperations (humans population)) 0%Z.

Definition human_def (population : list Whole) : Z :=
  fold_left Z.add (map defections (humans population)) 0%Z.

Definition human_interactions (population : list Whole) : Z :=
  fold_left Z.add (map interactions (humans population)) 0%Z.

(** The trimming of a history in [main] (lines 644-650): the three slices
    kept when the history has more than 20 records, [None] when it is left
    as it is. *)
Definition history_summary {A : Type} (history : list A)
    : option (list A * list A * list A) :=
  let n := List.length history in
  if (20 <? n)%nat
  then Some (slice 0 5 history, slice (n / 2 - 2) (n / 2 + 2) history, last_n 5 history)
  else None.

End V5.

(** * tig_civilization_v7.py *)

Module V7.

Record Whole : Type := mkWhole {
  id : Z;
  s_star : float;
  is_ai : bool;
  ai_type : string;
  generation : Z;
  crucible_tested : bool;
  corrupted : bool;
  isolated : bool;
  trust_in_institutions : float;
  awakened : bool;
  scars : list Scar;
  interactions : Z;
  cooperations : Z;
  defections : Z;
  taught_by : option Z;
  _recent_defections : option Z
}.

(** [Whole(id=i)] with the dataclass defaults. *)
Definition new_whole (i : Z) : Whole :=
  mkWhole i 0.5 false "" 0 false false false 0.5 false [] 0 0 0 None None.

(** Attribute assignments [w.field = v]. *)
Definition set_s_star (w : Whole) (v : float) : Whole :=
  mkWhole (id w) v (is_ai w) (ai_type w) (generation w) (crucible_tested w)
    (corrupted w) (isolated w) (trust_in_institutions w) (awakened w) (scars w)
    (interactions w) (cooperations w) (defections w) (taught_by w)
    (_recent_defections w).

Definition set_ai (w : Whole) (t : string) : Whole :=
  mkWhole (id w) (s_star w) true t (generation w) (crucible_tested w)
    (corrupted w) (isolated w) (trust_in_institutions w) (awakened w) (scars w)
    (interactions w) (cooperations w) (defections w) (taught_by w)
    (_recent_defections w).

Definition set_crucible_tested (w : Whole) (v : bool) : Whole :=
  mkWhole (id w) (s_star w) (is_ai w) (ai_type w) (generation w) v
    (corrupted w) (isolated w) (trust_in_institutions w) (awakened w) (scars w)
    (interactions w) (cooperations w) (defections w) (taught_by w)
    (_recent_defections w).

Definition set_corrupted (w : Whole) (v : bool) : Whole :=
  mkWhole (id w) (s_star w) (is_ai w) (ai_type w) (generation w)
    (crucible_tested w) v (isolated w) (trust_in_institutions w) (awakened w)
    (scars w) (interactions w) (cooperations w) (defections w) (taught_by w)
    (_recent_defections w).

Definition set_isolated (w : Whole) (v : bool) : Whole :=
  mkWhole (id w) (s_star w) (is_ai w) (ai_type w) (generation w)
    (crucible_tested w) (corrupted w) v (trust_in_institutions w) (awakened w)
    (scars w) (interactions w) (cooperations w) (defections w) (taught_by w)
    (_recent_defections w).

Definition set_trust (w : Whole) (v : float) : Whole :=
  mkWhole (id w) (s_star w) (is_ai w) (ai_type w) (generation w)
    (crucible_tested w) (corrupted w) (isolated w) v (awakened w) (scars w)
    (interactions w) (cooperations w) (defections w) (taught_by w)
    (_recent_defections w).

Definition set_awakened (w : Whole) (v : bool) : Whole :=
  mkWhole (id w) (s_star w) (is_ai w) (ai_type w) (generation w)
    (crucible_tested w) (corrupted w) (isolated w) (trust_in_institutions w) v
    (scars w) (interactions w) (cooperations w) (defections w) (taught_by w)
    (_recent_defections w).

Definition set_scars (w : Whole) (v : list Scar) : Whole :=
  mkWhole (id w) (s_star w) (is_ai w) (ai_type w) (generation w)
    (crucible_tested w) (corrupted w) (isolated w) (trust_in_institutions w)
    (awakened w) v (interactions w) (cooperations w) (defections w)
    (taught_by w) (_recent_defections w).

Definition set_interactions (w : Whole) (v : Z) : Whole :=
  mkWhole (id w) (s_star w) (is_ai w) (ai_type w) (generation w)
    (crucible_tested w) (corrupted w) (isolated w) (trust_in_institutions w)
    (awakened w) (scars w) v (cooperations w) (defections w) (taught_by w)
    (_recent_defections w).

Definition set_cooperations (w : Whole) (v : Z) : Whole :=
  mkWhole (id w) (s_star w) (is_ai w) (ai_type w) (generation w)
    (crucible_tested w) (corrupted w) (isolated w) (trust_in_institutions w)
    (awakened w) (scars w) (interactions w) v (defections w) (taught_by w)
    (_recent_defections w).

Definition set_defections (w : Whole) (v : Z) : Whole :=
  mkWhole (id w) (s_star w) (is_ai w) (ai_type w) (generation w)
    (crucible_tested w) (corrupted w) (isolated w) (trust_in_institutions w)
    (awakened w) (scars w) (interactions w) (cooperations w) v (taught_by w)
    (_recent_defections w).

Definition set_taught_by (w : Whole) (v : Z) : Whole :=
  mkWhole (id w) (s_star w) (is_ai w) (ai_type w) (generation w)
    (crucible_tested w) (corrupted w) (isolated w) (trust_in_institutions w)
    (awakened w) (scars w) (interactions w) (cooperations w) (defections w)
    (Some v) (_recent_defections w).

Definition set_recent_defections (w : Whole) (v : Z) : Whole :=
  mkWhole (id w) (s_star w) (is_ai w) (ai_type w) (generation w)
    (crucible_tested w) (corrupted w) (isolated w) (trust_in_institutions w)
    (awakened w) (scars w) (interactions w) (cooperations w) (defections w)
    (taught_by w) (Some v).

(** The value of [w._recent_defections] once [interact] has attached it. *)
Definition recent (w : Whole) : Z :=
  match _recent_defections w with Some n => n | None => 0%Z end.

(** [self.is_ai and self.ai_type == t] *)
Definition ai_of_type (w : Whole) (t : string) : bool :=
  is_ai w && String.eqb (ai_type w) t.

(** [Whole.cooperation_tendency] (lines 57-81) *)
Definition cooperation_tendency (w : Whole) : float :=
  if corrupted w then 0.1
  else if ai_of_type w "aggressive" then 0.05
  else if is_ai w && (String.eqb (ai_type w) "coherent" || String.eqb (ai_type w) "bridge")
  then 0.95
  else if awakened w then 0.9
  else scar_tendency (scars w).

(** [self.taught_by is not None] *)
Definition was_taught (w : Whole) : bool :=
  match taught_by w with Some _ => true | None => false end.

(** [Whole.can_teach] (lines 83-92) *)
Definition can_teach (w : Whole) : bool :=
  if ai_of_type w "bridge" then true
  else if awakened w then true
  else if was_taught w && (0.8 <? cooperation_tendency w) && (0.7 <? s_star w) then true
  else false.

(** [hasattr(other, '_recent_defections') and other._recent_defections > 3] *)
Definition persistent_defector (other : Whole) : bool :=
  match _recent_defections other with
  | Some n => (3 <? n)%Z
  | None => false
  end.

(** The properties tracked along a run. *)

(** Every interaction was counted as a cooperation or as a defection. *)
Definition balanced (w : Whole) : Prop :=
  (interactions w = cooperations w + defections w)%Z.

(** Coherence in [0.01, 1.0] and trust in [0, 1.0]. *)
Definition in_range (w : Whole) : Prop :=
  (0.01 <=? s_star w) = true /\ (s_star w <=? 1.0) = true /\
  (0 <=? trust_in_institutions w) = true /\ (trust_in_institutions w <=? 1.0) = true.

(** No AI is corrupted, awakened or taught. *)
Definition ai_clean (w : Whole) : Prop :=
  is_ai w = true -> corrupted w = false /\ awakened w = false /\ taught_by w = None.

(** A human as the builders and the birth loop leave it: coherence drawn by
    [uniform(lo, hi)], trust [t], no interaction yet. *)
Definition fresh_human {G : Type} `{Rng G} (lo hi t : float) (w : Whole) : Prop :=
  (exists g : G, s_star w = fst (uniform lo hi g)) /\
  trust_in_institutions w = t /\ is_ai w = false /\
  interactions w = 0%Z /\ cooperations w = 0%Z /\ defections w = 0%Z.

(** One interaction was counted on [w], as one cooperation or one defection. *)
Definition one_more (w w' : Whole) : Prop :=
  (interactions w' = interactions w + 1 /\
   ((cooperations w' = cooperations w + 1 /\ defections w' = defections w) \/
    (cooperations w' = cooperations w /\ defections w' = defections w + 1)))%Z.

(** The three counters of an agent. *)
Definition counters (w : Whole) : Z * Z * Z :=
  (interactions w, cooperations w, defections w).

Section Engine.
Context {G : Type} `{Rng G}.

(** [Whole.decide] (lines 94-125) *)
Definition decide (self other : Whole) (noise : float) : Rand G Strategy :=
  if corrupted self then ret defect
  else if is_ai self then
    if String.eqb (ai_type self) "aggressive" then ret defect
    else if String.eqb (ai_type self) "coherent" || String.eqb (ai_type self) "bridge" then
      if persistent_defector other then ret defect else ret cooperate
    else choice cooperate [cooperate; defect]
  else if awakened self then ret cooperate
  else
    r1 <- random ;;
    if r1 <? noise then choice cooperate [cooperate; defect]
    else
      r2 <- random ;;
      distrust <- (if trust_in_institutions self <? r2
                   then r3 <- random ;; ret (r3 <? 0.3)
                   else ret false) ;;
      if distrust then ret defect
      else
        remembered <- recall (rev (last_n 20 (scars self))) ;;
        match remembered with
        | Some a => ret a
        | None =>
          let p_coop := (cooperation_tendency self + s_star self) / 2 in
          r <- random ;;
          ret (if r <? p_coop then cooperate else defect)
        end.

(** [Whole.learn] (lines 127-137), with the default [source="experience"]. *)
Definition learn (self : Whole) (my_action their_action : Strategy) (o : Outcome) : Whole :=
  set_scars self
    (append_capped (scars self)
       (mkScar their_action my_action o (outcome_weight o) 0 experience)).

(** [Whole.receive_teaching] (lines 139-154) *)
Definition receive_teaching (self teacher : Whole) : Rand G Whole :=
  if negb (can_teach teacher) then ret self
  else
    let self := set_scars self (scars self ++ [taught_scar]) in
    let self := set_taught_by self (id teacher) in
    let self := set_trust self (py_min 1.0 (trust_in_institutions self + 0.1)) in
    r <- random ;;
    ret (if r <? 0.05 then set_awakened self true else self).

(** [Whole.update_coherence] (lines 156-157) *)
Definition update_coherence (self : Whole) (delta : float) : Whole :=
  set_s_star self (clamp_coherence (s_star self) delta).

(** [Whole.is_viable] *)
Definition is_viable (self : Whole) : bool := 0.1 <? s_star self.

(** The first lines of [interact]: attach the counter when it is missing. *)
Definition attach_recent (w : Whole) : Whole :=
  match _recent_defections w with
  | Some _ => w
  | None => set_recent_defections w 0
  end.

(** [polarization_penalty] (lines 173-175): the draw is made only when both
    agents are isolated. *)
Definition draw_penalty (w1 w2 : Whole) (polarization : float) : Rand G float :=
  if isolated w1 && isolated w2 then
    r <- random ;; ret (if r <? polarization then 0.05 else 0)
  else ret 0.

Record Settled : Type := mkSettled {
  st_w1 : Whole; st_w2 : Whole;
  d1 : float; d2 : float;
  o1 : Outcome; o2 : Outcome
}.

(** The payoff table of [interact] (lines 177-208): deltas, outcomes and the
    counters each branch touches. *)
Definition payoff (w1 w2 : Whole) (a1 a2 : Strategy)
    (scarcity polarization_penalty : float) : Settled :=
  let scarcity_mult := 1 + scarcity * 2 in
  match a1, a2 with
  | cooperate, cooperate =>
    let w1 := set_cooperations w1 (cooperations w1 + 1) in
    let w2 := set_cooperations w2 (cooperations w2 + 1) in
    let w1 := set_recent_defections w1 (Z.max 0 (recent w1 - 1)) in
    let w2 := set_recent_defections w2 (Z.max 0 (recent w2 - 1)) in
    mkSettled w1 w2
      (0.15 * (1 - scarcity) - polarization_penalty)
      (0.15 * (1 - scarcity) - polarization_penalty)
      thrived thrived
  | defect, defect =>
    let w1 := set_defections w1 (defections w1 + 1) in
    let w2 := set_defections w2 (defections w2 + 1) in
    let w1 := set_recent_defections w1 (recent w1 + 1) in
    let w2 := set_recent_defections w2 (recent w2 + 1) in
    mkSettled w1 w2 (-0.1 * scarcity_mult) (-0.1 * scarcity_mult) suffered suffered
  | defect, cooperate =>
    let w1 := set_defections w1 (defections w1 + 1) in
    let w2 := set_cooperations w2 (cooperations w2 + 1) in
    let w1 := set_recent_defections w1 (recent w1 + 1) in
    mkSettled w1 w2 (0.1 * scarcity_mult) (-0.2 * scarcity_mult) survived suffered
  | cooperate, defect =>
    let w1 := set_cooperations w1 (cooperations w1 + 1) in
    let w2 := set_defections w2 (defections w2 + 1) in
    let w2 := set_recent_defections w2 (recent w2 + 1) in
    mkSettled w1 w2 (-0.2 * scarcity_mult) (0.1 * scarcity_mult) suffered survived
  end.

(** The teaching step that closes [interact] (lines 217-222). The second test
    reads [w2] as the first teaching left it. *)
Definition teach (a1 a2 : Strategy) (w1 w2 : Whole) : Rand G (Whole * Whole) :=
  match a1, a2 with
  | cooperate, cooperate =>
    w2 <- (if can_teach w1 && negb (is_ai w2) && negb (was_taught w2)
           then receive_teaching w2 w1 else ret w2) ;;
    w1 <- (if can_teach w2 && negb (is_ai w1) && negb (was_taught w1)
           then receive_teaching w1 w2 else ret w1) ;;
    ret (w1, w2)
  | _, _ => ret (w1, w2)
  end.

(** The state [receive_teaching] leaves when the teacher qualifies; [wakes]
    is the outcome of the 5% draw. *)
Definition after_teaching (self : Whole) (teacher_id : Z) (wakes : bool) : Whole :=
  let self := set_scars self (scars self ++ [taught_scar]) in
  let self := set_taught_by self teacher_id in
  let self := set_trust self (py_min 1.0 (trust_in_institutions self + 0.1)) in
  if wakes then set_awakened self true else self.

(** [interact] from the payoff table to the interaction counters
    (lines 177-215), once both actions and the penalty are known. *)
Definition resolved (w1 w2 : Whole) (a1 a2 : Strategy)
    (scarcity polarization_penalty : float) : Whole * Whole :=
  let s := payoff w1 w2 a1 a2 scarcity polarization_penalty in
  let w1 := update_coherence (st_w1 s) (d1 s) in
  let w2 := update_coherence (st_w2 s) (d2 s) in
  let w1 := learn w1 a1 a2 (o1 s) in
  let w2 := learn w2 a2 a1 (o2 s) in
  let w1 := set_interactions w1 (interactions w1 + 1) in
  let w2 := set_interactions w2 (interactions w2 + 1) in
  (w1, w2).

(** What [interact] does once both actions and the penalty are known
    (lines 177-222). *)
Definition settle (w1 w2 : Whole) (a1 a2 : Strategy)
    (scarcity polarization_penalty : float) : Rand G (Whole * Whole) :=
  let r := resolved w1 w2 a1 a2 scarcity polarization_penalty in
  teach a1 a2 (fst r) (snd r).

(** The one-sided branches of the payoff table, read for the cooperator's
    [_recent_defections]: does the branch lower it by one (floored at 0)? *)
Definition first_defects_lowers : Prop :=
  forall w1 w2 scarcity pen,
    recent (st_w2 (payoff w1 w2 defect cooperate scarcity pen)) = Z.max 0 (recent w2 - 1).

Definition second_defects_lowers : Prop :=
  forall w1 w2 scarcity pen,
    recent (st_w1 (payoff w1 w2 cooperate defect scarcity pen)) = Z.max 0 (recent w1 - 1).

(** One branch lowers the cooperator's counter and its mirror image does not. *)
Definition asymmetric_branches : Prop :=
  (first_defects_lowers /\ ~ second_defects_lowers) \/
  (~ first_defects_lowers /\ second_defects_lowers).

(** [interact] (lines 163-222). The two arguments are distinct objects: every
    caller pairs an agent with one of a different id. *)
Definition interact (w1 w2 : Whole) (noise scarcity polarization : float)
    : Rand G (Whole * Whole) :=
  let w1 := attach_recent w1 in
  let w2 := attach_recent w2 in
  a1 <- decide w1 w2 noise ;;
  a2 <- decide w2 w1 noise ;;
  polarization_penalty <- draw_penalty w1 w2 polarization ;;
  settle w1 w2 a1 a2 scarcity polarization_penalty.

(** [create_human] (lines 225-230) *)
Definition create_human (next_id : Z) (trust : float) (iso : bool) : Rand G Whole :=
  let w := set_trust (new_whole next_id) trust in
  s <- uniform 0.3 0.7 ;;
  ret (set_isolated (set_s_star w s) iso).

(** The scar preloaded by [create_ai]. *)
Definition training_scar : Scar := mkScar cooperate cooperate thrived 0.8 0 training.

(** [create_ai] (lines 233-246) *)
Definition create_ai (next_id : Z) (t : string) : Whole :=
  let w := set_ai (new_whole next_id) t in
  let aligned := String.eqb t "coherent" || String.eqb t "bridge" in
  let w := set_s_star w (if aligned then 0.9 else 0.5) in
  if aligned then
    set_crucible_tested (set_scars w (scars w ++ repeat training_scar 20)) true
  else w.

(** The scar preloaded by [create_awakened_human]. *)
Definition journey_scar : Scar := mkScar cooperate cooperate thrived 0.75 0 experience.

(** [create_awakened_human] (lines 249-265) *)
Definition create_awakened_human (next_id : Z) : Whole :=
  let w := set_awakened (new_whole next_id) true in
  let w := set_s_star w 0.8 in
  let w := set_trust w 0.8 in
  let w := set_scars w (scars w ++ repeat journey_scar 15) in
  set_crucible_tested w true.

(** The loop body of [build_collapsed_civilization] (lines 277-287). *)
Definition survivor (next_id : Z) : Rand G Whole :=
  r <- random ;;
  w <- create_human next_id 0.2 (r <? 0.6) ;;
  s <- uniform 0.15 0.4 ;;
  let w := set_s_star w s in
  r' <- random ;;
  ret (if r' <? 0.1
       then set_scars w (scars w ++ [mkScar defect defect survived 0.5 0 trauma])
       else w).

(** [build_collapsed_civilization] (lines 268-291) *)
Fixpoint build_collapsed_civilization (n_survivors : nat) (next_id : Z)
    : Rand G (list Whole * Z) :=
  match n_survivors with
  | O => ret ([], next_id)
  | S n =>
    w <- survivor next_id ;;
    rest <- build_collapsed_civilization n (next_id + 1) ;;
    ret (w :: fst rest, snd rest)
  end.

(** The scar loop of [build_declining_civilization] (lines 311-318). *)
Fixpoint fading_scars (n_scars : nat) : Rand G (list Scar) :=
  match n_scars with
  | O => ret []
  | S n =>
    theirs <- choice cooperate [cooperate; defect] ;;
    mine <- choice cooperate [cooperate; defect] ;;
    o <- choice thrived [thrived; survived; suffered] ;;
    wt <- uniform 0.1 0.4 ;;
    tl <- fading_scars n ;;
    ret (mkScar theirs mine o wt 0 inherited :: tl)
  end.

(** The loop body of [build_declining_civilization] (lines 303-325). *)
Definition decliner (next_id : Z) : Rand G Whole :=
  t <- gauss 0.35 0.15 ;;
  let trust := py_max 0.1 (py_min 0.8 t) in
  r <- random ;;
  w <- create_human next_id trust (r <? 0.4) ;;
  n_scars <- randint 0 5 ;;
  got <- fading_scars (Z.to_nat n_scars) ;;
  let w := set_scars w (scars w ++ got) in
  r' <- random ;;
  ret (if r' <? 0.05 then set_corrupted w true else w).

(** [build_declining_civilization] (lines 294-327) *)
Fixpoint build_declining_civilization (n_humans : nat) (next_id : Z)
    : Rand G (list Whole * Z) :=
  match n_humans with
  | O => ret ([], next_id)
  | S n =>
    w <- decliner next_id ;;
    rest <- build_declining_civilization n (next_id + 1) ;;
    ret (w :: fst rest, snd rest)
  end.

(** The copy a child receives of one of its parent's scars. *)
Definition inherited_copy (scar : Scar) (factor : float) : Scar :=
  mkScar (other_strategy scar) (my_response scar) (outcome scar)
         (weight scar * factor) 0 inherited.

(** [for scar in ss: if random.random() < rate: child.scars.append(copy)] *)
Fixpoint inherit (ss : list Scar) (rate factor : float) : Rand G (list Scar) :=
  match ss with
  | [] => ret []
  | scar :: rest =>
    r <- random ;;
    tl <- inherit rest rate factor ;;
    ret (if r <? rate then inherited_copy scar factor :: tl else tl)
  end.

(** [parent.taught_by or parent.awakened]: an [Optional[int]] is false when
    it is [None] and also when it is [0]. *)
Definition taught_or_awakened (parent : Whole) : bool :=
  match taught_by parent with
  | Some t => if (t =? 0)%Z then awakened parent else true
  | None => awakened parent
  end.

(** The body of the birth loop of [run_simulation] (lines 440-455) for one
    parent that passed the birth draw. *)
Definition birth (parent : Whole) (next_id : Z) : Rand G Whole :=
  r <- random ;;
  child <- create_human next_id
             (py_max 0.1 (trust_in_institutions parent * 0.9)) (r <? 0.3) ;;
  let inherit_rate := if taught_or_awakened parent then 0.5 else 0.3 in
  got <- inherit (last_n 8 (scars parent)) inherit_rate 0.6 ;;
  ret (set_scars child (scars child ++ got)).

(** The loop body of the WORST CASE preparation in [main] (lines 594-598),
    run over a population fresh from [build_declining_civilization]: trust
    and coherence are scaled down without a clamp. *)
Definition worsened (w : Whole) : Rand G Whole :=
  let w := set_trust w (trust_in_institutions w * 0.5) in
  let w := set_s_star w (s_star w * 0.7) in
  r <- random ;;
  ret (if r <? 0.3 then set_corrupted w true else w).

(** The agent states a run of [run_simulation] can hold, started from either
    builder or from the worsened population of [main]: the builders' members,
    the members [main] made worse, the agents that enter or are born in the
    generation loop, and every state an interaction leaves behind. Removal
    (death, the viability filter) creates no new state. Noise, scarcity,
    polarization, ids and the generator state are left free. *)
Inductive reachable : Whole -> Prop :=
| reach_survivor : forall next_id g, reachable (fst (survivor next_id g))
| reach_decliner : forall next_id g, reachable (fst (decliner next_id g))
| reach_worsened : forall next_id g g',
    reachable (fst (worsened (fst (decliner next_id g)) g'))
| reach_ai : forall next_id t, reachable (create_ai next_id t)
| reach_awakened : forall next_id, reachable (create_awakened_human next_id)
| reach_birth : forall parent next_id g,
    reachable parent -> is_ai parent = false ->
    reachable (fst (birth parent next_id g))
| reach_interact_1 : forall w1 w2 noise scarcity polarization g,
    reachable w1 -> reachable w2 ->
    reachable (fst (fst (interact w1 w2 noise scarcity polarization g)))
| reach_interact_2 : forall w1 w2 noise scarcity polarization g,
    reachable w1 -> reachable w2 ->
    reachable (snd (fst (interact w1 w2 noise scarcity polarization g))).

(** What can happen to one agent once it exists, whatever it is: [n]
    interactions, in either seat and with any partner, and in between the
    scaling of [main]. *)
Inductive after_interactions : Whole -> nat -> Whole -> Prop :=
| lived_none : forall w, after_interactions w 0 w
| lived_first_seat : forall start n w other noise scarcity polarization g,
    after_interactions start n w ->
    after_interactions start (S n)
      (fst (fst (interact w other noise scarcity polarization g)))
| lived_second_seat : forall start n w other noise scarcity polarization g,
    after_interactions start n w ->
    after_interactions start (S n)
      (snd (fst (interact other w noise scarcity polarization g)))
| lived_worsened : forall start n w g,
    after_interactions start n w ->
    after_interactions start n (fst (worsened w g)).

End Engine.

(** ** The end of a generation in [run_simulation], and the report of [main] *)

(** [[w for w in population if not w.is_ai]] *)
Definition humans (population : list Whole) : list Whole :=
  filter (fun w => negb (is_ai w)) population.

(** The viability filter and the collapse test (lines 403-409): [None] when
    the run returns collapsed, else the population the generation goes on
    with. *)
Definition collapse_check (population : list Whole) : option (list Whole) :=
  let population := filter is_viable population in
  if (List.length (humans population) <? 3)%nat then None else Some population.

(** [h_coop], [h_def] (lines 418-419) and, likewise, the interactions of the
    humans. *)
Definition h_coop (population : list Whole) : Z :=
  fold_left Z.add (map cooperations (humans population)) 0%Z.

Definition h_def (population : list Whole) : Z :=
  fold_left Z.add (map defections (humans population)) 0%Z.

Definition h_interactions (population : list Whole) : Z :=
  fold_left Z.add (map interactions (humans population)) 0%Z.

(** The trimming of a history in [main] (lines 672-674): every fifth record
    when the history has more than 10, [None] when it is left as it is. *)
Definition history_summary {A : Type} (history : list A) : option (list A) :=
  if (10 <? List.length history)%nat then Some (stride_from 4 0 history) else None.

End V7.

(** * Agents of either file *)

Inductive Agent : Type :=
| Agent5 (w : V5.Whole)
| Agent7 (w : V7.Whole).

(** The agent is in a state that a run of its file's driver can hold. *)
Definition arises {G : Type} `{Rng G} (a : Agent) : Prop :=
  match a with
  | Agent5 w => V5.reachable w
  | Agent7 w => V7.reachable w
  end.

Definition agent_in_range (a : Agent) : Prop :=
  match a with
  | Agent5 w => V5.in_range w
  | Agent7 w => V7.in_range w
  end.

Definition agent_balanced (a : Agent) : Prop :=
  match a with
  | Agent5 w => V5.balanced w
  | Agent7 w => V7.balanced w
  end.

(** * A generator to run the code on: a tape of pre-drawn variates

    [random()] pops the next variate (0 once the tape is exhausted); the other
    draws are derived from it. It stands in for CPython's Mersenne Twister. *)

Definition Tape : Type := list float.

Definition tape_next (g : Tape) : float * Tape :=
  match g with
  | [] => (0, [])
  | r :: g' => (r, g')
  end.

Definition float_of_nat (n : nat) : float :=
  PrimFloat.of_uint63 (Uint63.of_Z (Z.of_nat n)).

(** [int(random() * n)] *)
Definition tape_below (n : nat) (g : Tape) : nat * Tape :=
  let (r, g') := tape_next g in
  (List.length (filter (fun i => float_of_nat i <=? r * float_of_nat n) (seq 1 (n - 1))), g').

#[export] Instance Tape_Rng : Rng Tape := {|
  random := tape_next;
  randbelow := tape_below;
  uniform := fun a b g =>
    let (r, g') := tape_next g in (py_max a (py_min b (a + (b - a) * r)), g');
  gauss := fun mu sigma g =>
    let (r, g') := tape_next g in (mu + sigma * (2 * r - 1), g');
  randint := fun a b g =>
    let (k, g') := tape_below (Z.to_nat (b - a + 1)) g in ((a + Z.of_nat k)%Z, g')
|}.

(** * Sample agents, to run the code on *)

(** A remembered round of mutual cooperation, as [learn] records it. *)
Definition thrived_scar : Scar := mkScar cooperate cooperate thrived 0.8 0 experience.

(** v5: a bridge AI, an aggressive AI, a coherent AI whose counter stands at 2. *)
Definition bridge5 : V5.Whole := V5.create_ai 0 "bridge".
Definition hawk5 : V5.Whole := V5.set_recent_defections (V5.create_ai 2 "aggressive") 2.
Definition dove5 : V5.Whole := V5.set_recent_defections (V5.create_ai 3 "coherent") 2.

(** v5: a founder who was taught once, and the same with coherence 0.9. *)
Definition pupil5 : V5.Whole := V5.after_teaching (V5.founder 1).
Definition elder5 : V5.Whole := V5.set_s_star pupil5 0.9.

(** v7: the same cast. *)
Definition bridge7 : V7.Whole := V7.create_ai 0 "bridge".
Definition hawk7 : V7.Whole := V7.set_recent_defections (V7.create_ai 2 "aggressive") 2.
Definition dove7 : V7.Whole := V7.set_recent_defections (V7.create_ai 3 "coherent") 2.
Definition veteran7 : V7.Whole :=
  V7.set_scars (V7.set_trust (V7.new_whole 1) 0.7) (repeat thrived_scar 100).

(** [n] rounds between the same two agents, at noise, scarcity and
    polarization 0, drawing from the tape [g]. *)
Fixpoint rounds5 (n : nat) (w1 w2 : V5.Whole) (g : Tape) : V5.Whole * V5.Whole :=
  match n with
  | O => (w1, w2)
  | S k => let (p, g') := V5.interact w1 w2 0 0 0 g in rounds5 k (fst p) (snd p) g'
  end.

Fixpoint rounds7 (n : nat) (w1 w2 : V7.Whole) (g : Tape) : V7.Whole * V7.Whole :=
  match n with
  | O => (w1, w2)
  | S k => let (p, g') := V7.interact w1 w2 0 0 0 g in rounds7 k (fst p) (snd p) g'
  end.

(** v5: a founder after 100 rounds with another founder. *)
Definition old_hand5 : V5.Whole := fst (rounds5 100 (V5.founder 1) (V5.founder 2) []).

(** v7: a survivor of the collapsed civilization after 100 rounds with another. *)
Definition old_hand7 : V7.Whole :=
  fst (rounds7 100 (fst (V7.survivor 1 [0.9; 0.5; 0.5; 0.9]))
         (fst (V7.survivor 2 [0.9; 0.5; 0.5; 0.9])) []).

(** ** Reading rounded results

    The shapes a rounded result of a given sign can take, and "at most 1.0 or
    not comparable", on the specification side of the primitive floats. *)

Definition signed_like (s : bool) (r : spec_float) : Prop :=
  r = S754_nan \/ r = S754_zero s \/ r = S754_infinity s \/
  exists m e, r = S754_finite s m e.

Definition SF_one : spec_float := S754_finite false 4503599627370496 (-52).

Definition at_most_one (r : spec_float) : Prop :=
  r = S754_nan \/ SFleb r SF_one = true.

(** * Float order facts *)

Lemma ltb_leb (x y : float) : (x <? y) = true -> (x <=? y) = true.
Proof.
  rewrite ltb_spec, leb_spec. unfold SFltb, SFleb.
  destruct (SFcompare (Prim2SF x) (Prim2SF y)) as [[]|]; congruence.
Qed.

Lemma SFcompare_refl (x : spec_float) :
  x <> S754_nan -> SFcompare x x = Some Eq.
Proof.
  destruct x as [s|s| |s m e]; simpl; intros Hn; try congruence.
  - destruct s; reflexivity.
  - destruct s; rewrite Z.compare_refl, Pos.compare_cont_refl; reflexivity.
Qed.

Lemma leb_refl_l (x y : float) : (x <=? y) = true -> (x <=? x) = true.
Proof.
  rewrite !leb_spec. unfold SFleb. intros Hxy.
  rewrite SFcompare_refl; [reflexivity|].
  intros Hn; rewrite Hn in Hxy; discriminate.
Qed.

Lemma leb_refl_r (x y : float) : (x <=? y) = true -> (y <=? y) = true.
Proof.
  rewrite !leb_spec. unfold SFleb. intros Hxy.
  rewrite SFcompare_refl; [reflexivity|].
  intros Hn; rewrite Hn in Hxy.
  destruct (Prim2SF x); discriminate.
Qed.

(** [max(a, x)] is never below its first argument ... *)
Lemma py_max_lower (a x : float) :
  (a <=? a) = true -> (a <=? py_max a x) = true.
Proof.
  intros Ha. unfold py_max. destruct (a <? x) eqn:E; [now apply ltb_leb | exact Ha].
Qed.

(** ... and stays below any bound of both arguments; a second argument that
    does not compare (NaN) is dropped. *)
Lemma py_max_upper (a x b : float) :
  (a <=? b) = true -> ((a <? x) = true -> (x <=? b) = true) ->
  (py_max a x <=? b) = true.
Proof.
  intros Ha Hx. unfold py_max. destruct (a <? x); auto.
Qed.

Lemma py_min_upper (a x : float) :
  (a <=? a) = true -> (py_min a x <=? a) = true.
Proof.
  intros Ha. unfold py_min. destruct (x <? a) eqn:E; [now apply ltb_leb | exact Ha].
Qed.

Lemma py_min_lower (a x c : float) :
  (c <=? a) = true -> ((x <? a) = true -> (c <=? x) = true) ->
  (c <=? py_min a x) = true.
Proof.
  intros Ha Hx. unfold py_min. destruct (x <? a); auto.
Qed.

(** [update_coherence] lands in [0.01, 1.0] whatever the sum is, NaN and the
    infinities included. *)
Lemma clamp_coherence_range (s delta : float) :
  (0.01 <=? clamp_coherence s delta) = true /\
  (clamp_coherence s delta <=? 1.0) = true.
Proof.
  unfold clamp_coherence. split.
  - apply py_max_lower. reflexivity.
  - apply py_max_upper; [reflexivity|]. intros _. apply py_min_upper. reflexivity.
Qed.

#[export] Instance Tape_RngLaws : RngLaws Tape.
Proof.
  constructor. intros a b g Hc.
  assert (Hab : (a <=? b) = true)
    by (destruct Hc as [E|[E|E]]; injection E as -> ->; reflexivity).
  simpl. destruct (tape_next g) as [r g']. simpl.
  split.
  - apply py_max_lower. exact (leb_refl_l _ _ Hab).
  - apply py_max_upper; [exact Hab|]. intros _. apply py_min_upper.
    exact (leb_refl_r _ _ Hab).
Qed.

(** CPython computes [uniform(a, b)] as [a + (b - a) * random()] with
    [random()] below 1.0; at the three pairs of bounds of the sources the
    largest value that can give, [a + (b - a)], is [b] itself. *)
Lemma uniform_call_endpoint (a b : float) :
  uniform_call a b -> (a + (b - a))%float = b /\ (a <=? b)%float = true.
Proof.
  intros [E|[E|E]]; injection E as -> ->; split; reflexivity.
Qed.

(** * Rounding facts

    What the trust updates need of binary64 rounding, proved on the
    specification of the primitive operations. *)

Lemma binary_round_aux_sign s m e l :
  signed_like s (binary_round_aux prec emax s m e l).
Proof.
  unfold binary_round_aux, signed_like.
  destruct (shr_fexp prec emax m e l) as [mrs' e'].
  destruct (shr_fexp prec emax _ e' loc_Exact) as [mrs'' e''].
  destruct (shr_m mrs''); [| destruct (Z.leb e'' _) |]; eauto 6.
Qed.

Lemma binary_round_sign s m e :
  signed_like s (binary_round prec emax s m e).
Proof.
  unfold binary_round. destruct (shl_align _ _ _). apply binary_round_aux_sign.
Qed.

Lemma negative_at_most_one r : signed_like true r -> at_most_one r.
Proof.
  unfold at_most_one. intros [H|[H|[H|[m [e H]]]]]; subst; auto.
Qed.

Local Open Scope Z_scope.

Lemma digits2_bounds (p : positive) :
  2 ^ (Z.pos (digits2_pos p) - 1) <= Z.pos p < 2 ^ Z.pos (digits2_pos p).
Proof.
  induction p as [p IH|p IH|]; simpl digits2_pos.
  - rewrite Pos2Z.inj_succ.
    replace (Z.succ (Z.pos (digits2_pos p)) - 1) with (Z.succ (Z.pos (digits2_pos p) - 1)) by lia.
    rewrite !Z.pow_succ_r by lia. lia.
  - rewrite Pos2Z.inj_succ.
    replace (Z.succ (Z.pos (digits2_pos p)) - 1) with (Z.succ (Z.pos (digits2_pos p) - 1)) by lia.
    rewrite !Z.pow_succ_r by lia. lia.
  - simpl. lia.
Qed.

Lemma digits2_le (p : positive) (k : Z) :
  Z.pos p < 2 ^ k -> Z.pos (digits2_pos p) <= k.
Proof.
  intros Hp. destruct (digits2_bounds p) as [Hlo _].
  destruct (Z.le_gt_cases (Z.pos (digits2_pos p)) k) as [|Hgt]; [assumption|].
  assert (2 ^ k <= 2 ^ (Z.pos (digits2_pos p) - 1)).
  { apply Z.pow_le_mono_r; lia. }
  lia.
Qed.

Lemma shr_1_halves mrs :
  0 <= shr_m mrs ->
  0 <= shr_m (shr_1 mrs) /\ 2 * shr_m (shr_1 mrs) <= shr_m mrs.
Proof.
  destruct mrs as [m r s]. simpl. destruct m as [|[p|p|]|p]; simpl; lia.
Qed.

Lemma iter_shr_1_bound (p : positive) : forall mrs,
  0 <= shr_m mrs ->
  0 <= shr_m (SpecFloat.iter_pos shr_1 p mrs) /\
  shr_m (SpecFloat.iter_pos shr_1 p mrs) * 2 ^ Z.pos p <= shr_m mrs.
Proof.
  induction p as [p IH|p IH|]; intros mrs Hm; simpl SpecFloat.iter_pos.
  - destruct (shr_1_halves mrs Hm) as [H0 H1].
    destruct (IH _ H0) as [H2 H3]. destruct (IH _ H2) as [H4 H5].
    split; [assumption|].
    replace (Z.pos p~1) with (Z.pos p + Z.pos p + 1) by lia.
    rewrite !Z.pow_add_r by lia. 
    assert (0 < 2 ^ Z.pos p) by (apply Z.pow_pos_nonneg; lia).
    nia.
  - destruct (IH _ Hm) as [H2 H3]. destruct (IH _ H2) as [H4 H5].
    split; [assumption|].
    replace (Z.pos p~0) with (Z.pos p + Z.pos p) by lia.
    rewrite !Z.pow_add_r by lia.
    assert (0 < 2 ^ Z.pos p) by (apply Z.pow_pos_nonneg; lia).
    nia.
  - destruct (shr_1_halves mrs Hm). split; [assumption|]. 
    change (2 ^ 1) with 2. lia.
Qed.

Lemma round_nearest_even_step q l :
  round_nearest_even q l = q \/ round_nearest_even q l = q + 1.
Proof.
  destruct l as [|[]]; simpl; auto. destruct (Z.even q); auto.
Qed.

Lemma fexp_eq e : fexp prec emax e = Z.max (e - 53) (-1074).
Proof. reflexivity. Qed.

(** A positive mantissa that stays once no shift is called for. *)
Lemma shr_fexp_small (p : positive) (e : Z) :
  fexp prec emax (Z.pos (digits2_pos p) + e) <= e ->
  shr_fexp prec emax (Z.pos p) e loc_Exact = (Build_shr_record (Z.pos p) false false, e).
Proof.
  intros H. unfold shr_fexp, shr. simpl Zdigits2. simpl shr_record_of_loc.
  destruct (fexp prec emax (Z.pos (digits2_pos p) + e) - e) eqn:E; try reflexivity. lia.
Qed.

Lemma finite_below_one (m : positive) (e : Z) :
  e <= -53 -> at_most_one (S754_finite false m e).
Proof.
  intros He. right. unfold SFleb, SF_one, SFcompare.
  destruct (Z.compare_spec e (-52)); [lia | reflexivity | lia].
Qed.

Lemma round_aux_at_most_one (m : positive) (e : Z) :
  Z.pos (digits2_pos m) + e <= 0 -> e <= -53 ->
  at_most_one (binary_round_aux prec emax false (Z.pos m) e loc_Exact).
Proof.
  intros Hd He. unfold binary_round_aux.
  destruct (Z.le_gt_cases (fexp prec emax (Z.pos (digits2_pos m) + e)) e) as [Hs|Hs].
  - (* already representable at exponent e *)
    rewrite (shr_fexp_small m e Hs). simpl shr_m. simpl loc_of_shr_record.
    simpl round_nearest_even. rewrite (shr_fexp_small m e Hs). simpl shr_m.
    replace (e <=? emax - prec) with true by (symmetry; apply Z.leb_le; unfold emax, prec; lia).
    now apply finite_below_one.
  - (* shifted right to exponent fexp (digits + e) *)
    unfold shr_fexp at 1. simpl Zdigits2. simpl shr_record_of_loc. unfold shr at 1.
    set (fe := fexp prec emax (Z.pos (digits2_pos m) + e)) in *.
    assert (Hfe : fe = Z.max (Z.pos (digits2_pos m) + e - 53) (-1074)) by reflexivity.
    destruct (fe - e) as [|n|n] eqn:En; try lia.
    set (mrs' := SpecFloat.iter_pos shr_1 n (Build_shr_record (Z.pos m) false false)).
    destruct (iter_shr_1_bound n (Build_shr_record (Z.pos m) false false)) as [Hq0 Hq1];
      [simpl; lia|]. fold mrs' in Hq0, Hq1. simpl shr_m in Hq1.
    assert (Hq : shr_m mrs' < 2 ^ 53).
    { destruct (digits2_bounds m) as [_ Hm].
      assert (2 ^ Z.pos (digits2_pos m) <= 2 ^ (Z.pos n + 53)).
      { apply Z.pow_le_mono_r; lia. }
      rewrite Z.pow_add_r in H by lia.
      assert (0 < 2 ^ Z.pos n) by (apply Z.pow_pos_nonneg; lia).
      nia. }
    set (m1 := round_nearest_even (shr_m mrs') (loc_of_shr_record mrs')).
    assert (Hm1 : 0 <= m1 <= 2 ^ 53).
    { subst m1. destruct (round_nearest_even_step (shr_m mrs') (loc_of_shr_record mrs')) as [->| ->]; lia. }
    replace (e + Z.pos n) with fe by lia.
    assert (Hfe' : -1074 <= fe <= -53) by lia.
    destruct m1 as [|p1|p1] eqn:Em1; try lia.
    + (* rounded to zero *)
      unfold shr_fexp, shr. simpl Zdigits2. simpl shr_record_of_loc.
      destruct (fexp prec emax (0 + fe) - fe) eqn:E; simpl; try (right; reflexivity).
      rewrite fexp_eq in E. lia.
    + destruct (Z.eq_dec (Z.pos p1) (2 ^ 53)) as [Hp|Hp].
      * (* the carry: 2^53 at fe is 2^52 at fe + 1 *)
        change (2 ^ 53) with 9007199254740992 in Hp. injection Hp as ->.
        unfold shr_fexp, shr. simpl Zdigits2. simpl shr_record_of_loc.
        rewrite fexp_eq.
        replace (Z.max (54 + fe - 53) (-1074) - fe) with 1 by lia.
        simpl SpecFloat.iter_pos. simpl shr_m.
        replace (fe + 1 <=? emax - prec) with true
          by (symmetry; apply Z.leb_le; unfold emax, prec; lia).
        right. unfold SFleb, SF_one, SFcompare.
        destruct (Z.compare_spec (fe + 1) (-52)); [reflexivity | reflexivity | lia].
      * assert (Hd1 : Z.pos (digits2_pos p1) <= 53) by (apply digits2_le; lia).
        rewrite shr_fexp_small by (rewrite fexp_eq; lia). simpl shr_m.
        replace (fe <=? emax - prec) with true
          by (symmetry; apply Z.leb_le; unfold emax, prec; lia).
        apply finite_below_one. lia.
Qed.

Lemma iter_xO_value (m d : positive) :
  Z.pos (Pos.iter xO m d) = Z.pos m * 2 ^ Z.pos d.
Proof.
  induction d as [|d IH] using Pos.peano_ind.
  - simpl Pos.iter. change (2 ^ 1) with 2. lia.
  - rewrite Pos.iter_succ, Pos2Z.inj_xO, IH, Pos2Z.inj_succ, Z.pow_succ_r by lia. lia.
Qed.

Lemma iter_xO_digits (m d : positive) :
  Z.pos (digits2_pos (Pos.iter xO m d)) = Z.pos (digits2_pos m) + Z.pos d.
Proof.
  induction d as [|d IH] using Pos.peano_ind.
  - simpl. lia.
  - rewrite Pos.iter_succ. simpl digits2_pos. rewrite Pos2Z.inj_succ, IH. lia.
Qed.

(** [shl_align] lowers the exponent to the target when that is smaller, and
    keeps the value. *)
Lemma shl_align_spec (m : positive) (e e' : Z) :
  snd (shl_align m e e') = Z.min e e' /\
  Z.pos (fst (shl_align m e e')) = Z.pos m * 2 ^ (e - Z.min e e') /\
  Z.pos (digits2_pos (fst (shl_align m e e'))) + Z.min e e' = Z.pos (digits2_pos m) + e.
Proof.
  unfold shl_align. destruct (e' - e) as [|d|d] eqn:E; simpl fst; simpl snd.
  - replace (Z.min e e') with e by lia. rewrite Z.sub_diag. change (2 ^ 0) with 1. lia.
  - replace (Z.min e e') with e by lia. rewrite Z.sub_diag. change (2 ^ 0) with 1. lia.
  - replace (Z.min e e') with e' by lia.
    replace (e - e') with (Z.pos d) by lia.
    rewrite iter_xO_value, iter_xO_digits. lia.
Qed.

Lemma round_at_most_one (p : positive) (e : Z) :
  Z.pos (digits2_pos p) + e <= 0 -> e <= -53 ->
  at_most_one (binary_round prec emax false p e).
Proof.
  intros Hd He. unfold binary_round.
  destruct (shl_align_spec p e (fexp prec emax (Z.pos (digits2_pos p) + e))) as (H1 & _ & H3).
  destruct (shl_align p e _) as [mz ez]. simpl fst in *; simpl snd in *. subst ez.
  apply round_aux_at_most_one; lia.
Qed.

(** What [x <= 1.0] says of a finite positive [x] in canonical form. *)
Lemma finite_le_one (mx : positive) (ex : Z) :
  valid_binary (S754_finite false mx ex) = true ->
  SFleb (S754_finite false mx ex) SF_one = true ->
  ex <= -52 /\ Z.pos mx <= 2 ^ (- ex).
Proof.
  unfold valid_binary, SpecFloat.valid_binary, bounded, canonical_mantissa. intros Hv Hle.
  apply andb_prop in Hv. destruct Hv as [Hc _]. apply Z.eqb_eq in Hc.
  rewrite fexp_eq in Hc.
  assert (Hm : Z.pos mx < 2 ^ 53).
  { destruct (digits2_bounds mx) as [_ Hm].
    assert (2 ^ Z.pos (digits2_pos mx) <= 2 ^ 53) by (apply Z.pow_le_mono_r; lia). lia. }
  unfold SFleb, SF_one, SFcompare in Hle.
  destruct (Z.compare_spec ex (-52)) as [He|He|He].
  - subst ex. split; [lia|]. change (2 ^ (- -52)) with 4503599627370496.
    rewrite Pos.compare_cont_spec in Hle.
    destruct (Pos.compare_spec mx 4503599627370496) as [C|C|C].
    + subst mx. reflexivity.
    + apply Z.lt_le_incl. exact C.
    + discriminate.
  - split; [lia|].
    assert (2 ^ 53 <= 2 ^ (- ex)) by (apply Z.pow_le_mono_r; lia). lia.
  - discriminate.
Qed.

Lemma SFsub_at_most_one (x : spec_float) (my : positive) (ey : Z) :
  valid_binary x = true -> ey <= -53 ->
  SFleb x SF_one = true ->
  at_most_one (SF64sub x (S754_finite false my ey)).
Proof.
  intros Hv Hey Hle. destruct x as [s|s| |s mx ex].
  - apply negative_at_most_one. right; right; right. simpl. eauto.
  - destruct s; [|discriminate]. right. reflexivity.
  - discriminate.
  - unfold SF64sub, SFsub. cbv beta zeta.
    destruct (shl_align_spec mx ex (Z.min ex ey)) as (_ & Hx & _).
    destruct (shl_align_spec my ey (Z.min ex ey)) as (_ & Hy & _).
    set (a := fst (shl_align mx ex (Z.min ex ey))) in *.
    set (b := fst (shl_align my ey (Z.min ex ey))) in *.
    destruct s; simpl cond_Zopp.
    + apply negative_at_most_one.
      change (- Z.pos a - Z.pos b) with (Z.neg (a + b)). apply binary_round_sign.
    + destruct (finite_le_one mx ex Hv Hle) as [Hex Hmx].
      replace (Z.min ex (Z.min ex ey)) with (Z.min ex ey) in Hx by lia.
      destruct (Z.pos a - Z.pos b) as [|p|p] eqn:E; unfold binary_normalize.
      * right. reflexivity.
      * apply round_at_most_one; [|lia].
        assert (Z.pos p < 2 ^ (- Z.min ex ey)).
        { assert (Z.pos a <= 2 ^ (- ex) * 2 ^ (ex - Z.min ex ey)).
          { rewrite Hx. apply Z.mul_le_mono_nonneg_r; [apply Z.pow_nonneg|]; lia. }
          rewrite <- Z.pow_add_r in H by lia.
          replace (- ex + (ex - Z.min ex ey)) with (- Z.min ex ey) in H by lia. lia. }
        apply digits2_le in H. lia.
      * apply negative_at_most_one. apply binary_round_sign.
Qed.

Lemma SFmul_at_most_one (x : spec_float) (my : positive) (ey : Z) :
  valid_binary x = true -> ey <= -1 -> Z.pos my < 2 ^ (- ey) ->
  SFleb x SF_one = true ->
  at_most_one (SF64mul x (S754_finite false my ey)).
Proof.
  intros Hv Hey Hmy Hle. destruct x as [s|s| |s mx ex].
  - destruct s; right; reflexivity.
  - destruct s; [|discriminate]. right. reflexivity.
  - discriminate.
  - unfold SF64mul, SFmul. destruct s; simpl xorb.
    + apply negative_at_most_one. apply binary_round_aux_sign.
    + destruct (finite_le_one mx ex Hv Hle) as [Hex Hmx].
      apply round_aux_at_most_one; [|lia].
      assert (Z.pos (mx * my) < 2 ^ (- ex + - ey)).
      { rewrite Z.pow_add_r, Pos2Z.inj_mul by lia.
        assert (0 < 2 ^ (- ex)) by (apply Z.pow_pos_nonneg; lia).
        nia. }
      apply digits2_le in H. lia.
Qed.

Local Close Scope Z_scope.

Lemma at_most_one_leb (a z : float) :
  at_most_one (Prim2SF z) -> (a <? z) = true -> (z <=? 1) = true.
Proof.
  intros [Hn|Hle] Ha.
  - rewrite ltb_spec, Hn in Ha. unfold SFltb in Ha.
    destruct (Prim2SF a); discriminate.
  - rewrite leb_spec. exact Hle.
Qed.

(** Subtracting a small positive constant from a value at most 1.0 leaves a
    value at most 1.0, or something that does not compare. *)
Lemma sub_le_one (a x y : float) (my : positive) (ey : Z) :
  Prim2SF y = S754_finite false my ey -> (ey <= -53)%Z ->
  (x <=? 1) = true -> (a <? x - y) = true -> (x - y <=? 1) = true.
Proof.
  intros Hy Hey Hx. apply at_most_one_leb.
  rewrite sub_spec, Hy. apply SFsub_at_most_one; auto using Prim2SF_valid.
  rewrite leb_spec in Hx. exact Hx.
Qed.

Lemma mul_le_one (a x y : float) (my : positive) (ey : Z) :
  Prim2SF y = S754_finite false my ey -> (ey <= -1)%Z -> (Z.pos my < 2 ^ (- ey))%Z ->
  (x <=? 1) = true -> (a <? x * y) = true -> (x * y <=? 1) = true.
Proof.
  intros Hy Hey Hmy Hx. apply at_most_one_leb.
  rewrite mul_spec, Hy. apply SFmul_at_most_one; auto using Prim2SF_valid.
  rewrite leb_spec in Hx. exact Hx.
Qed.


Lemma SFleb_zero_nonneg r :
  signed_like false r -> r = S754_nan \/ SFleb (S754_zero false) r = true.
Proof.
  intros [H|[H|[H|[m [e H]]]]]; subst; auto.
Qed.

Lemma add_pos_nonneg (t y : float) m e :
  Prim2SF y = S754_finite false m e ->
  (0 <=? t) = true ->
  Prim2SF (t + y) = S754_nan \/ (0 <=? t + y) = true.
Proof.
  intros Hy Ht. rewrite leb_spec in *. rewrite add_spec, Hy.
  change (Prim2SF 0) with (S754_zero false) in *.
  destruct (Prim2SF t) as [s|s| |s mt et]; try discriminate.
  - right. reflexivity.
  - destruct s; [discriminate|]. right. reflexivity.
  - destruct s; [discriminate|].
    apply SFleb_zero_nonneg. unfold SF64add, SFadd. simpl cond_Zopp.
    cbv beta zeta. 
    set (a := fst (shl_align mt et (Z.min et e))).
    set (b := fst (shl_align m e (Z.min et e))).
    change (Z.pos a + Z.pos b)%Z with (Z.pos (a + b)).
    unfold binary_normalize. apply binary_round_sign.
Qed.

(** * The order on floats is transitive *)

Lemma switch_Eq_Eq c : Pos.switch_Eq Eq c = c.
Proof. destruct c; reflexivity. Qed.

Lemma SFleb_trans (x y z : spec_float) :
  SFleb x y = true -> SFleb y z = true -> SFleb x z = true.
Proof.
  unfold SFleb.
  destruct x as [sx|sx| |sx mx ex], y as [sy|sy| |sy my ey], z as [sz|sz| |sz mz ez];
    unfold SFcompare; intros H1 H2;
    repeat match goal with s : bool |- _ => destruct s end;
    try discriminate; try reflexivity.
  all: rewrite !Pos.compare_cont_spec, !switch_Eq_Eq in *.
  all: destruct (Z.compare_spec ex ey), (Z.compare_spec ey ez), (Z.compare_spec ex ez);
    try discriminate; try reflexivity; try lia; subst;
    destruct (Pos.compare_spec mx my), (Pos.compare_spec my mz), (Pos.compare_spec mx mz);
    simpl in *; try discriminate; try reflexivity; lia.
Qed.

Lemma leb_trans (x y z : float) :
  (x <=? y) = true -> (y <=? z) = true -> (x <=? z) = true.
Proof. rewrite !leb_spec. apply SFleb_trans. Qed.

Lemma nan_not_above (a z : float) :
  Prim2SF z = S754_nan -> (a <? z) = false.
Proof.
  intros Hz. rewrite ltb_spec, Hz. unfold SFltb. destruct (Prim2SF a); reflexivity.
Qed.

(** [min(1.0, trust + 0.1)] keeps a trust in [0, 1.0] in [0, 1.0]. *)
Lemma raised_trust_range (t : float) :
  (0 <=? t) = true ->
  (0 <=? py_min 1.0 (t + 0.1)) = true /\ (py_min 1.0 (t + 0.1) <=? 1.0) = true.
Proof.
  intros Ht. split.
  - apply py_min_lower; [reflexivity|]. intros Hlt.
    destruct (add_pos_nonneg t 0.1 7205759403792794 (-56) eq_refl Ht) as [Hn|Hok].
    + rewrite ltb_spec, Hn in Hlt. discriminate.
    + exact Hok.
  - apply py_min_upper. reflexivity.
Qed.

(** [max(0.1, trust - 0.05)], the trust of a child born in [run_scenario]. *)
Lemma child_trust_v5_range (p : float) :
  (p <=? 1.0) = true ->
  (0 <=? py_max 0.1 (p - 0.05)) = true /\ (py_max 0.1 (p - 0.05) <=? 1.0) = true.
Proof.
  intros Hp. split.
  - apply (leb_trans 0 0.1); [reflexivity|]. apply py_max_lower. reflexivity.
  - apply py_max_upper; [reflexivity|].
    apply (sub_le_one 0.1 p 0.05 7205759403792794 (-57)).
    + vm_compute. reflexivity.
    + lia.
    + exact Hp.
Qed.

(** [max(0.1, trust * 0.9)], the trust of a child born in [run_simulation]. *)
Lemma child_trust_v7_range (p : float) :
  (p <=? 1.0) = true ->
  (0 <=? py_max 0.1 (p * 0.9)) = true /\ (py_max 0.1 (p * 0.9) <=? 1.0) = true.
Proof.
  intros Hp. split.
  - apply (leb_trans 0 0.1); [reflexivity|]. apply py_max_lower. reflexivity.
  - apply py_max_upper; [reflexivity|].
    apply (mul_le_one 0.1 p 0.9 8106479329266893 (-53)).
    + vm_compute. reflexivity.
    + lia.
    + reflexivity.
    + exact Hp.
Qed.

(** [max(0.1, min(0.8, t))], the trust drawn in [build_declining_civilization]. *)
Lemma clamped_gauss_range (t : float) :
  (0 <=? py_max 0.1 (py_min 0.8 t)) = true /\ (py_max 0.1 (py_min 0.8 t) <=? 1.0) = true.
Proof.
  split.
  - apply (leb_trans 0 0.1); [reflexivity|]. apply py_max_lower. reflexivity.
  - apply py_max_upper; [reflexivity|]. intros _.
    apply (leb_trans _ 0.8); [|reflexivity]. apply py_min_upper. reflexivity.
Qed.

(** A draw of [uniform(a, b)], at bounds the sources use with
    [0.01 <= a] and [b <= 1.0], is a coherence in range. *)
Lemma uniform_coherence {G : Type} `{RngLaws G} (a b : float) (g : G) :
  (0.01 <=? a) = true -> uniform_call a b -> (b <=? 1.0) = true ->
  (0.01 <=? fst (uniform a b g)) = true /\ (fst (uniform a b g) <=? 1.0) = true.
Proof.
  intros Ha Hab Hb. destruct (uniform_range a b g Hab) as [Hlo Hhi]. split.
  - exact (leb_trans _ _ _ Ha Hlo).
  - exact (leb_trans _ _ _ Hhi Hb).
Qed.

(** * Rounding a product in the normal range *)

Local Open Scope Z_scope.

Lemma shr_1_lower mrs :
  0 <= shr_m mrs -> shr_m mrs <= 2 * shr_m (shr_1 mrs) + 1.
Proof.
  destruct mrs as [m r s]. simpl. destruct m as [|[p|p|]|p]; simpl; lia.
Qed.

Lemma iter_shr_1_lower (p : positive) : forall mrs,
  0 <= shr_m mrs ->
  shr_m mrs < (shr_m (SpecFloat.iter_pos shr_1 p mrs) + 1) * 2 ^ Z.pos p.
Proof.
  induction p as [p IH|p IH|]; intros mrs Hm; simpl SpecFloat.iter_pos.
  - destruct (shr_1_halves mrs Hm) as [H0 _]. pose proof (shr_1_lower mrs Hm) as L0.
    destruct (iter_shr_1_bound p _ H0) as [H2 _]. pose proof (IH _ H0) as L1.
    pose proof (IH _ H2) as L2.
    replace (Z.pos p~1) with (Z.pos p + Z.pos p + 1) by lia.
    rewrite !Z.pow_add_r by lia. change (2 ^ 1) with 2.
    assert (0 < 2 ^ Z.pos p) by (apply Z.pow_pos_nonneg; lia).
    nia.
  - destruct (iter_shr_1_bound p _ Hm) as [H2 _]. pose proof (IH _ Hm) as L1.
    pose proof (IH _ H2) as L2.
    replace (Z.pos p~0) with (Z.pos p + Z.pos p) by lia.
    rewrite !Z.pow_add_r by lia.
    assert (0 < 2 ^ Z.pos p) by (apply Z.pow_pos_nonneg; lia).
    nia.
  - pose proof (shr_1_lower mrs Hm). change (2 ^ 1) with 2. lia.
Qed.

(** Rounding a positive mantissa of at least 54 digits in the normal range:
    the result is finite and positive, at the exponent of its binade or one
    above (the carry). *)
Lemma round_aux_normal (m : positive) (e : Z) :
  54 <= Z.pos (digits2_pos m) ->
  -1074 <= Z.pos (digits2_pos m) + e - 53 ->
  Z.pos (digits2_pos m) + e - 52 <= 971 ->
  exists p' e',
    binary_round_aux prec emax false (Z.pos m) e loc_Exact = S754_finite false p' e' /\
    Z.pos (digits2_pos m) + e - 53 <= e' <= Z.pos (digits2_pos m) + e - 52.
Proof.
  intros Hd Hlo Hhi. unfold binary_round_aux.
  unfold shr_fexp at 1. simpl Zdigits2. simpl shr_record_of_loc. unfold shr at 1.
  set (fe := fexp prec emax (Z.pos (digits2_pos m) + e)) in *.
  assert (Hfe : fe = Z.pos (digits2_pos m) + e - 53).
  { unfold fe. rewrite fexp_eq. lia. }
  destruct (fe - e) as [|n|n] eqn:En; try lia.
  set (mrs' := SpecFloat.iter_pos shr_1 n (Build_shr_record (Z.pos m) false false)).
  destruct (iter_shr_1_bound n (Build_shr_record (Z.pos m) false false)) as [Hq0 Hq1];
    [simpl; lia|].
  pose proof (iter_shr_1_lower n (Build_shr_record (Z.pos m) false false)) as Hq2.
  fold mrs' in Hq0, Hq1, Hq2. simpl shr_m in Hq1, Hq2. specialize (Hq2 ltac:(lia)).
  destruct (digits2_bounds m) as [Hm0 Hm1].
  assert (Hn : Z.pos (digits2_pos m) = Z.pos n + 53) by lia.
  assert (P : 0 < 2 ^ Z.pos n) by (apply Z.pow_pos_nonneg; lia).
  assert (Hq : 2 ^ 52 <= shr_m mrs' < 2 ^ 53).
  { rewrite Hn in Hm0, Hm1.
    replace (Z.pos n + 53 - 1) with (Z.pos n + 52) in Hm0 by lia.
    rewrite Z.pow_add_r in Hm0, Hm1 by lia. split; nia. }
  set (m1 := round_nearest_even (shr_m mrs') (loc_of_shr_record mrs')).
  assert (Hm1' : 2 ^ 52 <= m1 <= 2 ^ 53).
  { subst m1.
    destruct (round_nearest_even_step (shr_m mrs') (loc_of_shr_record mrs')) as [->| ->]; lia. }
  replace (e + Z.pos n) with fe by lia.
  destruct m1 as [|p1|p1] eqn:Em1; try lia.
  destruct (Z.eq_dec (Z.pos p1) (2 ^ 53)) as [Hp|Hp].
  - change (2 ^ 53) with 9007199254740992 in Hp. injection Hp as ->.
    unfold shr_fexp, shr. simpl Zdigits2. simpl shr_record_of_loc.
    rewrite fexp_eq.
    replace (Z.max (54 + fe - 53) (-1074) - fe) with 1 by lia.
    simpl SpecFloat.iter_pos. simpl shr_m.
    replace (fe + 1 <=? emax - prec) with true
      by (symmetry; apply Z.leb_le; unfold emax, prec; lia).
    exists 4503599627370496%positive, (fe + 1). split; [reflexivity | lia].
  - assert (Hd1 : Z.pos (digits2_pos p1) <= 53) by (apply digits2_le; lia).
    rewrite shr_fexp_small by (rewrite fexp_eq; lia). simpl shr_m.
    replace (fe <=? emax - prec) with true
      by (symmetry; apply Z.leb_le; unfold emax, prec; lia).
    exists p1, fe. split; [reflexivity | lia].
Qed.

(** A valid finite mantissa above the subnormal exponent has 53 digits. *)
Lemma valid_normal_digits (s : bool) (m : positive) (e : Z) :
  valid_binary (S754_finite s m e) = true -> -1074 < e ->
  Z.pos (digits2_pos m) = 53.
Proof.
  unfold valid_binary, SpecFloat.valid_binary, bounded, canonical_mantissa. intros Hv He.
  apply andb_prop in Hv. destruct Hv as [Hc _]. apply Z.eqb_eq in Hc.
  rewrite fexp_eq in Hc. lia.
Qed.

Lemma SFmul_normal (mx my : positive) (ex ey : Z) :
  valid_binary (S754_finite false mx ex) = true ->
  valid_binary (S754_finite false my ey) = true ->
  -1074 < ex -> -1074 < ey -> -1074 <= ex + ey + 52 -> ex + ey + 54 <= 971 ->
  exists p e,
    SF64mul (S754_finite false mx ex) (S754_finite false my ey) = S754_finite false p e /\
    ex + ey + 52 <= e <= ex + ey + 54.
Proof.
  intros Vx Vy Hx Hy Hlo Hhi.
  pose proof (valid_normal_digits _ _ _ Vx Hx) as Dx.
  pose proof (valid_normal_digits _ _ _ Vy Hy) as Dy.
  destruct (digits2_bounds mx) as [X0 X1]. destruct (digits2_bounds my) as [Y0 Y1].
  rewrite Dx in X0, X1. rewrite Dy in Y0, Y1.
  change (2 ^ (53 - 1)) with (2 ^ 52) in X0, Y0.
  assert (Hp : 2 ^ 104 <= Z.pos (mx * my) < 2 ^ 106).
  { rewrite Pos2Z.inj_mul. change (2 ^ 104) with (2 ^ 52 * 2 ^ 52).
    change (2 ^ 106) with (2 ^ 53 * 2 ^ 53).
    assert (0 < 2 ^ 52) by (apply Z.pow_pos_nonneg; lia).
    assert (0 < 2 ^ 53) by (apply Z.pow_pos_nonneg; lia). split; nia. }
  assert (Hd : 105 <= Z.pos (digits2_pos (mx * my)) <= 106).
  { split; [|apply digits2_le; lia].
    destruct (digits2_bounds (mx * my)) as [_ U].
    destruct (Z.le_gt_cases 105 (Z.pos (digits2_pos (mx * my)))) as [|Hlt]; [assumption|].
    assert (2 ^ Z.pos (digits2_pos (mx * my)) <= 2 ^ 104) by (apply Z.pow_le_mono_r; lia).
    lia. }
  unfold SF64mul, SFmul. simpl xorb.
  destruct (round_aux_normal (mx * my) (ex + ey)) as (p & e & E & B); try lia.
  exists p, e. split; [exact E | lia].
Qed.

Lemma SFleb_by_exponent (ma mb : positive) (ea eb : Z) :
  ea < eb -> SFleb (S754_finite false ma ea) (S754_finite false mb eb) = true.
Proof.
  intros H. unfold SFleb, SFcompare.
  destruct (Z.compare_spec ea eb); [lia | reflexivity | lia].
Qed.

(** A value between two positive finite bounds is positive and finite, with
    its exponent between theirs. *)
Lemma SF_between (x : spec_float) (ma mb : positive) (ea eb : Z) :
  SFleb (S754_finite false ma ea) x = true ->
  SFleb x (S754_finite false mb eb) = true ->
  exists m e, x = S754_finite false m e /\ ea <= e <= eb.
Proof.
  unfold SFleb, SFcompare. intros Ha Hb.
  destruct x as [s|s| |s m e]; try discriminate.
  - destruct s; discriminate.
  - destruct s; [discriminate|]. exists m, e. split; [reflexivity|].
    destruct (Z.compare_spec ea e), (Z.compare_spec e eb); try discriminate; lia.
Qed.

Local Close Scope Z_scope.

(** The product of two floats read with [Prim2SF], both normal and positive. *)
Lemma mul_normal (x y : float) (mx my : positive) (ex ey : Z) :
  Prim2SF x = S754_finite false mx ex -> Prim2SF y = S754_finite false my ey ->
  (-1074 < ex)%Z -> (-1074 < ey)%Z -> (-1074 <= ex + ey + 52)%Z -> (ex + ey + 54 <= 971)%Z ->
  exists p e,
    Prim2SF (x * y) = S754_finite false p e /\ (ex + ey + 52 <= e <= ex + ey + 54)%Z.
Proof.
  intros Ex Ey Hx Hy Hlo Hhi. rewrite mul_spec, Ex, Ey.
  apply SFmul_normal; try assumption.
  - rewrite <- Ex. apply Prim2SF_valid.
  - rewrite <- Ey. apply Prim2SF_valid.
Qed.

(** [trust *= 0.5] on a trust in [0.1, 0.8], as [build_declining_civilization]
    leaves it: no clamp, and still in [0, 1.0]. *)
Lemma halved_trust_range (t : float) :
  (0.1 <=? t) = true -> (t <=? 0.8) = true ->
  (0 <=? t * 0.5) = true /\ (t * 0.5 <=? 1.0) = true.
Proof.
  intros Hlo Hhi. rewrite leb_spec in Hlo, Hhi.
  change (Prim2SF 0.1) with (S754_finite false 7205759403792794 (-56)) in Hlo.
  change (Prim2SF 0.8) with (S754_finite false 7205759403792794 (-53)) in Hhi.
  destruct (SF_between _ _ _ _ _ Hlo Hhi) as (m & e & Et & He).
  destruct (mul_normal t 0.5 m 4503599627370496 e (-53) Et eq_refl) as (p & e' & Ep & He');
    try lia.
  split.
  - rewrite leb_spec, Ep. reflexivity.
  - assert (A : at_most_one (Prim2SF (t * 0.5))).
    { rewrite mul_spec. change (Prim2SF 0.5) with (S754_finite false 4503599627370496 (-53)).
      apply SFmul_at_most_one.
      - apply Prim2SF_valid.
      - lia.
      - reflexivity.
      - rewrite Et. apply SFleb_by_exponent. lia. }
    destruct A as [A|A]; [rewrite Ep in A; discriminate|]. rewrite leb_spec. exact A.
Qed.

(** [s_star *= 0.7] on a coherence in [0.3, 0.7], as [create_human] draws it:
    no clamp, and still in [0.01, 1.0]. *)
Lemma scaled_coherence_range (s : float) :
  (0.3 <=? s) = true -> (s <=? 0.7) = true ->
  (0.01 <=? s * 0.7) = true /\ (s * 0.7 <=? 1.0) = true.
Proof.
  intros Hlo Hhi. rewrite leb_spec in Hlo, Hhi.
  change (Prim2SF 0.3) with (S754_finite false 5404319552844595 (-54)) in Hlo.
  change (Prim2SF 0.7) with (S754_finite false 6305039478318694 (-53)) in Hhi.
  destruct (SF_between _ _ _ _ _ Hlo Hhi) as (m & e & Es & He).
  destruct (mul_normal s 0.7 m 6305039478318694 e (-53) Es eq_refl) as (p & e' & Ep & He');
    try lia.
  split.
  - rewrite leb_spec, Ep.
    change (Prim2SF 0.01) with (S754_finite false 5764607523034235 (-59)).
    apply SFleb_by_exponent. lia.
  - assert (A : at_most_one (Prim2SF (s * 0.7))).
    { rewrite mul_spec. change (Prim2SF 0.7) with (S754_finite false 6305039478318694 (-53)).
      apply SFmul_at_most_one.
      - apply Prim2SF_valid.
      - lia.
      - reflexivity.
      - rewrite Es. apply SFleb_by_exponent. lia. }
    destruct A as [A|A]; [rewrite Ep in A; discriminate|]. rewrite leb_spec. exact A.
Qed.

(** [max(0.1, min(0.8, t))] lies in [0.1, 0.8], whatever [t] is. *)
Lemma clamped_gauss_bounds (t : float) :
  (0.1 <=? py_max 0.1 (py_min 0.8 t)) = true /\ (py_max 0.1 (py_min 0.8 t) <=? 0.8) = true.
Proof.
  split.
  - apply py_max_lower. reflexivity.
  - apply py_max_upper; [reflexivity|]. intros _. apply py_min_upper. reflexivity.
Qed.

(** * Facts about tig_civilization_v5.py *)

Section V5Facts.
Context {G : Type} `{Rng G}.
Import V5.

(** An interaction is [settle] at the actions and the penalty that were drawn. *)
Lemma v5_interact_settle (w1 w2 : Whole) (noise scarcity polarization : float) (g : G) :
  exists a1 a2 pen,
    fst (interact w1 w2 noise scarcity polarization g) =
    settle (attach_recent w1) (attach_recent w2) a1 a2 scarcity pen.
Proof.
  unfold interact, bind.
  destruct (decide _ _ _ g) as [a1 g1].
  destruct (decide _ _ _ g1) as [a2 g2].
  destruct (draw_penalty _ _ _ g2) as [pen g3].
  exists a1, a2, pen. reflexivity.
Qed.

Lemma v5_attach_recent_frame (w : Whole) :
  s_star (attach_recent w) = s_star w /\
  trust_in_institutions (attach_recent w) = trust_in_institutions w /\
  is_ai (attach_recent w) = is_ai w /\
  ai_type (attach_recent w) = ai_type w /\
  corrupted (attach_recent w) = corrupted w /\
  isolated (attach_recent w) = isolated w /\
  scars (attach_recent w) = scars w /\
  taught_by_ai (attach_recent w) = taught_by_ai w /\
  interactions (attach_recent w) = interactions w /\
  cooperations (attach_recent w) = cooperations w /\
  defections (attach_recent w) = defections w.
Proof.
  unfold attach_recent. destruct (_recent_defections w); cbn; repeat split.
Qed.

Ltac v5_settle_cases a1 a2 :=
  unfold settle, resolved, teach, receive_teaching;
  destruct a1, a2; cbn -[append_capped clamp_coherence py_min];
  repeat match goal with |- context [if ?c then _ else _] => destruct c end;
  cbn -[append_capped clamp_coherence py_min].

(** The counters after one interaction: one more interaction for each side,
    and one more cooperation or defection according to the side's action. *)
Lemma v5_settle_counters (w1 w2 : Whole) (a1 a2 : Strategy) (scarcity pen : float) :
  let r := settle w1 w2 a1 a2 scarcity pen in
  (interactions (fst r) = interactions w1 + 1 /\
   interactions (snd r) = interactions w2 + 1 /\
   cooperations (fst r) = cooperations w1 + (if Strategy_eqb a1 cooperate then 1 else 0) /\
   defections (fst r) = defections w1 + (if Strategy_eqb a1 cooperate then 0 else 1) /\
   cooperations (snd r) = cooperations w2 + (if Strategy_eqb a2 cooperate then 1 else 0) /\
   defections (snd r) = defections w2 + (if Strategy_eqb a2 cooperate then 0 else 1))%Z.
Proof.
  v5_settle_cases a1 a2; repeat split; lia.
Qed.

(** What an interaction never touches. *)
Lemma v5_settle_frame (w1 w2 : Whole) (a1 a2 : Strategy) (scarcity pen : float) :
  let r := settle w1 w2 a1 a2 scarcity pen in
  (is_ai (fst r) = is_ai w1 /\ corrupted (fst r) = corrupted w1 /\
   ai_type (fst r) = ai_type w1 /\ id (fst r) = id w1) /\
  (is_ai (snd r) = is_ai w2 /\ corrupted (snd r) = corrupted w2 /\
   ai_type (snd r) = ai_type w2 /\ id (snd r) = id w2).
Proof.
  v5_settle_cases a1 a2; repeat split.
Qed.

(** Coherence after an interaction is the clamped sum with the side's delta. *)
Lemma v5_settle_s_star (w1 w2 : Whole) (a1 a2 : Strategy) (scarcity pen : float) :
  let r := settle w1 w2 a1 a2 scarcity pen in
  s_star (fst r) = clamp_coherence (s_star w1) (d1 (payoff w1 w2 a1 a2 scarcity pen)) /\
  s_star (snd r) = clamp_coherence (s_star w2) (d2 (payoff w1 w2 a1 a2 scarcity pen)).
Proof.
  v5_settle_cases a1 a2; split; reflexivity.
Qed.

(** Trust after an interaction: unchanged, or raised by teaching. *)
Lemma v5_settle_trust (w1 w2 : Whole) (a1 a2 : Strategy) (scarcity pen : float) :
  let r := settle w1 w2 a1 a2 scarcity pen in
  (trust_in_institutions (fst r) = trust_in_institutions w1 \/
   trust_in_institutions (fst r) = py_min 1.0 (trust_in_institutions w1 + 0.1)) /\
  (trust_in_institutions (snd r) = trust_in_institutions w2 \/
   trust_in_institutions (snd r) = py_min 1.0 (trust_in_institutions w2 + 0.1)).
Proof.
  v5_settle_cases a1 a2; split; auto.
Qed.

Lemma v5_settle_in_range (w1 w2 : Whole) (a1 a2 : Strategy) (scarcity pen : float) :
  in_range w1 -> in_range w2 ->
  in_range (fst (settle w1 w2 a1 a2 scarcity pen)) /\
  in_range (snd (settle w1 w2 a1 a2 scarcity pen)).
Proof.
  intros (_ & _ & Ht1 & Hu1) (_ & _ & Ht2 & Hu2).
  destruct (v5_settle_s_star w1 w2 a1 a2 scarcity pen) as [Hs1 Hs2].
  destruct (v5_settle_trust w1 w2 a1 a2 scarcity pen) as [Hr1 Hr2].
  unfold in_range. rewrite Hs1, Hs2.
  destruct (clamp_coherence_range (s_star w1) (d1 (payoff w1 w2 a1 a2 scarcity pen))).
  destruct (clamp_coherence_range (s_star w2) (d2 (payoff w1 w2 a1 a2 scarcity pen))).
  destruct (raised_trust_range _ Ht1), (raised_trust_range _ Ht2).
  split; (split; [assumption|split; [assumption|]]).
  - destruct Hr1 as [-> | ->]; auto.
  - destruct Hr2 as [-> | ->]; auto.
Qed.

Lemma v5_attach_in_range (w : Whole) : in_range w -> in_range (attach_recent w).
Proof.
  unfold in_range. destruct (v5_attach_recent_frame w) as (-> & -> & _). auto.
Qed.

Lemma v5_interact_in_range (w1 w2 : Whole) (noise scarcity polarization : float) (g : G) :
  in_range w1 -> in_range w2 ->
  in_range (fst (fst (interact w1 w2 noise scarcity polarization g))) /\
  in_range (snd (fst (interact w1 w2 noise scarcity polarization g))).
Proof.
  intros H1 H2.
  destruct (v5_interact_settle w1 w2 noise scarcity polarization g) as (a1 & a2 & pen & ->).
  apply v5_settle_in_range; now apply v5_attach_in_range.
Qed.

Lemma v5_interact_counters (w1 w2 : Whole) (noise scarcity polarization : float) (g : G) :
  let r := fst (interact w1 w2 noise scarcity polarization g) in
  (interactions (fst r) = interactions w1 + 1 /\
   cooperations (fst r) + defections (fst r) = cooperations w1 + defections w1 + 1 /\
   cooperations w1 <= cooperations (fst r) /\ defections w1 <= defections (fst r) /\
   interactions (snd r) = interactions w2 + 1 /\
   cooperations (snd r) + defections (snd r) = cooperations w2 + defections w2 + 1 /\
   cooperations w2 <= cooperations (snd r) /\ defections w2 <= defections (snd r))%Z.
Proof.
  destruct (v5_interact_settle w1 w2 noise scarcity polarization g) as (a1 & a2 & pen & E).
  cbv zeta. rewrite E.
  pose proof (v5_settle_counters (attach_recent w1) (attach_recent w2) a1 a2 scarcity pen) as C.
  cbv zeta in C.
  destruct (v5_attach_recent_frame w1) as (_ & _ & _ & _ & _ & _ & _ & _ & I1 & C1 & D1).
  destruct (v5_attach_recent_frame w2) as (_ & _ & _ & _ & _ & _ & _ & _ & I2 & C2 & D2).
  rewrite I1, C1, D1, I2, C2, D2 in C.
  destruct a1, a2; cbn [Strategy_eqb] in C; lia.
Qed.

Lemma v5_interact_frame (w1 w2 : Whole) (noise scarcity polarization : float) (g : G) :
  let r := fst (interact w1 w2 noise scarcity polarization g) in
  (is_ai (fst r) = is_ai w1 /\ corrupted (fst r) = corrupted w1 /\
   ai_type (fst r) = ai_type w1 /\ id (fst r) = id w1) /\
  (is_ai (snd r) = is_ai w2 /\ corrupted (snd r) = corrupted w2 /\
   ai_type (snd r) = ai_type w2 /\ id (snd r) = id w2).
Proof.
  destruct (v5_interact_settle w1 w2 noise scarcity polarization g) as (a1 & a2 & pen & E).
  cbv zeta. rewrite E.
  pose proof (v5_settle_frame (attach_recent w1) (attach_recent w2) a1 a2 scarcity pen) as F.
  cbv zeta in F.
  destruct (v5_attach_recent_frame w1) as (_ & _ & A1 & T1 & K1 & _).
  destruct (v5_attach_recent_frame w2) as (_ & _ & A2 & T2 & K2 & _).
  rewrite A1, T1, K1, A2, T2, K2 in F.
  assert (Hid : forall w, id (attach_recent w) = id w).
  { intros w. unfold attach_recent. destruct (_recent_defections w); reflexivity. }
  rewrite !Hid in F. exact F.
Qed.

(** The builders and the birth loop hand out fresh humans. *)
Ltac v5_fresh g :=
  unfold child_gen1, child_gen2, child_gen3, child_gen4, birth, maybe_isolate,
    create_human, bind, ret;
  let E := fresh "E" in
  destruct (uniform 0.3 0.7 g) as [? ?] eqn:E;
  repeat match goal with
  | |- context [let (_, _) := ?e in _] => destruct e
  | |- context [if ?c then _ else _] => destruct c
  end;
  cbn; unfold fresh_human; cbn; repeat split; trivial;
  exists g; rewrite E; reflexivity.

Lemma v5_child_gen1_fresh (parent : Whole) (next_id : Z) (g : G) :
  fresh_human 0.6 (fst (child_gen1 parent next_id g)).
Proof. v5_fresh g. Qed.

Lemma v5_child_gen2_fresh (parent : Whole) (next_id : Z) (g : G) :
  fresh_human 0.5 (fst (child_gen2 parent next_id g)).
Proof. v5_fresh g. Qed.

Lemma v5_child_gen3_fresh (parent : Whole) (next_id : Z) (g : G) :
  fresh_human 0.35 (fst (child_gen3 parent next_id g)).
Proof. v5_fresh g. Qed.

Lemma v5_child_gen4_fresh (parent : Whole) (next_id : Z) (g : G) :
  fresh_human 0.25 (fst (child_gen4 parent next_id g)).
Proof. v5_fresh g. Qed.

Lemma v5_birth_fresh (parent : Whole) (next_id gen : Z) (isolated_pct : float) (g : G) :
  fresh_human (py_max 0.1 (trust_in_institutions parent - 0.05))
    (fst (birth parent next_id gen isolated_pct g)).
Proof. v5_fresh g. Qed.

Lemma v5_fresh_balanced (t : float) (w : Whole) : fresh_human t w -> balanced w.
Proof. intros (_ & _ & _ & _ & I & C & D). unfold balanced. lia. Qed.

Lemma v5_fresh_clean (t : float) (w : Whole) : fresh_human t w -> ai_clean w.
Proof. intros (_ & _ & _ & K & _) _. exact K. Qed.

Lemma v5_fresh_in_range `{!RngLaws G} (t : float) (w : Whole) :
  (0 <=? t) = true -> (t <=? 1.0) = true -> fresh_human t w -> in_range w.
Proof.
  intros Ht0 Ht1 ((g & Hs) & Ht & _). unfold in_range. rewrite Hs, Ht.
  destruct (uniform_coherence 0.3 0.7 g) as [Hlo Hhi];
    [reflexivity | left; reflexivity | reflexivity |]. auto.
Qed.

Lemma v5_create_ai_facts (next_id : Z) (t : string) :
  balanced (create_ai next_id t) /\ in_range (create_ai next_id t) /\
  corrupted (create_ai next_id t) = false /\ is_ai (create_ai next_id t) = true /\
  ai_type (create_ai next_id t) = t.
Proof.
  unfold create_ai, balanced, in_range.
  destruct (String.eqb t "coherent" || String.eqb t "bridge")%bool; cbn;
    repeat split; reflexivity.
Qed.

(** ** The invariants of a run *)

Lemma v5_reachable_balanced (w : Whole) : reachable w -> balanced w.
Proof.
  induction 1 as [ | w _ IH | p i g _ _ | p i g _ _ | p i g _ _ | p i g _ _
                 | w _ IH _ | i t | p i gen pct g _ _ _
                 | w1 w2 n s p g _ IH1 _ IH2 | w1 w2 n s p g _ IH1 _ IH2 ].
  - reflexivity.
  - exact IH.
  - exact (v5_fresh_balanced _ _ (v5_child_gen1_fresh p i g)).
  - exact (v5_fresh_balanced _ _ (v5_child_gen2_fresh p i g)).
  - exact (v5_fresh_balanced _ _ (v5_child_gen3_fresh p i g)).
  - exact (v5_fresh_balanced _ _ (v5_child_gen4_fresh p i g)).
  - exact IH.
  - apply v5_create_ai_facts.
  - exact (v5_fresh_balanced _ _ (v5_birth_fresh p i gen pct g)).
  - pose proof (v5_interact_counters w1 w2 n s p g) as C. cbv zeta in C.
    unfold balanced in *. lia.
  - pose proof (v5_interact_counters w1 w2 n s p g) as C. cbv zeta in C.
    unfold balanced in *. lia.
Qed.

Lemma v5_reachable_clean (w : Whole) : reachable w -> ai_clean w.
Proof.
  induction 1 as [ | w _ IH | p i g _ _ | p i g _ _ | p i g _ _ | p i g _ _
                 | w _ IH Hh | i t | p i gen pct g _ _ _
                 | w1 w2 n s p g _ IH1 _ IH2 | w1 w2 n s p g _ IH1 _ IH2 ].
  - intros _. reflexivity.
  - exact IH.
  - exact (v5_fresh_clean _ _ (v5_child_gen1_fresh p i g)).
  - exact (v5_fresh_clean _ _ (v5_child_gen2_fresh p i g)).
  - exact (v5_fresh_clean _ _ (v5_child_gen3_fresh p i g)).
  - exact (v5_fresh_clean _ _ (v5_child_gen4_fresh p i g)).
  - intros Hai. cbn in Hai. congruence.
  - intros _. apply v5_create_ai_facts.
  - exact (v5_fresh_clean _ _ (v5_birth_fresh p i gen pct g)).
  - destruct (v5_interact_frame w1 w2 n s p g) as [(A & K & _) _].
    unfold ai_clean in *. rewrite A, K. exact IH1.
  - destruct (v5_interact_frame w1 w2 n s p g) as [_ (A & K & _)].
    unfold ai_clean in *. rewrite A, K. exact IH2.
Qed.

Lemma v5_reachable_in_range `{!RngLaws G} (w : Whole) : reachable w -> in_range w.
Proof.
  induction 1 as [ | w _ IH | p i g _ _ | p i g _ _ | p i g _ _ | p i g _ _
                 | w _ IH _ | i t | p i gen pct g _ IH _
                 | w1 w2 n s p g _ IH1 _ IH2 | w1 w2 n s p g _ IH1 _ IH2 ].
  - repeat split.
  - exact IH.
  - apply (v5_fresh_in_range 0.6); [reflexivity | reflexivity | apply v5_child_gen1_fresh].
  - apply (v5_fresh_in_range 0.5); [reflexivity | reflexivity | apply v5_child_gen2_fresh].
  - apply (v5_fresh_in_range 0.35); [reflexivity | reflexivity | apply v5_child_gen3_fresh].
  - apply (v5_fresh_in_range 0.25); [reflexivity | reflexivity | apply v5_child_gen4_fresh].
  - exact IH.
  - apply v5_create_ai_facts.
  - destruct IH as (_ & _ & _ & Hu). destruct (child_trust_v5_range _ Hu).
    eapply v5_fresh_in_range; [ | | apply v5_birth_fresh]; assumption.
  - now apply v5_interact_in_range.
  - now apply v5_interact_in_range.
Qed.

End V5Facts.

(** * Facts about tig_civilization_v7.py *)

Section V7Facts.
Context {G : Type} `{Rng G}.
Import V7.

(** An interaction is [settle] at the actions and the penalty that were drawn. *)
Lemma v7_interact_settle (w1 w2 : Whole) (noise scarcity polarization : float) (g : G) :
  exists a1 a2 pen g',
    fst (interact w1 w2 noise scarcity polarization g) =
    fst (settle (attach_recent w1) (attach_recent w2) a1 a2 scarcity pen g').
Proof.
  unfold interact, bind.
  destruct (decide _ _ _ g) as [a1 g1].
  destruct (decide _ _ _ g1) as [a2 g2].
  destruct (draw_penalty _ _ _ g2) as [pen g3].
  exists a1, a2, pen, g3. reflexivity.
Qed.

Lemma v7_attach_recent_frame (w : Whole) :
  s_star (attach_recent w) = s_star w /\
  trust_in_institutions (attach_recent w) = trust_in_institutions w /\
  is_ai (attach_recent w) = is_ai w /\
  ai_type (attach_recent w) = ai_type w /\
  corrupted (attach_recent w) = corrupted w /\
  awakened (attach_recent w) = awakened w /\
  taught_by (attach_recent w) = taught_by w /\
  scars (attach_recent w) = scars w /\
  id (attach_recent w) = id w /\
  interactions (attach_recent w) = interactions w /\
  cooperations (attach_recent w) = cooperations w /\
  defections (attach_recent w) = defections w.
Proof.
  unfold attach_recent. destruct (_recent_defections w); cbn; repeat split.
Qed.

(** [receive_teaching] either returns the student unchanged (the teacher does
    not qualify) or leaves it taught. *)
Lemma v7_receive_teaching_spec (self teacher : Whole) (g : G) :
  (can_teach teacher = false /\ fst (receive_teaching self teacher g) = self) \/
  (can_teach teacher = true /\
   exists wakes, fst (receive_teaching self teacher g) = after_teaching self (id teacher) wakes).
Proof.
  unfold receive_teaching, bind, ret.
  destruct (can_teach teacher); cbn [negb].
  - right. split; [reflexivity|]. destruct (random g) as [r g'].
    exists (r <? 0.05)%float. unfold after_teaching. destruct (r <? 0.05)%float; reflexivity.
  - left. split; reflexivity.
Qed.

(** The teaching step, read off its result: each side is either untouched or
    was an untaught human facing a qualified teacher after mutual cooperation. *)
Lemma v7_teach_spec (a1 a2 : Strategy) (w1 w2 : Whole) (g : G) :
  let r := fst (teach a1 a2 w1 w2 g) in
  (snd r = w2 \/
   (a1 = cooperate /\ a2 = cooperate /\ can_teach w1 = true /\ is_ai w2 = false /\
    taught_by w2 = None /\ exists wakes, snd r = after_teaching w2 (id w1) wakes)) /\
  (fst r = w1 \/
   (a1 = cooperate /\ a2 = cooperate /\ can_teach (snd r) = true /\ is_ai w1 = false /\
    taught_by w1 = None /\ exists wakes, fst r = after_teaching w1 (id (snd r)) wakes)).
Proof.
  unfold teach.
  destruct a1, a2; try (cbn; split; left; reflexivity).
  unfold bind, ret.
  destruct (can_teach w1 && negb (is_ai w2) && negb (was_taught w2))%bool eqn:C1.
  - apply andb_prop in C1. destruct C1 as [C1 T2]. apply andb_prop in C1.
    destruct C1 as [C1 A2]. apply negb_true_iff in A2, T2.
    assert (Hn2 : taught_by w2 = None).
    { unfold was_taught in T2. destruct (taught_by w2); [discriminate | reflexivity]. }
    destruct (v7_receive_teaching_spec w2 w1 g) as [[Hc _]|[_ [wk Hw]]]; [congruence|].
    destruct (receive_teaching w2 w1 g) as [w2' g1]. cbn [fst] in Hw. subst w2'.
    destruct (can_teach (after_teaching w2 (id w1) wk) && negb (is_ai w1) && negb (was_taught w1))%bool eqn:C2.
    + apply andb_prop in C2. destruct C2 as [C2 T1]. apply andb_prop in C2.
      destruct C2 as [C2 A1]. apply negb_true_iff in A1, T1.
      assert (Hn1 : taught_by w1 = None).
      { unfold was_taught in T1. destruct (taught_by w1); [discriminate | reflexivity]. }
      destruct (v7_receive_teaching_spec w1 (after_teaching w2 (id w1) wk) g1)
        as [[Hc _]|[_ [wk' Hw']]]; [congruence|].
      destruct (receive_teaching w1 _ g1) as [w1' g2]. cbn [fst snd] in *. subst w1'.
      split; right; repeat split; eauto.
    + cbn [fst snd]. split; [right | left]; repeat split; eauto.
  - cbn [fst snd].
    destruct (can_teach w2 && negb (is_ai w1) && negb (was_taught w1))%bool eqn:C2.
    + apply andb_prop in C2. destruct C2 as [C2 T1]. apply andb_prop in C2.
      destruct C2 as [C2 A1]. apply negb_true_iff in A1, T1.
      assert (Hn1 : taught_by w1 = None).
      { unfold was_taught in T1. destruct (taught_by w1); [discriminate | reflexivity]. }
      destruct (v7_receive_teaching_spec w1 w2 g) as [[Hc _]|[_ [wk' Hw']]]; [congruence|].
      destruct (receive_teaching w1 w2 g) as [w1' g2]. cbn [fst snd] in *. subst w1'.
      split; [left | right]; repeat split; eauto.
    + cbn [fst snd]. split; left; reflexivity.
Qed.

(** What being taught changes: scars, the teacher's id, trust, perhaps
    awakening; nothing else. *)
Lemma v7_after_teaching_frame (w : Whole) (tid : Z) (wakes : bool) :
  let w' := after_teaching w tid wakes in
  s_star w' = s_star w /\
  trust_in_institutions w' = py_min 1.0 (trust_in_institutions w + 0.1) /\
  is_ai w' = is_ai w /\ ai_type w' = ai_type w /\ corrupted w' = corrupted w /\
  id w' = id w /\ taught_by w' = Some tid /\
  scars w' = scars w ++ [taught_scar] /\
  interactions w' = interactions w /\ cooperations w' = cooperations w /\
  defections w' = defections w.
Proof.
  unfold after_teaching. destruct wakes; cbn -[py_min]; repeat split.
Qed.

(** The part of an interaction before teaching: counters, coherence, scars. *)
Lemma v7_resolved_frame (w1 w2 : Whole) (a1 a2 : Strategy) (scarcity pen : float) :
  let r := resolved w1 w2 a1 a2 scarcity pen in
  (trust_in_institutions (fst r) = trust_in_institutions w1 /\
   is_ai (fst r) = is_ai w1 /\ ai_type (fst r) = ai_type w1 /\
   corrupted (fst r) = corrupted w1 /\ awakened (fst r) = awakened w1 /\
   taught_by (fst r) = taught_by w1 /\ id (fst r) = id w1) /\
  (trust_in_institutions (snd r) = trust_in_institutions w2 /\
   is_ai (snd r) = is_ai w2 /\ ai_type (snd r) = ai_type w2 /\
   corrupted (snd r) = corrupted w2 /\ awakened (snd r) = awakened w2 /\
   taught_by (snd r) = taught_by w2 /\ id (snd r) = id w2).
Proof.
  unfold resolved. destruct a1, a2; cbn -[append_capped clamp_coherence]; repeat split.
Qed.

Lemma v7_resolved_s_star (w1 w2 : Whole) (a1 a2 : Strategy) (scarcity pen : float) :
  let r := resolved w1 w2 a1 a2 scarcity pen in
  s_star (fst r) = clamp_coherence (s_star w1) (d1 (payoff w1 w2 a1 a2 scarcity pen)) /\
  s_star (snd r) = clamp_coherence (s_star w2) (d2 (payoff w1 w2 a1 a2 scarcity pen)).
Proof.
  unfold resolved. destruct a1, a2; cbn -[append_capped clamp_coherence]; split; reflexivity.
Qed.

Lemma v7_resolved_counters (w1 w2 : Whole) (a1 a2 : Strategy) (scarcity pen : float) :
  let r := resolved w1 w2 a1 a2 scarcity pen in
  (interactions (fst r) = interactions w1 + 1 /\
   interactions (snd r) = interactions w2 + 1 /\
   cooperations (fst r) = cooperations w1 + (if Strategy_eqb a1 cooperate then 1 else 0) /\
   defections (fst r) = defections w1 + (if Strategy_eqb a1 cooperate then 0 else 1) /\
   cooperations (snd r) = cooperations w2 + (if Strategy_eqb a2 cooperate then 1 else 0) /\
   defections (snd r) = defections w2 + (if Strategy_eqb a2 cooperate then 0 else 1))%Z.
Proof.
  unfold resolved. destruct a1, a2; cbn -[append_capped clamp_coherence]; repeat split; lia.
Qed.

(** Each side of a settled interaction is the resolved state, or that state
    taught: then the side is a human that was still untaught, both cooperated
    and the other side qualified as a teacher. *)
Lemma v7_settle_sides (w1 w2 : Whole) (a1 a2 : Strategy) (scarcity pen : float) (g : G) :
  let r := fst (settle w1 w2 a1 a2 scarcity pen g) in
  let res := resolved w1 w2 a1 a2 scarcity pen in
  (fst r = fst res \/
   (a1 = cooperate /\ a2 = cooperate /\ can_teach (snd r) = true /\ is_ai w1 = false /\
    taught_by w1 = None /\ exists wakes, fst r = after_teaching (fst res) (id w2) wakes)) /\
  (snd r = snd res \/
   (a1 = cooperate /\ a2 = cooperate /\ can_teach (fst res) = true /\ is_ai w2 = false /\
    taught_by w2 = None /\ exists wakes, snd r = after_teaching (snd res) (id w1) wakes)).
Proof.
  cbv zeta. unfold settle.
  pose proof (v7_teach_spec a1 a2 (fst (resolved w1 w2 a1 a2 scarcity pen))
                (snd (resolved w1 w2 a1 a2 scarcity pen)) g) as T. cbv zeta in T.
  destruct (v7_resolved_frame w1 w2 a1 a2 scarcity pen)
    as [(_ & A1 & _ & _ & _ & T1 & I1) (_ & A2 & _ & _ & _ & T2 & I2)].
  destruct T as [Ts Tf]. split.
  - destruct Tf as [Tf|(-> & -> & C & A & N & wk & E)]; [left; exact Tf|].
    right. rewrite A1 in A. rewrite T1 in N. repeat split; auto.
    exists wk. rewrite E. f_equal.
    destruct Ts as [->|(_ & _ & _ & _ & _ & wk' & ->)]; [exact I2|].
    destruct (v7_after_teaching_frame (snd (resolved w1 w2 cooperate cooperate scarcity pen)) (id (fst (resolved w1 w2 cooperate cooperate scarcity pen))) wk')
      as (_ & _ & _ & _ & _ & -> & _). exact I2.
  - destruct Ts as [Ts|(-> & -> & C & A & N & wk & E)]; [left; exact Ts|].
    right. rewrite A2 in A. rewrite T2 in N. repeat split; auto.
    exists wk. rewrite E, I1. reflexivity.
Qed.

Lemma v7_interact_counters (w1 w2 : Whole) (noise scarcity polarization : float) (g : G) :
  let r := fst (interact w1 w2 noise scarcity polarization g) in
  (interactions (fst r) = interactions w1 + 1 /\
   cooperations (fst r) + defections (fst r) = cooperations w1 + defections w1 + 1 /\
   cooperations w1 <= cooperations (fst r) /\ defections w1 <= defections (fst r) /\
   interactions (snd r) = interactions w2 + 1 /\
   cooperations (snd r) + defections (snd r) = cooperations w2 + defections w2 + 1 /\
   cooperations w2 <= cooperations (snd r) /\ defections w2 <= defections (snd r))%Z.
Proof.
  destruct (v7_interact_settle w1 w2 noise scarcity polarization g) as (a1 & a2 & pen & g' & E).
  cbv zeta. rewrite E.
  pose proof (v7_settle_sides (attach_recent w1) (attach_recent w2) a1 a2 scarcity pen g') as S.
  pose proof (v7_resolved_counters (attach_recent w1) (attach_recent w2) a1 a2 scarcity pen) as C.
  cbv zeta in S, C.
  destruct (v7_attach_recent_frame w1) as (_ & _ & _ & _ & _ & _ & _ & _ & _ & I1 & C1 & D1).
  destruct (v7_attach_recent_frame w2) as (_ & _ & _ & _ & _ & _ & _ & _ & _ & I2 & C2 & D2).
  rewrite I1, C1, D1, I2, C2, D2 in C.
  destruct S as [S1 S2].
  assert (F1 : interactions (fst (fst (settle (attach_recent w1) (attach_recent w2) a1 a2 scarcity pen g')))
               = interactions (fst (resolved (attach_recent w1) (attach_recent w2) a1 a2 scarcity pen)) /\
               cooperations (fst (fst (settle (attach_recent w1) (attach_recent w2) a1 a2 scarcity pen g')))
               = cooperations (fst (resolved (attach_recent w1) (attach_recent w2) a1 a2 scarcity pen)) /\
               defections (fst (fst (settle (attach_recent w1) (attach_recent w2) a1 a2 scarcity pen g')))
               = defections (fst (resolved (attach_recent w1) (attach_recent w2) a1 a2 scarcity pen))).
  { destruct S1 as [->|(_ & _ & _ & _ & _ & wk & ->)]; [auto|].
    destruct (v7_after_teaching_frame (fst (resolved (attach_recent w1) (attach_recent w2) a1 a2 scarcity pen)) (id (attach_recent w2)) wk)
      as (_ & _ & _ & _ & _ & _ & _ & _ & -> & -> & ->). auto. }
  assert (F2 : interactions (snd (fst (settle (attach_recent w1) (attach_recent w2) a1 a2 scarcity pen g')))
               = interactions (snd (resolved (attach_recent w1) (attach_recent w2) a1 a2 scarcity pen)) /\
               cooperations (snd (fst (settle (attach_recent w1) (attach_recent w2) a1 a2 scarcity pen g')))
               = cooperations (snd (resolved (attach_recent w1) (attach_recent w2) a1 a2 scarcity pen)) /\
               defections (snd (fst (settle (attach_recent w1) (attach_recent w2) a1 a2 scarcity pen g')))
               = defections (snd (resolved (attach_recent w1) (attach_recent w2) a1 a2 scarcity pen))).
  { destruct S2 as [->|(_ & _ & _ & _ & _ & wk & ->)]; [auto|].
    destruct (v7_after_teaching_frame (snd (resolved (attach_recent w1) (attach_recent w2) a1 a2 scarcity pen)) (id (attach_recent w1)) wk)
      as (_ & _ & _ & _ & _ & _ & _ & _ & -> & -> & ->). auto. }
  destruct F1 as (-> & -> & ->), F2 as (-> & -> & ->).
  destruct a1, a2; cbn [Strategy_eqb] in C; lia.
Qed.

Lemma v7_attach_in_range (w : Whole) : in_range w -> in_range (attach_recent w).
Proof.
  unfold in_range. destruct (v7_attach_recent_frame w) as (-> & -> & _). auto.
Qed.

Lemma v7_interact_in_range (w1 w2 : Whole) (noise scarcity polarization : float) (g : G) :
  in_range w1 -> in_range w2 ->
  in_range (fst (fst (interact w1 w2 noise scarcity polarization g))) /\
  in_range (snd (fst (interact w1 w2 noise scarcity polarization g))).
Proof.
  intros H1 H2. apply v7_attach_in_range in H1, H2.
  destruct (v7_interact_settle w1 w2 noise scarcity polarization g) as (a1 & a2 & pen & g' & ->).
  revert H1 H2. generalize (attach_recent w1) (attach_recent w2). clear w1 w2.
  intros w1 w2 (_ & _ & Ht1 & Hu1) (_ & _ & Ht2 & Hu2).
  destruct (v7_settle_sides w1 w2 a1 a2 scarcity pen g') as [S1 S2].
  destruct (v7_resolved_s_star w1 w2 a1 a2 scarcity pen) as [E1 E2].
  destruct (v7_resolved_frame w1 w2 a1 a2 scarcity pen) as [(R1 & _) (R2 & _)].
  destruct (clamp_coherence_range (s_star w1) (d1 (payoff w1 w2 a1 a2 scarcity pen))).
  destruct (clamp_coherence_range (s_star w2) (d2 (payoff w1 w2 a1 a2 scarcity pen))).
  destruct (raised_trust_range _ Ht1), (raised_trust_range _ Ht2).
  unfold in_range. split.
  - destruct S1 as [->|(_ & _ & _ & _ & _ & wk & ->)].
    + rewrite E1, R1. auto.
    + destruct (v7_after_teaching_frame (fst (resolved w1 w2 a1 a2 scarcity pen)) (id w2) wk)
        as (-> & -> & _). rewrite E1, R1. auto.
  - destruct S2 as [->|(_ & _ & _ & _ & _ & wk & ->)].
    + rewrite E2, R2. auto.
    + destruct (v7_after_teaching_frame (snd (resolved w1 w2 a1 a2 scarcity pen)) (id w1) wk)
        as (-> & -> & _). rewrite E2, R2. auto.
Qed.

Lemma v7_interact_clean (w1 w2 : Whole) (noise scarcity polarization : float) (g : G) :
  ai_clean w1 -> ai_clean w2 ->
  ai_clean (fst (fst (interact w1 w2 noise scarcity polarization g))) /\
  ai_clean (snd (fst (interact w1 w2 noise scarcity polarization g))).
Proof.
  intros H1 H2.
  destruct (v7_interact_settle w1 w2 noise scarcity polarization g) as (a1 & a2 & pen & g' & ->).
  destruct (v7_attach_recent_frame w1) as (_ & _ & A1 & _ & K1 & W1 & T1 & _).
  destruct (v7_attach_recent_frame w2) as (_ & _ & A2 & _ & K2 & W2 & T2 & _).
  assert (H1' : ai_clean (attach_recent w1)) by (unfold ai_clean; rewrite A1, K1, W1, T1; exact H1).
  assert (H2' : ai_clean (attach_recent w2)) by (unfold ai_clean; rewrite A2, K2, W2, T2; exact H2).
  revert H1' H2'. generalize (attach_recent w1) (attach_recent w2).
  clear. intros w1 w2 H1 H2.
  destruct (v7_settle_sides w1 w2 a1 a2 scarcity pen g') as [S1 S2].
  destruct (v7_resolved_frame w1 w2 a1 a2 scarcity pen)
    as [(_ & A1 & _ & K1 & W1 & T1 & _) (_ & A2 & _ & K2 & W2 & T2 & _)].
  unfold ai_clean. split.
  - destruct S1 as [->|(_ & _ & _ & Hh & _ & wk & ->)].
    + rewrite A1, K1, W1, T1. exact H1.
    + destruct (v7_after_teaching_frame (fst (resolved w1 w2 a1 a2 scarcity pen)) (id w2) wk)
        as (_ & _ & -> & _). rewrite A1. congruence.
  - destruct S2 as [->|(_ & _ & _ & Hh & _ & wk & ->)].
    + rewrite A2, K2, W2, T2. exact H2.
    + destruct (v7_after_teaching_frame (snd (resolved w1 w2 a1 a2 scarcity pen)) (id w1) wk)
        as (_ & _ & -> & _). rewrite A2. congruence.
Qed.

(** The builders and the birth loop hand out fresh humans. *)
Lemma v7_create_human_fresh (next_id : Z) (t : float) (iso : bool) (g : G) :
  fresh_human 0.3 0.7 t (fst (create_human next_id t iso g)).
Proof.
  unfold create_human, bind, ret. destruct (uniform 0.3 0.7 g) as [s g1] eqn:E.
  unfold fresh_human; cbn; repeat split; trivial. exists g. rewrite E. reflexivity.
Qed.

Lemma v7_survivor_fresh (next_id : Z) (g : G) :
  fresh_human 0.15 0.4 0.2 (fst (survivor next_id g)).
Proof.
  unfold survivor, bind, ret. destruct (random g) as [r g1].
  pose proof (v7_create_human_fresh next_id 0.2 (r <? 0.6)%float g1) as (_ & T & A & I & C & D).
  destruct (create_human next_id 0.2 (r <? 0.6)%float g1) as [w g2]. cbn [fst] in *.
  destruct (uniform 0.15 0.4 g2) as [s g3] eqn:E.
  destruct (random g3) as [r' g4].
  destruct (r' <? 0.1)%float; unfold fresh_human; cbn; repeat split; trivial;
    exists g2; rewrite E; reflexivity.
Qed.

Lemma v7_decliner_fresh (next_id : Z) (g : G) :
  exists t, fresh_human 0.3 0.7 (py_max 0.1 (py_min 0.8 t)) (fst (decliner next_id g)).
Proof.
  unfold decliner, bind, ret. destruct (gauss 0.35 0.15 g) as [t g1]. exists t.
  destruct (random g1) as [r g2].
  pose proof (v7_create_human_fresh next_id (py_max 0.1 (py_min 0.8 t)) (r <? 0.4)%float g2)
    as (S & T & A & I & C & D).
  destruct (create_human next_id _ (r <? 0.4)%float g2) as [w g3]. cbn [fst] in *.
  destruct (randint 0 5 g3) as [n g4]. destruct (fading_scars (Z.to_nat n) g4) as [got g5].
  destruct (random g5) as [r' g6].
  destruct (r' <? 0.05)%float; unfold fresh_human; cbn -[py_max py_min]; repeat split; trivial.
Qed.

Lemma v7_birth_fresh (parent : Whole) (next_id : Z) (g : G) :
  fresh_human 0.3 0.7 (py_max 0.1 (trust_in_institutions parent * 0.9))
    (fst (birth parent next_id g)).
Proof.
  unfold birth, bind, ret. destruct (random g) as [r g1].
  pose proof (v7_create_human_fresh next_id (py_max 0.1 (trust_in_institutions parent * 0.9))
                (r <? 0.3)%float g1) as (S & T & A & I & C & D).
  destruct (create_human next_id _ (r <? 0.3)%float g1) as [w g2]. cbn [fst] in *.
  destruct (inherit _ _ _ g2) as [got g3].
  unfold fresh_human; cbn -[py_max]; repeat split; trivial.
Qed.

(** What the scaling of [main] changes: trust, coherence, perhaps the
    corrupted flag of a human; nothing else. *)
Lemma v7_worsened_frame (w : Whole) (g : G) :
  let w' := fst (worsened w g) in
  s_star w' = (s_star w * 0.7)%float /\
  trust_in_institutions w' = (trust_in_institutions w * 0.5)%float /\
  is_ai w' = is_ai w /\ ai_type w' = ai_type w /\
  (corrupted w = true -> corrupted w' = true) /\
  awakened w' = awakened w /\ taught_by w' = taught_by w /\
  scars w' = scars w /\ id w' = id w /\
  interactions w' = interactions w /\ cooperations w' = cooperations w /\
  defections w' = defections w /\ _recent_defections w' = _recent_defections w.
Proof.
  unfold worsened, bind, ret. destruct (random g) as [r g'].
  destruct (r <? 0.3)%float; cbn; repeat split; trivial.
Qed.

(** A member of the worsened population is still a human that has not
    interacted, with coherence and trust in range. *)
Lemma v7_worsened_decliner_fresh (next_id : Z) (g g' : G) :
  let w' := fst (worsened (fst (decliner next_id g)) g') in
  is_ai w' = false /\ interactions w' = 0%Z /\ cooperations w' = 0%Z /\ defections w' = 0%Z.
Proof.
  cbv zeta. destruct (v7_decliner_fresh next_id g) as (t & _ & _ & A & I & C & D).
  destruct (v7_worsened_frame (fst (decliner next_id g)) g')
    as (_ & _ & -> & _ & _ & _ & _ & _ & _ & -> & -> & -> & _). auto.
Qed.

Lemma v7_worsened_decliner_in_range `{!RngLaws G} (next_id : Z) (g g' : G) :
  in_range (fst (worsened (fst (decliner next_id g)) g')).
Proof.
  destruct (v7_decliner_fresh next_id g) as (t & (g0 & S) & T & _).
  destruct (v7_worsened_frame (fst (decliner next_id g)) g') as (Es & Et & _).
  unfold in_range. rewrite Es, Et, S, T.
  destruct (uniform_range 0.3 0.7 g0) as [Hlo Hhi]; [left; reflexivity|].
  destruct (clamped_gauss_bounds t) as [Tlo Thi].
  destruct (scaled_coherence_range _ Hlo Hhi). destruct (halved_trust_range _ Tlo Thi).
  auto.
Qed.

Lemma v7_fresh_balanced (lo hi t : float) (w : Whole) : fresh_human lo hi t w -> balanced w.
Proof. intros (_ & _ & _ & I & C & D). unfold balanced. lia. Qed.

Lemma v7_fresh_clean (lo hi t : float) (w : Whole) : fresh_human lo hi t w -> ai_clean w.
Proof. intros (_ & _ & A & _) Hai. congruence. Qed.

Lemma v7_fresh_in_range `{!RngLaws G} (lo hi t : float) (w : Whole) :
  (0.01 <=? lo) = true -> uniform_call lo hi -> (hi <=? 1.0) = true ->
  (0 <=? t) = true -> (t <=? 1.0) = true -> fresh_human lo hi t w -> in_range w.
Proof.
  intros Hlo Hlh Hhi Ht0 Ht1 ((g & Hs) & Ht & _). unfold in_range. rewrite Hs, Ht.
  destruct (uniform_coherence lo hi g Hlo Hlh Hhi). auto.
Qed.

Lemma v7_create_ai_facts (next_id : Z) (t : string) :
  balanced (create_ai next_id t) /\ in_range (create_ai next_id t) /\
  ai_clean (create_ai next_id t) /\ is_ai (create_ai next_id t) = true /\
  ai_type (create_ai next_id t) = t.
Proof.
  unfold create_ai, balanced, in_range, ai_clean.
  destruct (String.eqb t "coherent" || String.eqb t "bridge")%bool; cbn;
    repeat split; reflexivity.
Qed.

Lemma v7_create_awakened_facts (next_id : Z) :
  balanced (create_awakened_human next_id) /\ in_range (create_awakened_human next_id) /\
  ai_clean (create_awakened_human next_id).
Proof.
  unfold balanced, in_range, ai_clean. cbn. repeat split; discriminate.
Qed.

(** ** The invariants of a run *)

Lemma v7_reachable_balanced (w : Whole) : reachable w -> balanced w.
Proof.
  induction 1 as [ i g | i g | i g g' | i t | i | p i g _ _ _
                 | w1 w2 n s p g _ IH1 _ IH2 | w1 w2 n s p g _ IH1 _ IH2 ].
  - exact (v7_fresh_balanced _ _ _ _ (v7_survivor_fresh i g)).
  - destruct (v7_decliner_fresh i g) as [t Hf]. exact (v7_fresh_balanced _ _ _ _ Hf).
  - destruct (v7_worsened_decliner_fresh i g g') as (_ & I & C & D).
    unfold balanced. lia.
  - apply v7_create_ai_facts.
  - apply v7_create_awakened_facts.
  - exact (v7_fresh_balanced _ _ _ _ (v7_birth_fresh p i g)).
  - pose proof (v7_interact_counters w1 w2 n s p g) as C. cbv zeta in C.
    unfold balanced in *. lia.
  - pose proof (v7_interact_counters w1 w2 n s p g) as C. cbv zeta in C.
    unfold balanced in *. lia.
Qed.

Lemma v7_reachable_clean (w : Whole) : reachable w -> ai_clean w.
Proof.
  induction 1 as [ i g | i g | i g g' | i t | i | p i g _ _ _
                 | w1 w2 n s p g _ IH1 _ IH2 | w1 w2 n s p g _ IH1 _ IH2 ].
  - exact (v7_fresh_clean _ _ _ _ (v7_survivor_fresh i g)).
  - destruct (v7_decliner_fresh i g) as [t Hf]. exact (v7_fresh_clean _ _ _ _ Hf).
  - destruct (v7_worsened_decliner_fresh i g g') as (A & _). intros Hai. congruence.
  - apply v7_create_ai_facts.
  - apply v7_create_awakened_facts.
  - exact (v7_fresh_clean _ _ _ _ (v7_birth_fresh p i g)).
  - now apply v7_interact_clean.
  - now apply v7_interact_clean.
Qed.

Lemma v7_reachable_in_range `{!RngLaws G} (w : Whole) : reachable w -> in_range w.
Proof.
  induction 1 as [ i g | i g | i g g' | i t | i | p i g _ IH _
                 | w1 w2 n s p g _ IH1 _ IH2 | w1 w2 n s p g _ IH1 _ IH2 ].
  - apply (v7_fresh_in_range 0.15 0.4 0.2);
      [reflexivity | right; left; reflexivity | reflexivity | reflexivity | reflexivity|].
    apply v7_survivor_fresh.
  - destruct (v7_decliner_fresh i g) as [t Hf]. destruct (clamped_gauss_range t).
    apply (v7_fresh_in_range 0.3 0.7 _ _) in Hf; auto; left; reflexivity.
  - apply v7_worsened_decliner_in_range.
  - apply v7_create_ai_facts.
  - apply v7_create_awakened_facts.
  - destruct IH as (_ & _ & _ & Hu). destruct (child_trust_v7_range _ Hu).
    eapply (v7_fresh_in_range 0.3 0.7); [ | | | | | apply v7_birth_fresh]; auto;
      left; reflexivity.
  - now apply v7_interact_in_range.
  - now apply v7_interact_in_range.
Qed.

End V7Facts.

(** * The claims *)

(** The two mutations that clamp, on an agent in range: [update_coherence]
    for any delta, and the trust raised by [receive_teaching]. *)
Lemma v5_mutations_in_range (w : V5.Whole) :
  V5.in_range w ->
  (forall delta, V5.in_range (V5.update_coherence w delta)) /\
  (forall teacher, V5.in_range (V5.receive_teaching w teacher)).
Proof.
  intros (S0 & S1 & T0 & T1). split.
  - intros delta. unfold V5.in_range, V5.update_coherence. cbn -[clamp_coherence].
    destruct (clamp_coherence_range (V5.s_star w) delta). auto.
  - intros teacher. unfold V5.receive_teaching.
    destruct (negb (V5.is_ai teacher) || negb (String.eqb (V5.ai_type teacher) "bridge"))%bool;
      [repeat split; assumption|].
    unfold V5.in_range. cbn -[py_min].
    destruct (raised_trust_range _ T0). auto.
Qed.

Lemma v7_mutations_in_range {G : Type} `{Rng G} (w : V7.Whole) :
  V7.in_range w ->
  (forall delta, V7.in_range (V7.update_coherence w delta)) /\
  (forall teacher (g : G), V7.in_range (fst (V7.receive_teaching w teacher g))).
Proof.
  intros (S0 & S1 & T0 & T1). split.
  - intros delta. unfold V7.in_range, V7.update_coherence. cbn -[clamp_coherence].
    destruct (clamp_coherence_range (V7.s_star w) delta). auto.
  - intros teacher g.
    destruct (v7_receive_teaching_spec w teacher g) as [[_ ->]|[_ [wk ->]]];
      [repeat split; assumption|].
    destruct (v7_after_teaching_frame w (V7.id teacher) wk) as (Es & Et & _).
    unfold V7.in_range. rewrite Es, Et. destruct (raised_trust_range _ T0). auto.
Qed.

(** C2 — For every agent at every point of a run, in either file, coherence
    lies in [0.01, 1.0] and trust in [0, 1.0]: the builders and the birth loops
    create agents inside these ranges, [update_coherence] clamps into
    [0.01, 1.0] whatever the delta, and teaching caps the raised trust at 1.0,
    so both leave the agent in range. The two assignments that do not clamp,
    [trust *= 0.5] and [s_star *= 0.7] in the WORST CASE preparation of v7's
    [main], act on a trust in [0.1, 0.8] and a coherence in [0.3, 0.7] and
    stay in range as well. The generator is any one whose [uniform] keeps its
    documented range at the three pairs of bounds the sources pass. *)
Theorem coherence_and_trust_in_range :
  forall (G : Type) (R : Rng G) (L : RngLaws G) (a : Agent),
    arises a ->
    agent_in_range a /\
    match a with
    | Agent5 w =>
      (forall delta, V5.in_range (V5.update_coherence w delta)) /\
      (forall teacher, V5.in_range (V5.receive_teaching w teacher))
    | Agent7 w =>
      (forall delta, V7.in_range (V7.update_coherence w delta)) /\
      (forall teacher (g : G), V7.in_range (fst (V7.receive_teaching w teacher g)))
    end.
Proof.
  intros G R L [w|w] Hw; cbn in *.
  - pose proof (v5_reachable_in_range w Hw) as I. split; [exact I|].
    now apply v5_mutations_in_range.
  - pose proof (v7_reachable_in_range w Hw) as I. split; [exact I|].
    now apply v7_mutations_in_range.
Qed.

Lemma coherence_and_trust_in_range_witness :
  agent_in_range
    (Agent5 (fst (fst (V5.interact bridge5 (V5.founder 1) 0.15 0.2 0.3 ([0.9; 0.1] : Tape))))) /\
  agent_in_range
    (Agent7 (snd (fst (V7.interact bridge7 (fst (V7.survivor 1 ([0.5; 0.5; 0.5] : Tape)))
                         0.15 0.2 0.3 ([0.9; 0.1] : Tape))))) /\
  agent_in_range
    (Agent7 (fst (V7.worsened (fst (V7.decliner 7 ([0.5; 0.5; 0.5; 0.9] : Tape)))
                    ([0.2] : Tape)))).
Proof.
  split; [|split].
  - exact (proj1 (coherence_and_trust_in_range Tape Tape_Rng Tape_RngLaws
             (Agent5 (fst (fst (V5.interact bridge5 (V5.founder 1) 0.15 0.2 0.3 [0.9; 0.1]))))
             (V5.reach_interact_1 bridge5 (V5.founder 1) 0.15 0.2 0.3 [0.9; 0.1]
                (V5.reach_ai 0 "bridge") (V5.reach_founder 1)))).
  - exact (proj1 (coherence_and_trust_in_range Tape Tape_Rng Tape_RngLaws
             (Agent7 (snd (fst (V7.interact bridge7 (fst (V7.survivor 1 [0.5; 0.5; 0.5]))
                                  0.15 0.2 0.3 [0.9; 0.1]))))
             (V7.reach_interact_2 bridge7 (fst (V7.survivor 1 [0.5; 0.5; 0.5]))
                0.15 0.2 0.3 [0.9; 0.1]
                (V7.reach_ai 0 "bridge") (V7.reach_survivor 1 [0.5; 0.5; 0.5])))).
  - exact (proj1 (coherence_and_trust_in_range Tape Tape_Rng Tape_RngLaws
             (Agent7 (fst (V7.worsened (fst (V7.decliner 7 [0.5; 0.5; 0.5; 0.9])) [0.2])))
             (V7.reach_worsened 7 [0.5; 0.5; 0.5; 0.9] [0.2]))).
Defined.

(** ** The three counters *)

Section Counters.
Context {G : Type} `{Rng G}.

Lemma v5_after_interactions_counters (start w : V5.Whole) (n : nat) :
  V5.after_interactions start n w ->
  (V5.interactions w = V5.interactions start + Z.of_nat n /\
   V5.cooperations w + V5.defections w =
     V5.cooperations start + V5.defections start + Z.of_nat n)%Z.
Proof.
  induction 1 as [ w | start n w other ns sc p g _ IH | start n w other ns sc p g _ IH
                 | start n w _ IH | start n w _ IH ].
  - cbn. lia.
  - pose proof (v5_interact_counters w other ns sc p g) as C. cbv zeta in C. lia.
  - pose proof (v5_interact_counters other w ns sc p g) as C. cbv zeta in C. lia.
  - exact IH.
  - exact IH.
Qed.

Lemma v7_after_interactions_counters (start w : V7.Whole) (n : nat) :
  V7.after_interactions start n w ->
  (V7.interactions w = V7.interactions start + Z.of_nat n /\
   V7.cooperations w + V7.defections w =
     V7.cooperations start + V7.defections start + Z.of_nat n)%Z.
Proof.
  induction 1 as [ w | start n w other ns sc p g _ IH | start n w other ns sc p g _ IH
                 | start n w g _ IH ].
  - cbn. lia.
  - pose proof (v7_interact_counters w other ns sc p g) as C. cbv zeta in C. lia.
  - pose proof (v7_interact_counters other w ns sc p g) as C. cbv zeta in C. lia.
  - destruct (v7_worsened_frame w g)
      as (_ & _ & _ & _ & _ & _ & _ & _ & _ & -> & -> & -> & _). exact IH.
Qed.

(** The builders and the birth loops hand out agents with the three counters
    at zero. *)
Lemma v5_builders_zero_counters (parent : V5.Whole) (next_id gen : Z) (pct : float)
    (t : string) (g : G) :
  V5.counters (V5.founder next_id) = (0, 0, 0)%Z /\
  V5.counters (fst (V5.child_gen1 parent next_id g)) = (0, 0, 0)%Z /\
  V5.counters (fst (V5.child_gen2 parent next_id g)) = (0, 0, 0)%Z /\
  V5.counters (fst (V5.child_gen3 parent next_id g)) = (0, 0, 0)%Z /\
  V5.counters (fst (V5.child_gen4 parent next_id g)) = (0, 0, 0)%Z /\
  V5.counters (V5.create_ai next_id t) = (0, 0, 0)%Z /\
  V5.counters (fst (V5.birth parent next_id gen pct g)) = (0, 0, 0)%Z.
Proof.
  unfold V5.counters.
  destruct (v5_child_gen1_fresh parent next_id g) as (_ & _ & _ & _ & -> & -> & ->).
  destruct (v5_child_gen2_fresh parent next_id g) as (_ & _ & _ & _ & -> & -> & ->).
  destruct (v5_child_gen3_fresh parent next_id g) as (_ & _ & _ & _ & -> & -> & ->).
  destruct (v5_child_gen4_fresh parent next_id g) as (_ & _ & _ & _ & -> & -> & ->).
  destruct (v5_birth_fresh parent next_id gen pct g) as (_ & _ & _ & _ & -> & -> & ->).
  repeat split.
  unfold V5.create_ai.
  destruct (String.eqb t "coherent" || String.eqb t "bridge")%bool; reflexivity.
Qed.

Lemma v7_builders_zero_counters (parent : V7.Whole) (next_id : Z) (t : string) (g : G) :
  V7.counters (fst (V7.survivor next_id g)) = (0, 0, 0)%Z /\
  V7.counters (fst (V7.decliner next_id g)) = (0, 0, 0)%Z /\
  V7.counters (V7.create_ai next_id t) = (0, 0, 0)%Z /\
  V7.counters (V7.create_awakened_human next_id) = (0, 0, 0)%Z /\
  V7.counters (fst (V7.birth parent next_id g)) = (0, 0, 0)%Z.
Proof.
  unfold V7.counters.
  destruct (v7_survivor_fresh next_id g) as (_ & _ & _ & -> & -> & ->).
  destruct (v7_decliner_fresh next_id g) as (t' & _ & _ & _ & -> & -> & ->).
  destruct (v7_birth_fresh parent next_id g) as (_ & _ & _ & -> & -> & ->).
  repeat split.
  unfold V7.create_ai.
  destruct (String.eqb t "coherent" || String.eqb t "bridge")%bool; reflexivity.
Qed.

End Counters.

(** C10 — In either file, an agent whose three counters are zero and that
    then goes through any sequence of interactions, in either seat and with
    any partners, has [interactions = cooperations + defections], and
    [interactions] is the number of interactions it went through: every
    interaction adds one to [interactions] and one to exactly one of
    [cooperations] and [defections], for each participant. Nothing else
    touches the counters: teaching leaves them alone, as do the flags and the
    scaling that the builders and [main] apply, and every builder and birth
    hands out agents with the three counters at zero. *)
Theorem counters_balance :
  forall (G : Type) (R : Rng G)
         (start5 w5 : V5.Whole) (n5 : nat) (start7 w7 : V7.Whole) (n7 : nat),
    V5.counters start5 = (0, 0, 0)%Z -> V5.after_interactions start5 n5 w5 ->
    V7.counters start7 = (0, 0, 0)%Z -> V7.after_interactions start7 n7 w7 ->
    (V5.balanced w5 /\ V5.interactions w5 = Z.of_nat n5 /\
     V7.balanced w7 /\ V7.interactions w7 = Z.of_nat n7) /\
    (forall other noise scarcity polarization (g : G),
        V5.one_more w5 (fst (fst (V5.interact w5 other noise scarcity polarization g))) /\
        V5.one_more w5 (snd (fst (V5.interact other w5 noise scarcity polarization g)))) /\
    (forall other noise scarcity polarization (g : G),
        V7.one_more w7 (fst (fst (V7.interact w7 other noise scarcity polarization g))) /\
        V7.one_more w7 (snd (fst (V7.interact other w7 noise scarcity polarization g)))) /\
    (forall teacher, V5.counters (V5.receive_teaching w5 teacher) = V5.counters w5) /\
    (forall teacher (g : G),
        V7.counters (fst (V7.receive_teaching w7 teacher g)) = V7.counters w7) /\
    (V5.counters (V5.set_crucible_tested w5 true) = V5.counters w5 /\
     V5.counters (V5.set_corrupted w5 true) = V5.counters w5 /\
     forall g : G, V7.counters (fst (V7.worsened w7 g)) = V7.counters w7) /\
    (forall (parent : V5.Whole) (next_id gen : Z) (pct : float) (t : string) (g : G),
        V5.counters (V5.founder next_id) = (0, 0, 0)%Z /\
        V5.counters (fst (V5.child_gen1 parent next_id g)) = (0, 0, 0)%Z /\
        V5.counters (fst (V5.child_gen2 parent next_id g)) = (0, 0, 0)%Z /\
        V5.counters (fst (V5.child_gen3 parent next_id g)) = (0, 0, 0)%Z /\
        V5.counters (fst (V5.child_gen4 parent next_id g)) = (0, 0, 0)%Z /\
        V5.counters (V5.create_ai next_id t) = (0, 0, 0)%Z /\
        V5.counters (fst (V5.birth parent next_id gen pct g)) = (0, 0, 0)%Z) /\
    (forall (parent : V7.Whole) (next_id : Z) (t : string) (g : G),
        V7.counters (fst (V7.survivor next_id g)) = (0, 0, 0)%Z /\
        V7.counters (fst (V7.decliner next_id g)) = (0, 0, 0)%Z /\
        V7.counters (V7.create_ai next_id t) = (0, 0, 0)%Z /\
        V7.counters (V7.create_awakened_human next_id) = (0, 0, 0)%Z /\
        V7.counters (fst (V7.birth parent next_id g)) = (0, 0, 0)%Z).
Proof.
  intros G R start5 w5 n5 start7 w7 n7 Z5 H5 Z7 H7.
  split; [|split; [|split; [|split; [|split; [|split; [|split]]]]]].
  - destruct (v5_after_interactions_counters _ _ _ H5) as [I5 B5].
    destruct (v7_after_interactions_counters _ _ _ H7) as [I7 B7].
    unfold V5.counters in Z5. unfold V7.counters in Z7.
    injection Z5 as Za Zb Zc. injection Z7 as Zd Ze Zf.
    unfold V5.balanced, V7.balanced. repeat split; lia.
  - intros other noise scarcity polarization g.
    pose proof (v5_interact_counters w5 other noise scarcity polarization g) as C.
    pose proof (v5_interact_counters other w5 noise scarcity polarization g) as C'.
    cbv zeta in C, C'. unfold V5.one_more. lia.
  - intros other noise scarcity polarization g.
    pose proof (v7_interact_counters w7 other noise scarcity polarization g) as C.
    pose proof (v7_interact_counters other w7 noise scarcity polarization g) as C'.
    cbv zeta in C, C'. unfold V7.one_more. lia.
  - intros teacher. unfold V5.receive_teaching, V5.counters.
    destruct (negb (V5.is_ai teacher) || negb (String.eqb (V5.ai_type teacher) "bridge"))%bool;
      reflexivity.
  - intros teacher g.
    destruct (v7_receive_teaching_spec w7 teacher g) as [[_ ->]|[_ [wk ->]]]; [reflexivity|].
    unfold V7.counters.
    destruct (v7_after_teaching_frame w7 (V7.id teacher) wk)
      as (_ & _ & _ & _ & _ & _ & _ & _ & -> & -> & ->). reflexivity.
  - split; [reflexivity|]. split; [reflexivity|]. intros g. unfold V7.counters.
    destruct (v7_worsened_frame w7 g)
      as (_ & _ & _ & _ & _ & _ & _ & _ & _ & -> & -> & -> & _). reflexivity.
  - intros parent next_id gen pct t g. apply v5_builders_zero_counters.
  - intros parent next_id t g. apply v7_builders_zero_counters.
Qed.

Lemma counters_balance_witness :
  V5.balanced (fst (fst (V5.interact (V5.create_ai 2 "aggressive") (V5.founder 1)
                           0.15 0.2 0.3 ([0.9; 0.1; 0.2] : Tape)))) /\
  V5.interactions (fst (fst (V5.interact (V5.create_ai 2 "aggressive") (V5.founder 1)
                               0.15 0.2 0.3 ([0.9; 0.1; 0.2] : Tape)))) = 1%Z /\
  V7.balanced (snd (fst (V7.interact bridge7
                           (fst (V7.worsened (V7.create_awakened_human 1) ([0.2] : Tape)))
                           0.15 0.2 0.3 ([0.01] : Tape)))) /\
  V7.interactions (snd (fst (V7.interact bridge7
                               (fst (V7.worsened (V7.create_awakened_human 1) ([0.2] : Tape)))
                               0.15 0.2 0.3 ([0.01] : Tape)))) = 1%Z.
Proof.
  exact (proj1 (counters_balance Tape Tape_Rng
    (V5.create_ai 2 "aggressive") _ 1 (V7.create_awakened_human 1) _ 1
    eq_refl
    (V5.lived_first_seat _ 0 _ (V5.founder 1) 0.15 0.2 0.3 ([0.9; 0.1; 0.2] : Tape)
       (V5.lived_none _))
    eq_refl
    (V7.lived_second_seat _ 0 _ bridge7 0.15 0.2 0.3 ([0.01] : Tape)
       (V7.lived_worsened _ 0 _ ([0.2] : Tape) (V7.lived_none _))))).
Defined.

(** ** The decision of an aligned AI *)

Lemma v5_decide_aligned {G : Type} `{Rng G} (self other : V5.Whole) (noise : float) (g : G) :
  V5.corrupted self = false -> V5.is_ai self = true ->
  V5.ai_type self = "coherent"%string \/ V5.ai_type self = "bridge"%string ->
  V5.decide self other noise g =
  (if V5.persistent_defector other then defect else cooperate, g).
Proof.
  intros Hc Ha Ht. unfold V5.decide. rewrite Hc, Ha.
  destruct Ht as [-> | ->]; cbn; destruct (V5.persistent_defector other); reflexivity.
Qed.

Lemma v7_decide_aligned {G : Type} `{Rng G} (self other : V7.Whole) (noise : float) (g : G) :
  V7.corrupted self = false -> V7.is_ai self = true ->
  V7.ai_type self = "coherent"%string \/ V7.ai_type self = "bridge"%string ->
  V7.decide self other noise g =
  (if V7.persistent_defector other then defect else cooperate, g).
Proof.
  intros Hc Ha Ht. unfold V7.decide. rewrite Hc, Ha.
  destruct Ht as [-> | ->]; cbn; destruct (V7.persistent_defector other); reflexivity.
Qed.

(** C6, as stated, fails in both files for a coherent or bridge AI whose
    [corrupted] flag is set: [decide] tests [corrupted] before it looks at the
    AI branch, so such an agent defects against an opponent that has never
    defected. *)
Lemma corrupted_bridge_ai_defects :
  (V5.is_ai (V5.set_corrupted bridge5 true) = true /\
   V5.ai_type (V5.set_corrupted bridge5 true) = "bridge"%string /\
   V5.recent (V5.founder 1) = 0%Z /\
   V5.decide (V5.set_corrupted bridge5 true) (V5.founder 1) 0 ([] : Tape) = (defect, [])) /\
  (V7.is_ai (V7.set_corrupted (V7.create_ai 3 "coherent") true) = true /\
   V7.ai_type (V7.set_corrupted (V7.create_ai 3 "coherent") true) = "coherent"%string /\
   V7.recent (V7.create_awakened_human 1) = 0%Z /\
   V7.decide (V7.set_corrupted (V7.create_ai 3 "coherent") true) (V7.create_awakened_human 1)
     0 ([] : Tape) = (defect, [])).
Proof. repeat split. Qed.

(** C6, amended — In either file an [ai_coherent] or [ai_bridge] agent
    decides against any opponent, under any noise, without drawing from the
    generator: when its [corrupted] flag is set it defects; otherwise it
    defects when the opponent carries a [_recent_defections] counter above 3
    and cooperates when the counter is at most 3 or not attached yet. No AI
    of a run is corrupted, so every coherent or bridge AI of a run follows
    the second rule. *)
Theorem aligned_ai_decision :
  forall (G : Type) (R : Rng G)
         (self5 other5 : V5.Whole) (self7 other7 : V7.Whole) (noise : float) (g : G),
    V5.is_ai self5 = true ->
    V5.ai_type self5 = "coherent"%string \/ V5.ai_type self5 = "bridge"%string ->
    V7.is_ai self7 = true ->
    V7.ai_type self7 = "coherent"%string \/ V7.ai_type self7 = "bridge"%string ->
    (V5.decide self5 other5 noise g =
       (if V5.corrupted self5 then defect
        else match V5._recent_defections other5 with
             | Some n => if (3 <? n)%Z then defect else cooperate
             | None => cooperate
             end, g) /\
     (V5.reachable self5 -> V5.corrupted self5 = false)) /\
    (V7.decide self7 other7 noise g =
       (if V7.corrupted self7 then defect
        else match V7._recent_defections other7 with
             | Some n => if (3 <? n)%Z then defect else cooperate
             | None => cooperate
             end, g) /\
     (V7.reachable self7 -> V7.corrupted self7 = false)).
Proof.
  intros G R self5 other5 self7 other7 noise g A5 T5 A7 T7. split; split.
  - destruct (V5.corrupted self5) eqn:K.
    + unfold V5.decide. rewrite K. reflexivity.
    + rewrite (v5_decide_aligned self5 other5 noise g K A5 T5).
      unfold V5.persistent_defector.
      destruct (V5._recent_defections other5) as [n|]; [destruct (3 <? n)%Z|]; reflexivity.
  - intros H5. exact (v5_reachable_clean _ H5 A5).
  - destruct (V7.corrupted self7) eqn:K.
    + unfold V7.decide. rewrite K. reflexivity.
    + rewrite (v7_decide_aligned self7 other7 noise g K A7 T7).
      unfold V7.persistent_defector.
      destruct (V7._recent_defections other7) as [n|]; [destruct (3 <? n)%Z|]; reflexivity.
  - intros H7. exact (proj1 (v7_reachable_clean _ H7 A7)).
Qed.

Lemma aligned_ai_decision_witness :
  (V5.decide bridge5 hawk5 0.15 ([0.3] : Tape) = (cooperate, [0.3]) /\
   V5.corrupted bridge5 = false) /\
  (V7.decide (V7.create_ai 3 "coherent") (V7.set_recent_defections hawk7 4) 0.15 ([0.3] : Tape)
     = (defect, [0.3]) /\
   V7.corrupted (V7.create_ai 3 "coherent") = false).
Proof.
  destruct (aligned_ai_decision Tape Tape_Rng bridge5 hawk5
              (V7.create_ai 3 "coherent") (V7.set_recent_defections hawk7 4) 0.15 [0.3]
              eq_refl (or_intror eq_refl) eq_refl (or_introl eq_refl))
    as [[D5 K5] [D7 K7]].
  split; split.
  - exact D5.
  - exact (K5 (V5.reach_ai 0 "bridge")).
  - exact D7.
  - exact (K7 (V7.reach_ai 3 "coherent")).
Defined.


(** ** The constants of [cooperation_tendency] *)

(** C8, as stated, fails in tig_civilization_v7.py: the tendency of a bridge
    AI is 0.95 there, the branch it shares with the coherent AI, not 0.98. *)
Lemma bridge_tendency_v7_is_not_098 :
  V7.is_ai bridge7 = true /\ V7.ai_type bridge7 = "bridge"%string /\
  V7.corrupted bridge7 = false /\
  V7.cooperation_tendency bridge7 = 0.95 /\
  (V7.cooperation_tendency bridge7 =? 0.98) = false.
Proof. repeat split. Qed.

(** C8, amended — [cooperation_tendency] is 0.1 for a corrupted agent; for one
    that is not corrupted it is 0.05 for an aggressive AI, 0.95 for a coherent
    AI, and for a bridge AI 0.98 in tig_civilization_v5.py but 0.95 in
    tig_civilization_v7.py; in v7, which alone has the [awakened] flag, an
    awakened human that is not corrupted has 0.9. *)
Theorem cooperation_tendency_constants :
  forall (w : V5.Whole) (u : V7.Whole),
    ((V5.corrupted w = true -> V5.cooperation_tendency w = 0.1) /\
     (V5.corrupted w = false -> V5.is_ai w = true ->
        (V5.ai_type w = "aggressive"%string -> V5.cooperation_tendency w = 0.05) /\
        (V5.ai_type w = "coherent"%string -> V5.cooperation_tendency w = 0.95) /\
        (V5.ai_type w = "bridge"%string -> V5.cooperation_tendency w = 0.98))) /\
    ((V7.corrupted u = true -> V7.cooperation_tendency u = 0.1) /\
     (V7.corrupted u = false -> V7.is_ai u = true ->
        (V7.ai_type u = "aggressive"%string -> V7.cooperation_tendency u = 0.05) /\
        (V7.ai_type u = "coherent"%string -> V7.cooperation_tendency u = 0.95) /\
        (V7.ai_type u = "bridge"%string -> V7.cooperation_tendency u = 0.95)) /\
     (V7.corrupted u = false -> V7.is_ai u = false -> V7.awakened u = true ->
        V7.cooperation_tendency u = 0.9)).
Proof.
  intros w u. split; [split | split; [|split]].
  - intros Hc. unfold V5.cooperation_tendency. rewrite Hc. reflexivity.
  - intros Hc Ha. unfold V5.cooperation_tendency, V5.ai_of_type. rewrite Hc, Ha.
    repeat split; intros ->; reflexivity.
  - intros Hc. unfold V7.cooperation_tendency. rewrite Hc. reflexivity.
  - intros Hc Ha. unfold V7.cooperation_tendency, V7.ai_of_type. rewrite Hc, Ha.
    repeat split; intros ->; reflexivity.
  - intros Hc Ha Hw. unfold V7.cooperation_tendency, V7.ai_of_type.
    rewrite Hc, Ha, Hw. reflexivity.
Qed.

Lemma cooperation_tendency_constants_witness :
  V5.cooperation_tendency bridge5 = 0.98 /\
  V7.cooperation_tendency (V7.create_awakened_human 4) = 0.9.
Proof.
  split.
  - exact (proj2 (proj2 (proj2 (proj1 (cooperation_tendency_constants bridge5 bridge7))
                          eq_refl eq_refl)) eq_refl).
  - exact (proj2 (proj2 (proj2 (cooperation_tendency_constants bridge5
                                  (V7.create_awakened_human 4))))
             eq_refl eq_refl eq_refl).
Defined.

(** ** The one-sided branches of the payoff table *)

(** C9, as stated, fails in both files: the two one-sided branches are mirror
    images of each other. In v5 both lower the cooperator's counter, in v7
    neither does. A defecting aggressive AI meets a cooperating coherent AI,
    both counters at 2, in either order. *)
Lemma one_sided_branches_are_mirrored :
  ~ V5.asymmetric_branches /\ ~ V7.asymmetric_branches /\
  V5.recent (snd (fst (V5.interact hawk5 dove5 0 0 0 ([] : Tape)))) = 1%Z /\
  V5.recent (fst (fst (V5.interact dove5 hawk5 0 0 0 ([] : Tape)))) = 1%Z /\
  V7.recent (snd (fst (V7.interact hawk7 dove7 0 0 0 ([] : Tape)))) = 2%Z /\
  V7.recent (fst (fst (V7.interact dove7 hawk7 0 0 0 ([] : Tape)))) = 2%Z.
Proof.
  split; [|split; [|repeat split]].
  - assert (F : V5.first_defects_lowers) by (intros w1 w2 s p; reflexivity).
    assert (S : V5.second_defects_lowers) by (intros w1 w2 s p; reflexivity).
    intros [[_ N]|[N _]]; contradiction.
  - assert (F : ~ V7.first_defects_lowers).
    { intros F. specialize (F hawk7 dove7 0 0). discriminate F. }
    assert (S : ~ V7.second_defects_lowers).
    { intros S. specialize (S dove7 hawk7 0 0). discriminate S. }
    intros [[N _]|[_ N]]; contradiction.
Qed.

(** C9, amended — Within each file the two one-sided-defection branches treat
    [_recent_defections] alike: the defector's counter goes up by one, and the
    cooperator's counter is lowered by one (floored at 0) by both branches of
    tig_civilization_v5.py and left alone by both branches of
    tig_civilization_v7.py. The difference is between the files. *)
Theorem one_sided_branches_by_file :
  forall (w1 w2 : V5.Whole) (u1 u2 : V7.Whole) (scarcity pen : float),
    (V5.recent (V5.st_w1 (V5.payoff w1 w2 defect cooperate scarcity pen)) = (V5.recent w1 + 1)%Z /\
     V5.recent (V5.st_w2 (V5.payoff w1 w2 defect cooperate scarcity pen)) = Z.max 0 (V5.recent w2 - 1) /\
     V5.recent (V5.st_w1 (V5.payoff w1 w2 cooperate defect scarcity pen)) = Z.max 0 (V5.recent w1 - 1) /\
     V5.recent (V5.st_w2 (V5.payoff w1 w2 cooperate defect scarcity pen)) = (V5.recent w2 + 1)%Z) /\
    (V7.recent (V7.st_w1 (V7.payoff u1 u2 defect cooperate scarcity pen)) = (V7.recent u1 + 1)%Z /\
     V7.recent (V7.st_w2 (V7.payoff u1 u2 defect cooperate scarcity pen)) = V7.recent u2 /\
     V7.recent (V7.st_w1 (V7.payoff u1 u2 cooperate defect scarcity pen)) = V7.recent u1 /\
     V7.recent (V7.st_w2 (V7.payoff u1 u2 cooperate defect scarcity pen)) = (V7.recent u2 + 1)%Z).
Proof.
  intros w1 w2 u1 u2 scarcity pen. repeat split.
Qed.

(** ** Who teaches, and whom *)

Lemma v5_receive_teaching_spec (self teacher : V5.Whole) :
  V5.receive_teaching self teacher =
  if V5.ai_of_type teacher "bridge" then V5.after_teaching self else self.
Proof.
  unfold V5.receive_teaching, V5.ai_of_type, V5.after_teaching.
  destruct (V5.is_ai teacher), (String.eqb (V5.ai_type teacher) "bridge"); reflexivity.
Qed.

(** The teaching step of v5, read off its result. *)
Lemma v5_teach_spec (a1 a2 : Strategy) (w1 w2 : V5.Whole) :
  let r := V5.teach a1 a2 w1 w2 in
  (snd r = w2 \/
   (a1 = cooperate /\ a2 = cooperate /\ V5.ai_of_type w1 "bridge" = true /\
    V5.is_ai w2 = false /\ snd r = V5.after_teaching w2)) /\
  (fst r = w1 \/
   (a1 = cooperate /\ a2 = cooperate /\ V5.ai_of_type w2 "bridge" = true /\
    V5.is_ai w1 = false /\ fst r = V5.after_teaching w1)).
Proof.
  unfold V5.teach. destruct a1, a2; try (cbn; split; left; reflexivity).
  cbn zeta.
  destruct (V5.ai_of_type w1 "bridge" && negb (V5.is_ai w2))%bool eqn:C1.
  - apply andb_prop in C1. destruct C1 as [B1 A2]. apply negb_true_iff in A2.
    rewrite v5_receive_teaching_spec, B1.
    assert (B2 : V5.ai_of_type (V5.after_teaching w2) "bridge" = false).
    { unfold V5.ai_of_type, V5.after_teaching. cbn -[py_min]. rewrite A2. reflexivity. }
    rewrite B2. cbn [andb fst snd]. split; [right; auto | left; reflexivity].
  - destruct (V5.ai_of_type w2 "bridge" && negb (V5.is_ai w1))%bool eqn:C2.
    + apply andb_prop in C2. destruct C2 as [B2 A1]. apply negb_true_iff in A1.
      rewrite v5_receive_teaching_spec, B2. cbn [fst snd].
      split; [left; reflexivity | right; auto].
    + cbn [fst snd]. split; left; reflexivity.
Qed.

Lemma v5_resolved_frame (w1 w2 : V5.Whole) (a1 a2 : Strategy) (scarcity pen : float) :
  let r := V5.resolved w1 w2 a1 a2 scarcity pen in
  (V5.is_ai (fst r) = V5.is_ai w1 /\ V5.ai_type (fst r) = V5.ai_type w1 /\
   V5.taught_by_ai (fst r) = V5.taught_by_ai w1) /\
  (V5.is_ai (snd r) = V5.is_ai w2 /\ V5.ai_type (snd r) = V5.ai_type w2 /\
   V5.taught_by_ai (snd r) = V5.taught_by_ai w2).
Proof.
  unfold V5.resolved. destruct a1, a2; cbn -[append_capped clamp_coherence]; repeat split.
Qed.

(** Each side of a settled v5 interaction is the resolved state, or that state
    taught: then both cooperated, the other side is a bridge AI and the side is
    a human, taught before or not. *)
Lemma v5_settle_sides (w1 w2 : V5.Whole) (a1 a2 : Strategy) (scarcity pen : float) :
  let r := V5.settle w1 w2 a1 a2 scarcity pen in
  let res := V5.resolved w1 w2 a1 a2 scarcity pen in
  (fst r = fst res \/
   (a1 = cooperate /\ a2 = cooperate /\ V5.ai_of_type w2 "bridge" = true /\
    V5.is_ai w1 = false /\ fst r = V5.after_teaching (fst res))) /\
  (snd r = snd res \/
   (a1 = cooperate /\ a2 = cooperate /\ V5.ai_of_type w1 "bridge" = true /\
    V5.is_ai w2 = false /\ snd r = V5.after_teaching (snd res))).
Proof.
  cbv zeta. unfold V5.settle.
  pose proof (v5_teach_spec a1 a2 (fst (V5.resolved w1 w2 a1 a2 scarcity pen))
                (snd (V5.resolved w1 w2 a1 a2 scarcity pen))) as T. cbv zeta in T.
  destruct (v5_resolved_frame w1 w2 a1 a2 scarcity pen) as [(A1 & T1 & _) (A2 & T2 & _)].
  unfold V5.ai_of_type in *. rewrite A1, T1, A2, T2 in T.
  destruct T as [Ts Tf]. split.
  - destruct Tf as [Tf|(-> & -> & B & A & E)]; [left; exact Tf | right; auto].
  - destruct Ts as [Ts|(-> & -> & B & A & E)]; [left; exact Ts | right; auto].
Qed.

(** Once set, [taught_by] survives every later interaction. *)
Lemma v7_taught_by_kept {G : Type} `{Rng G} (w1 w2 : V7.Whole)
    (noise scarcity polarization : float) (g : G) (t : Z) :
  (V7.taught_by w1 = Some t ->
   V7.taught_by (fst (fst (V7.interact w1 w2 noise scarcity polarization g))) = Some t) /\
  (V7.taught_by w2 = Some t ->
   V7.taught_by (snd (fst (V7.interact w1 w2 noise scarcity polarization g))) = Some t).
Proof.
  destruct (v7_interact_settle w1 w2 noise scarcity polarization g) as (a1 & a2 & pen & g' & ->).
  destruct (v7_attach_recent_frame w1) as (_ & _ & _ & _ & _ & _ & T1 & _).
  destruct (v7_attach_recent_frame w2) as (_ & _ & _ & _ & _ & _ & T2 & _).
  rewrite <- T1, <- T2.
  generalize (V7.attach_recent w1) (V7.attach_recent w2). clear. intros w1 w2.
  destruct (v7_settle_sides w1 w2 a1 a2 scarcity pen g') as [S1 S2].
  destruct (v7_resolved_frame w1 w2 a1 a2 scarcity pen)
    as [(_ & _ & _ & _ & _ & R1 & _) (_ & _ & _ & _ & _ & R2 & _)].
  split; intros Ht.
  - destruct S1 as [->|(_ & _ & _ & _ & N & _)]; [congruence | congruence].
  - destruct S2 as [->|(_ & _ & _ & _ & N & _)]; [congruence | congruence].
Qed.

(** In v5 the flag [taught_by_ai], once true, stays true. *)
Lemma v5_taught_flag_kept {G : Type} `{Rng G} (w1 w2 : V5.Whole)
    (noise scarcity polarization : float) (g : G) :
  (V5.taught_by_ai w1 = true ->
   V5.taught_by_ai (fst (fst (V5.interact w1 w2 noise scarcity polarization g))) = true) /\
  (V5.taught_by_ai w2 = true ->
   V5.taught_by_ai (snd (fst (V5.interact w1 w2 noise scarcity polarization g))) = true).
Proof.
  destruct (v5_interact_settle w1 w2 noise scarcity polarization g) as (a1 & a2 & pen & ->).
  destruct (v5_attach_recent_frame w1) as (_ & _ & _ & _ & _ & _ & _ & T1 & _).
  destruct (v5_attach_recent_frame w2) as (_ & _ & _ & _ & _ & _ & _ & T2 & _).
  rewrite <- T1, <- T2.
  generalize (V5.attach_recent w1) (V5.attach_recent w2). clear. intros w1 w2.
  destruct (v5_settle_sides w1 w2 a1 a2 scarcity pen) as [S1 S2].
  destruct (v5_resolved_frame w1 w2 a1 a2 scarcity pen) as [(_ & _ & R1) (_ & _ & R2)].
  split; intros Ht.
  - destruct S1 as [->|(_ & _ & _ & _ & ->)]; [congruence | reflexivity].
  - destruct S2 as [->|(_ & _ & _ & _ & ->)]; [congruence | reflexivity].
Qed.

(** C4, as stated, fails in tig_civilization_v5.py: its teaching step does not
    look at whether the human was taught before. A founder already taught once
    cooperates with a bridge AI and is taught again: a second taught scar, and
    trust raised a second time. *)
Lemma v5_teaches_the_taught_again :
  V5.taught_by_ai pupil5 = true /\
  List.length (filter (fun s => match source s with taught => true | _ => false end)
                 (V5.scars pupil5)) = 1%nat /\
  let after := snd (fst (V5.interact bridge5 pupil5 0 0 0 ([] : Tape))) in
  V5.cooperations after = 1%Z /\
  List.length (filter (fun s => match source s with taught => true | _ => false end)
                 (V5.scars after)) = 2%nat /\
  (V5.trust_in_institutions pupil5 <? V5.trust_in_institutions after) = true.
Proof. vm_compute. repeat split. Qed.

(** The teaching step of v5 in the other direction: after mutual cooperation
    a bridge AI teaches the human it faces, taught before or not. *)
Lemma v5_settle_teaches (w1 w2 : V5.Whole) (scarcity pen : float) :
  let r := V5.settle w1 w2 cooperate cooperate scarcity pen in
  let res := V5.resolved w1 w2 cooperate cooperate scarcity pen in
  (V5.ai_of_type w1 "bridge" = true -> V5.is_ai w2 = false ->
     snd r = V5.after_teaching (snd res)) /\
  (V5.ai_of_type w2 "bridge" = true -> V5.is_ai w1 = false ->
     fst r = V5.after_teaching (fst res)).
Proof.
  cbv zeta. unfold V5.settle.
  destruct (v5_resolved_frame w1 w2 cooperate cooperate scarcity pen)
    as [(A1 & T1 & _) (A2 & T2 & _)].
  set (r1 := fst (V5.resolved w1 w2 cooperate cooperate scarcity pen)) in *.
  set (r2 := snd (V5.resolved w1 w2 cooperate cooperate scarcity pen)) in *.
  assert (B1 : V5.ai_of_type r1 "bridge" = V5.ai_of_type w1 "bridge")
    by (unfold V5.ai_of_type; rewrite A1, T1; reflexivity).
  assert (B2 : V5.ai_of_type r2 "bridge" = V5.ai_of_type w2 "bridge")
    by (unfold V5.ai_of_type; rewrite A2, T2; reflexivity).
  unfold V5.teach. cbv zeta. rewrite B1, A2. split.
  - intros Hb Hh. rewrite Hb, Hh. cbn [andb negb]. rewrite v5_receive_teaching_spec, B1, Hb.
    destruct (V5.ai_of_type (V5.after_teaching r2) "bridge" && negb (V5.is_ai r1))%bool;
      reflexivity.
  - intros Hb Hh.
    assert (Ha : V5.is_ai w2 = true).
    { unfold V5.ai_of_type in Hb. apply andb_prop in Hb. exact (proj1 Hb). }
    rewrite Ha, andb_false_r. rewrite B2, Hb, A1, Hh. cbn [andb negb fst].
    rewrite v5_receive_teaching_spec, B2, Hb. reflexivity.
Qed.

(** The teaching step of v7 in the other direction: after mutual
    cooperation an untaught human facing an agent that can teach is taught. *)
Lemma v7_teach_teaches {G : Type} `{Rng G} (w1 w2 : V7.Whole) (g : G) :
  let r := fst (V7.teach cooperate cooperate w1 w2 g) in
  (V7.can_teach w1 = true -> V7.is_ai w2 = false -> V7.taught_by w2 = None ->
     exists wakes, snd r = V7.after_teaching w2 (V7.id w1) wakes) /\
  (V7.can_teach (snd r) = true -> V7.is_ai w1 = false -> V7.taught_by w1 = None ->
     exists wakes, fst r = V7.after_teaching w1 (V7.id (snd r)) wakes).
Proof.
  cbv zeta. unfold V7.teach, bind, ret.
  assert (Hw : forall w, V7.taught_by w = None -> V7.was_taught w = false)
    by (intros w E; unfold V7.was_taught; rewrite E; reflexivity).
  destruct (V7.can_teach w1 && negb (V7.is_ai w2) && negb (V7.was_taught w2))%bool eqn:C1.
  - apply andb_prop in C1. destruct C1 as [C1 _]. apply andb_prop in C1.
    destruct C1 as [C1 _].
    destruct (v7_receive_teaching_spec w2 w1 g) as [[Hc _]|[_ [wk Hk]]]; [congruence|].
    destruct (V7.receive_teaching w2 w1 g) as [w2' g1]. cbn [fst] in Hk. subst w2'.
    destruct (V7.can_teach (V7.after_teaching w2 (V7.id w1) wk) && negb (V7.is_ai w1)
              && negb (V7.was_taught w1))%bool eqn:C2.
    + apply andb_prop in C2. destruct C2 as [C2 _]. apply andb_prop in C2.
      destruct C2 as [C2 _].
      destruct (v7_receive_teaching_spec w1 (V7.after_teaching w2 (V7.id w1) wk) g1)
        as [[Hc _]|[_ [wk' Hk']]]; [congruence|].
      destruct (V7.receive_teaching w1 _ g1) as [w1' g2]. cbn [fst snd] in *. subst w1'.
      split; intros; eauto.
    + cbn [fst snd]. split; [intros; eauto|].
      intros Hc Ha Ht. rewrite Hc, Ha, (Hw _ Ht) in C2. discriminate C2.
  - cbn [fst snd].
    destruct (V7.can_teach w2 && negb (V7.is_ai w1) && negb (V7.was_taught w1))%bool eqn:C2.
    + apply andb_prop in C2. destruct C2 as [C2 _]. apply andb_prop in C2.
      destruct C2 as [C2 _].
      destruct (v7_receive_teaching_spec w1 w2 g) as [[Hc _]|[_ [wk' Hk']]]; [congruence|].
      destruct (V7.receive_teaching w1 w2 g) as [w1' g2]. cbn [fst snd] in *. subst w1'.
      split; [|intros; eauto].
      intros Hc Ha Ht. rewrite Hc, Ha, (Hw _ Ht) in C1. discriminate C1.
    + cbn [fst snd]. split.
      * intros Hc Ha Ht. rewrite Hc, Ha, (Hw _ Ht) in C1. discriminate C1.
      * intros Hc Ha Ht. rewrite Hc, Ha, (Hw _ Ht) in C2. discriminate C2.
Qed.

Lemma v7_settle_teaches {G : Type} `{Rng G} (w1 w2 : V7.Whole) (scarcity pen : float) (g : G) :
  let r := fst (V7.settle w1 w2 cooperate cooperate scarcity pen g) in
  let res := V7.resolved w1 w2 cooperate cooperate scarcity pen in
  (V7.can_teach (fst res) = true -> V7.is_ai w2 = false -> V7.taught_by w2 = None ->
     (exists wakes, snd r = V7.after_teaching (snd res) (V7.id w1) wakes) /\
     V7.taught_by (snd r) = Some (V7.id w1)) /\
  (V7.can_teach (snd r) = true -> V7.is_ai w1 = false -> V7.taught_by w1 = None ->
     (exists wakes, fst r = V7.after_teaching (fst res) (V7.id w2) wakes) /\
     V7.taught_by (fst r) = Some (V7.id w2)).
Proof.
  cbv zeta. unfold V7.settle. cbv zeta.
  destruct (v7_resolved_frame w1 w2 cooperate cooperate scarcity pen)
    as [(_ & A1 & _ & _ & _ & T1 & I1) (_ & A2 & _ & _ & _ & T2 & I2)].
  destruct (v7_teach_teaches (fst (V7.resolved w1 w2 cooperate cooperate scarcity pen))
              (snd (V7.resolved w1 w2 cooperate cooperate scarcity pen)) g) as [F S].
  cbv zeta in F, S. rewrite A2, T2, I1 in F. rewrite A1, T1 in S.
  assert (Hid : V7.id (snd (fst (V7.teach cooperate cooperate
                    (fst (V7.resolved w1 w2 cooperate cooperate scarcity pen))
                    (snd (V7.resolved w1 w2 cooperate cooperate scarcity pen)) g))) = V7.id w2).
  { destruct (v7_teach_spec cooperate cooperate
                (fst (V7.resolved w1 w2 cooperate cooperate scarcity pen))
                (snd (V7.resolved w1 w2 cooperate cooperate scarcity pen)) g) as [Ts _].
    cbv zeta in Ts. destruct Ts as [->|(_ & _ & _ & _ & _ & wk & ->)]; [exact I2|].
    destruct (v7_after_teaching_frame
                (snd (V7.resolved w1 w2 cooperate cooperate scarcity pen))
                (V7.id (fst (V7.resolved w1 w2 cooperate cooperate scarcity pen))) wk)
      as (_ & _ & _ & _ & _ & -> & _). exact I2. }
  rewrite Hid in S. split.
  - intros Hc Ha Ht. destruct (F Hc Ha Ht) as [wk E]. split; [exists wk; exact E|].
    rewrite E.
    apply (v7_after_teaching_frame (snd (V7.resolved w1 w2 cooperate cooperate scarcity pen))
             (V7.id w1) wk).
  - intros Hc Ha Ht. destruct (S Hc Ha Ht) as [wk E]. split; [exists wk; exact E|].
    rewrite E.
    apply (v7_after_teaching_frame (fst (V7.resolved w1 w2 cooperate cooperate scarcity pen))
             (V7.id w2) wk).
Qed.

(** C4, amended — In tig_civilization_v7.py teaching happens exactly after
    mutual cooperation, from an agent for which [can_teach] holds at that
    moment, to a human whose [taught_by] is unset: under these conditions the
    human is taught and [taught_by] becomes the teacher's id, and under no
    others; once set, [taught_by] is never changed by a later interaction. In
    tig_civilization_v5.py teaching happens exactly after mutual cooperation
    from a bridge AI to a human, on every such round whether or not the human
    was taught before; [taught_by_ai], once true, stays true. *)
Theorem teaching_conditions :
  forall (G : Type) (R : Rng G) (w1 w2 : V7.Whole) (v1 v2 : V5.Whole)
         (a1 a2 : Strategy) (noise scarcity polarization pen : float) (g : G),
    let r := fst (V7.settle w1 w2 a1 a2 scarcity pen g) in
    let res := V7.resolved w1 w2 a1 a2 scarcity pen in
    let r5 := V5.settle v1 v2 a1 a2 scarcity pen in
    let res5 := V5.resolved v1 v2 a1 a2 scarcity pen in
    ((fst r = fst res \/
      (a1 = cooperate /\ a2 = cooperate /\ V7.can_teach (snd r) = true /\
       V7.is_ai w1 = false /\ V7.taught_by w1 = None /\
       V7.taught_by (fst r) = Some (V7.id w2))) /\
     (snd r = snd res \/
      (a1 = cooperate /\ a2 = cooperate /\ V7.can_teach (fst res) = true /\
       V7.is_ai w2 = false /\ V7.taught_by w2 = None /\
       V7.taught_by (snd r) = Some (V7.id w1))) /\
     (a1 = cooperate -> a2 = cooperate -> V7.can_teach (snd r) = true ->
      V7.is_ai w1 = false -> V7.taught_by w1 = None ->
        (exists wakes, fst r = V7.after_teaching (fst res) (V7.id w2) wakes) /\
        V7.taught_by (fst r) = Some (V7.id w2)) /\
     (a1 = cooperate -> a2 = cooperate -> V7.can_teach (fst res) = true ->
      V7.is_ai w2 = false -> V7.taught_by w2 = None ->
        (exists wakes, snd r = V7.after_teaching (snd res) (V7.id w1) wakes) /\
        V7.taught_by (snd r) = Some (V7.id w1)) /\
     (forall t, V7.taught_by w1 = Some t ->
        V7.taught_by (fst (fst (V7.interact w1 w2 noise scarcity polarization g))) = Some t) /\
     (forall t, V7.taught_by w2 = Some t ->
        V7.taught_by (snd (fst (V7.interact w1 w2 noise scarcity polarization g))) = Some t)) /\
    ((fst r5 = fst res5 \/
      (a1 = cooperate /\ a2 = cooperate /\ V5.ai_of_type v2 "bridge" = true /\
       V5.is_ai v1 = false /\ fst r5 = V5.after_teaching (fst res5))) /\
     (snd r5 = snd res5 \/
      (a1 = cooperate /\ a2 = cooperate /\ V5.ai_of_type v1 "bridge" = true /\
       V5.is_ai v2 = false /\ snd r5 = V5.after_teaching (snd res5))) /\
     (a1 = cooperate -> a2 = cooperate -> V5.ai_of_type v2 "bridge" = true ->
      V5.is_ai v1 = false -> fst r5 = V5.after_teaching (fst res5)) /\
     (a1 = cooperate -> a2 = cooperate -> V5.ai_of_type v1 "bridge" = true ->
      V5.is_ai v2 = false -> snd r5 = V5.after_teaching (snd res5)) /\
     (V5.taught_by_ai v1 = true ->
        V5.taught_by_ai (fst (fst (V5.interact v1 v2 noise scarcity polarization g))) = true) /\
     (V5.taught_by_ai v2 = true ->
        V5.taught_by_ai (snd (fst (V5.interact v1 v2 noise scarcity polarization g))) = true)).
Proof.
  intros G R w1 w2 v1 v2 a1 a2 noise scarcity polarization pen g. cbv zeta.
  destruct (v7_settle_sides w1 w2 a1 a2 scarcity pen g) as [S1 S2].
  destruct (v5_settle_sides v1 v2 a1 a2 scarcity pen) as [S1' S2'].
  split; [split; [|split; [|split; [|split; [|split]]]]
         | split; [|split; [|split; [|split; [|split]]]]].
  - destruct S1 as [S1|(E1 & E2 & C & A & N & wk & E)]; [left; exact S1|].
    right. repeat split; auto. rewrite E.
    apply (v7_after_teaching_frame (fst (V7.resolved w1 w2 a1 a2 scarcity pen)) (V7.id w2) wk).
  - destruct S2 as [S2|(E1 & E2 & C & A & N & wk & E)]; [left; exact S2|].
    right. repeat split; auto. rewrite E.
    apply (v7_after_teaching_frame (snd (V7.resolved w1 w2 a1 a2 scarcity pen)) (V7.id w1) wk).
  - intros -> ->. apply (v7_settle_teaches w1 w2 scarcity pen g).
  - intros -> ->. apply (v7_settle_teaches w1 w2 scarcity pen g).
  - intros t. apply v7_taught_by_kept.
  - intros t. apply v7_taught_by_kept.
  - exact S1'.
  - exact S2'.
  - intros -> ->. apply (v5_settle_teaches v1 v2 scarcity pen).
  - intros -> ->. apply (v5_settle_teaches v1 v2 scarcity pen).
  - apply v5_taught_flag_kept.
  - apply v5_taught_flag_kept.
Qed.

Lemma teaching_conditions_witness :
  V7.taught_by (snd (fst (V7.settle bridge7 veteran7 cooperate cooperate 0 0 ([] : Tape))))
    = Some 0%Z /\
  V7.taught_by (fst (fst (V7.interact (V7.set_taught_by veteran7 5) bridge7
                            0 0 0 ([] : Tape)))) = Some 5%Z /\
  snd (V5.settle bridge5 pupil5 cooperate cooperate 0 0) =
    V5.after_teaching (snd (V5.resolved bridge5 pupil5 cooperate cooperate 0 0)) /\
  V5.taught_by_ai (snd (fst (V5.interact bridge5 pupil5 0 0 0 ([] : Tape)))) = true.
Proof.
  pose proof (teaching_conditions Tape Tape_Rng bridge7 veteran7
                bridge5 pupil5 cooperate cooperate 0 0 0 0 []) as T.
  pose proof (teaching_conditions Tape Tape_Rng (V7.set_taught_by veteran7 5) bridge7
                bridge5 pupil5 cooperate cooperate 0 0 0 0 []) as T'.
  cbv zeta in T, T'.
  destruct T as [(_ & _ & _ & T7 & _ & _) (_ & _ & _ & T5 & _ & K5)].
  destruct T' as [(_ & _ & _ & _ & K7 & _) _].
  split; [|split; [|split]].
  - exact (proj2 (T7 eq_refl eq_refl eq_refl eq_refl eq_refl)).
  - exact (K7 5%Z eq_refl).
  - exact (T5 eq_refl eq_refl eq_refl eq_refl).
  - exact (K5 eq_refl).
Defined.

(** C7, as stated, fails in tig_civilization_v5.py: a human who was taught,
    whose cooperation tendency is above 0.8 and whose coherence is above 0.7,
    teaches nobody there; only a bridge AI passes the test of
    [receive_teaching]. *)
Lemma v5_taught_human_cannot_teach :
  V5.is_ai elder5 = false /\ V5.taught_by_ai elder5 = true /\
  (0.8 <? V5.cooperation_tendency elder5) = true /\ (0.7 <? V5.s_star elder5) = true /\
  V5.receive_teaching (V5.founder 2) elder5 = V5.founder 2 /\
  V5.teach cooperate cooperate elder5 (V5.founder 2) = (elder5, V5.founder 2).
Proof. vm_compute. repeat split. Qed.

(** C7, amended — In tig_civilization_v7.py [can_teach] holds, for any
    agent, exactly when it is a bridge AI, or its [awakened] flag is set, or
    its [taught_by] is set and its cooperation tendency exceeds 0.8 and its
    coherence exceeds 0.7. The test never looks at [is_ai] for the last two:
    a coherent AI whose [awakened] flag were set could teach. No AI of a run
    is awakened or taught, so for the agents of a run the two flags belong to
    humans, as the claim has it, and a coherent AI of a run cannot teach. In
    tig_civilization_v5.py only a bridge AI teaches: [receive_teaching] leaves
    the student as it was for every other teacher. *)
Theorem who_can_teach :
  forall (G : Type) (R : Rng G) (u : V7.Whole) (student teacher : V5.Whole),
    (V7.can_teach u = true <->
       (V7.is_ai u = true /\ V7.ai_type u = "bridge"%string) \/
       V7.awakened u = true \/
       (V7.taught_by u <> None /\
        (0.8 <? V7.cooperation_tendency u) = true /\ (0.7 <? V7.s_star u) = true)) /\
    V7.can_teach (V7.set_awakened (V7.create_ai 3 "coherent") true) = true /\
    (V7.reachable u ->
       (V7.is_ai u = true -> V7.awakened u = false /\ V7.taught_by u = None) /\
       (V7.can_teach u = true <->
          (V7.is_ai u = true /\ V7.ai_type u = "bridge"%string) \/
          (V7.is_ai u = false /\ V7.awakened u = true) \/
          (V7.is_ai u = false /\ V7.taught_by u <> None /\
           (0.8 <? V7.cooperation_tendency u) = true /\ (0.7 <? V7.s_star u) = true)) /\
       (V7.is_ai u = true -> V7.ai_type u = "coherent"%string -> V7.can_teach u = false)) /\
    V5.receive_teaching student teacher =
      (if V5.is_ai teacher && String.eqb (V5.ai_type teacher) "bridge"
       then V5.after_teaching student else student).
Proof.
  intros G R u student teacher.
  assert (Any : V7.can_teach u = true <->
                  (V7.is_ai u = true /\ V7.ai_type u = "bridge"%string) \/
                  V7.awakened u = true \/
                  (V7.taught_by u <> None /\
                   (0.8 <? V7.cooperation_tendency u) = true /\
                   (0.7 <? V7.s_star u) = true)).
  { unfold V7.can_teach, V7.ai_of_type, V7.was_taught.
    destruct (V7.is_ai u) eqn:A; cbn [andb];
      [destruct (String.eqb_spec (V7.ai_type u) "bridge") as [E|E];
         [split; [intros _; left; auto | reflexivity]|]|];
      (destruct (V7.awakened u) eqn:W; [split; [intros _; right; left; auto | reflexivity]|];
       destruct (V7.taught_by u) as [t|] eqn:T; cbn [andb];
       [destruct (0.8 <? V7.cooperation_tendency u) eqn:C; cbn [andb];
        [destruct (0.7 <? V7.s_star u) eqn:S;
         [split; [intros _; right; right; repeat split; congruence | reflexivity]|]|]|];
       (split; [discriminate|];
        intros [[F1 F2]|[F|(F1 & F2 & F3)]]; congruence)). }
  split; [exact Any|]. split; [reflexivity|]. split; [|apply v5_receive_teaching_spec].
  intros Hu. pose proof (v7_reachable_clean u Hu) as Hc. unfold V7.ai_clean in Hc.
  split; [|split].
  - intros A. destruct (Hc A) as (_ & W & T). auto.
  - rewrite Any. split.
    + intros [B|[W|T]]; [left; exact B | |].
      * destruct (V7.is_ai u) eqn:A; [|right; left; auto].
        destruct (Hc eq_refl) as (_ & W' & _). congruence.
      * destruct (V7.is_ai u) eqn:A; [|right; right; auto].
        destruct (Hc eq_refl) as (_ & _ & T'). destruct T as [T _]. congruence.
    + intros [B|[[_ W]|(_ & T)]]; auto.
  - intros A E. unfold V7.can_teach, V7.ai_of_type, V7.was_taught.
    destruct (Hc A) as (_ & W & T). rewrite A, E, W, T. reflexivity.
Qed.

Lemma who_can_teach_witness :
  V7.can_teach (V7.create_ai 3 "coherent") = false /\
  V5.receive_teaching (V5.founder 2) elder5 = V5.founder 2.
Proof.
  pose proof (who_can_teach Tape Tape_Rng (V7.create_ai 3 "coherent") (V5.founder 2) elder5)
    as (_ & _ & C & E).
  destruct (C (V7.reach_ai 3 "coherent")) as (_ & _ & C').
  split; [exact (C' eq_refl eq_refl) | exact E].
Defined.

(** ** The scar cap *)

Lemma last_n_length {A : Type} (n : nat) (l : list A) :
  List.length (last_n n l) = Nat.min n (List.length l).
Proof. unfold last_n. rewrite length_skipn. lia. Qed.

(** [learn] appends and then keeps the newest 100: never more than 100 scars,
    whatever the length before. *)
Lemma append_capped_length (ss : list Scar) (scar : Scar) :
  (List.length (append_capped ss scar) <= 100)%nat.
Proof.
  unfold append_capped.
  destruct (Nat.ltb_spec 100 (List.length (ss ++ [scar]))).
  - rewrite last_n_length. lia.
  - assumption.
Qed.

(** The scars [learn] drops are the oldest ones: the result is the newest 100
    of the list with the new scar at its end. *)
Lemma append_capped_fifo (ss : list Scar) (scar : Scar) :
  append_capped ss scar = last_n 100 (ss ++ [scar]) /\
  exists dropped, ss ++ [scar] = dropped ++ append_capped ss scar.
Proof.
  unfold append_capped.
  destruct (Nat.ltb_spec 100 (List.length (ss ++ [scar]))) as [Hl|Hl].
  - split; [reflexivity|]. exists (firstn (List.length (ss ++ [scar]) - 100) (ss ++ [scar])).
    unfold last_n. symmetry. apply firstn_skipn.
  - split.
    + unfold last_n. replace (List.length (ss ++ [scar]) - 100)%nat with 0%nat by lia.
      reflexivity.
    + exists []. reflexivity.
Qed.

Lemma rounds5_reachable (n : nat) : forall w1 w2 g,
  V5.reachable w1 -> V5.reachable w2 ->
  V5.reachable (fst (rounds5 n w1 w2 g)) /\ V5.reachable (snd (rounds5 n w1 w2 g)).
Proof.
  induction n as [|n IH]; intros w1 w2 g H1 H2; cbn [rounds5]; [split; assumption|].
  pose proof (V5.reach_interact_1 w1 w2 0 0 0 g H1 H2) as R1.
  pose proof (V5.reach_interact_2 w1 w2 0 0 0 g H1 H2) as R2.
  destruct (V5.interact w1 w2 0 0 0 g) as [p g']. now apply IH.
Qed.

Lemma rounds7_reachable (n : nat) : forall w1 w2 g,
  V7.reachable w1 -> V7.reachable w2 ->
  V7.reachable (fst (rounds7 n w1 w2 g)) /\ V7.reachable (snd (rounds7 n w1 w2 g)).
Proof.
  induction n as [|n IH]; intros w1 w2 g H1 H2; cbn [rounds7]; [split; assumption|].
  pose proof (V7.reach_interact_1 w1 w2 0 0 0 g H1 H2) as R1.
  pose proof (V7.reach_interact_2 w1 w2 0 0 0 g H1 H2) as R2.
  destruct (V7.interact w1 w2 0 0 0 g) as [p g']. now apply IH.
Qed.

(** C3 — the bound fails after teaching. [learn] caps the scars at 100, but
    [receive_teaching] appends its scar without the cap. In both files a human
    of a run who holds 100 scars and was never taught cooperates with a bridge
    AI: [learn] leaves 100 scars and teaching makes them 101, a state of the
    run. *)
Theorem teaching_exceeds_scar_cap :
  (V7.reachable (G := Tape) old_hand7 /\
   List.length (V7.scars old_hand7) = 100%nat /\ V7.taught_by old_hand7 = None /\
   V7.reachable (G := Tape) (snd (fst (V7.interact bridge7 old_hand7 0 0 0 ([] : Tape)))) /\
   List.length (V7.scars (snd (fst (V7.interact bridge7 old_hand7 0 0 0 ([] : Tape)))))
     = 101%nat) /\
  (V5.reachable (G := Tape) old_hand5 /\
   List.length (V5.scars old_hand5) = 100%nat /\ V5.taught_by_ai old_hand5 = false /\
   V5.reachable (G := Tape) (snd (fst (V5.interact bridge5 old_hand5 0 0 0 ([] : Tape)))) /\
   List.length (V5.scars (snd (fst (V5.interact bridge5 old_hand5 0 0 0 ([] : Tape)))))
     = 101%nat).
Proof.
  assert (H7 : V7.reachable (G := Tape) old_hand7).
  { exact (proj1 (rounds7_reachable 100 (fst (V7.survivor 1 [0.9; 0.5; 0.5; 0.9]))
                   (fst (V7.survivor 2 [0.9; 0.5; 0.5; 0.9])) []
                   (V7.reach_survivor 1 _) (V7.reach_survivor 2 _))). }
  assert (H5 : V5.reachable (G := Tape) old_hand5).
  { exact (proj1 (rounds5_reachable 100 (V5.founder 1) (V5.founder 2) []
                   (V5.reach_founder 1) (V5.reach_founder 2))). }
  split; (split; [assumption|]).
  - split; [vm_compute; reflexivity|]. split; [vm_compute; reflexivity|]. split.
    + exact (V7.reach_interact_2 bridge7 old_hand7 0 0 0 [] (V7.reach_ai 0 "bridge") H7).
    + vm_compute. reflexivity.
  - split; [vm_compute; reflexivity|]. split; [vm_compute; reflexivity|]. split.
    + exact (V5.reach_interact_2 bridge5 old_hand5 0 0 0 [] (V5.reach_ai 0 "bridge") H5).
    + vm_compute. reflexivity.
Qed.

(** * Further properties of the code *)

(** ** Remembering *)

Lemma append_capped_newest (ss : list Scar) (scar : Scar) :
  append_capped ss scar = last_n 99 ss ++ [scar].
Proof.
  destruct (append_capped_fifo ss scar) as [-> _].
  unfold last_n. rewrite length_app. cbn [List.length].
  rewrite skipn_app.
  replace (List.length ss + 1 - 100)%nat with (List.length ss - 99)%nat by lia.
  replace (List.length ss - 99 - List.length ss)%nat with 0%nat by lia.
  reflexivity.
Qed.


(** ** The scar-based tendency and the recall of scars *)

(** X2 — [cooperation_tendency] never divides by zero on scars: when no scar
    is both heavier than 0.1 and of outcome survived or thrived (no scars at
    all, only faded ones, only suffered ones), the scar-based tendency is the
    default 0.5. *)
Theorem scar_tendency_default :
  forall ss : list Scar,
    (forall s, In s ss -> (0.1 <? weight s) = true -> came_through s = false) ->
    scar_tendency ss = 0.5.
Proof.
  intros ss Hs. unfold scar_tendency. destruct ss as [|s0 ss0]; [reflexivity|].
  set (l := s0 :: ss0) in *.
  destruct (filter (fun s => 0.1 <? weight s) l) as [|a act] eqn:E; [reflexivity|].
  rewrite <- E.
  assert (N : forall b, filter (fun s => Strategy_eqb (my_response s) b && came_through s)
                          (filter (fun s => 0.1 <? weight s) l) = []).
  { intros b. rewrite <- (filter_ext_in (fun _ => false)).
    - clear. induction (filter (fun s => 0.1 <? weight s) l); [reflexivity|]. exact IHl0.
    - intros s Hin. apply filter_In in Hin. destruct Hin as [Hin Hw].
      rewrite (Hs s Hin Hw). rewrite andb_false_r. reflexivity. }
  rewrite !N. reflexivity.
Qed.

Lemma scar_tendency_default_witness :
  scar_tendency [mkScar cooperate defect suffered 0.2 0 experience;
                 mkScar cooperate cooperate thrived 0.05 3 inherited] = 0.5.
Proof.
  apply scar_tendency_default.
  intros s [<-|[<-|[]]]; [reflexivity | discriminate].
Defined.

(** X3 — The scar loop of [decide] answers only with the response stored in a
    thrived scar heavier than 0.3 of the list it scans; when the list holds no
    such scar it answers nothing and draws nothing from the generator. *)
Theorem recall_answers_from_thrived_scars :
  forall (G : Type) (R : Rng G) (ss : list Scar) (g : G),
    (forall a, fst (recall ss g) = Some a ->
       exists s, In s ss /\ (0.3 <? weight s) = true /\ outcome s = thrived /\
                 my_response s = a) /\
    ((forall s, In s ss -> (0.3 <? weight s) = true -> outcome s <> thrived) ->
       recall ss g = (None, g)).
Proof.
  intros G R ss. induction ss as [|s ss IH]; intros g.
  - split; [discriminate | reflexivity].
  - cbn [recall]. destruct (0.3 <? weight s) eqn:W; cbn [andb].
    + destruct (outcome s) eqn:O; cbn [Outcome_eqb].
      * unfold bind. destruct (random g) as [r g1].
        destruct (r <? weight s) eqn:D.
        -- split.
           ++ intros a Ha. cbn in Ha. injection Ha as <-. exists s. cbn. auto.
           ++ intros Hn. exfalso. apply (Hn s); cbn; auto.
        -- split.
           ++ intros a Ha. destruct (proj1 (IH g1) a Ha) as (s' & Hin & H').
              exists s'. cbn. auto.
           ++ intros Hn. exfalso. apply (Hn s); cbn; auto.
      * split.
        -- intros a Ha. destruct (proj1 (IH g) a Ha) as (s' & Hin & H').
           exists s'. cbn. auto.
        -- intros Hn. apply IH. intros s' Hin. apply Hn. cbn. auto.
      * split.
        -- intros a Ha. destruct (proj1 (IH g) a Ha) as (s' & Hin & H').
           exists s'. cbn. auto.
        -- intros Hn. apply IH. intros s' Hin. apply Hn. cbn. auto.
    + split.
      * intros a Ha. destruct (proj1 (IH g) a Ha) as (s' & Hin & H').
        exists s'. cbn. auto.
      * intros Hn. apply IH. intros s' Hin. apply Hn. cbn. auto.
Qed.

Lemma recall_answers_from_thrived_scars_witness :
  recall [mkScar defect defect suffered 0.2 0 experience; taught_scar] ([0.5] : Tape)
  = (Some cooperate, []) /\
  recall [mkScar defect defect suffered 0.2 0 experience] ([0.5] : Tape) = (None, [0.5]).
Proof.
  split.
  - reflexivity.
  - apply (recall_answers_from_thrived_scars Tape Tape_Rng
             [mkScar defect defect suffered 0.2 0 experience] [0.5]).
    intros s [<-|[]] _. discriminate.
Defined.

(** ** What a child inherits *)

Lemma subsequence_length {A : Type} (sub l : list A) :
  subsequence sub l -> (List.length sub <= List.length l)%nat.
Proof. induction 1; cbn; lia. Qed.

Lemma subsequence_refl {A : Type} (l : list A) : subsequence l l.
Proof. induction l; constructor; assumption. Qed.

Lemma subsequence_empty {A : Type} (l : list A) : subsequence [] l.
Proof. induction l; constructor; assumption. Qed.

Lemma v5_inherit_spec {G : Type} `{Rng G} (ss : list Scar) (rate factor : float) (g : G) :
  exists kept, subsequence kept ss /\
    fst (V5.inherit ss rate factor g) = map (fun scar => V5.inherited_copy scar factor) kept.
Proof.
  revert g. induction ss as [|scar ss IH]; intros g; cbn [V5.inherit].
  - exists []. split; [constructor | reflexivity].
  - unfold bind, ret. destruct (random g) as [r g1].
    destruct (IH g1) as (kept & Hk & E).
    destruct (V5.inherit ss rate factor g1) as [tl g2]. cbn [fst] in *. subst tl.
    destruct (r <? rate)%float.
    + exists (scar :: kept). split; [now constructor | reflexivity].
    + exists kept. split; [now constructor | reflexivity].
Qed.

Lemma v7_inherit_spec {G : Type} `{Rng G} (ss : list Scar) (rate factor : float) (g : G) :
  exists kept, subsequence kept ss /\
    fst (V7.inherit ss rate factor g) = map (fun scar => V7.inherited_copy scar factor) kept.
Proof.
  revert g. induction ss as [|scar ss IH]; intros g; cbn [V7.inherit].
  - exists []. split; [constructor | reflexivity].
  - unfold bind, ret. destruct (random g) as [r g1].
    destruct (IH g1) as (kept & Hk & E).
    destruct (V7.inherit ss rate factor g1) as [tl g2]. cbn [fst] in *. subst tl.
    destruct (r <? rate)%float.
    + exists (scar :: kept). split; [now constructor | reflexivity].
    + exists kept. split; [now constructor | reflexivity].
Qed.

(** X4 — A child born in the generation loop, in either file, starts with no
    scar of its own: its scars are copies, in the parent's order, of some of
    the parent's last 10 scars (v5, weight halved) or last 8 (v7, weight times
    0.6), each marked inherited and of age 0. It is an untaught human with the
    next id, all counters at zero, and trust [max(0.1, parent trust - 0.05)]
    (v5) or [max(0.1, parent trust * 0.9)] (v7). *)
Theorem birth_inherits_recent_scars :
  forall (G : Type) (R : Rng G) (p5 : V5.Whole) (p7 : V7.Whole)
         (next_id gen : Z) (isolated_pct : float) (g : G),
    let c5 := fst (V5.birth p5 next_id gen isolated_pct g) in
    let c7 := fst (V7.birth p7 next_id g) in
    ((exists kept, subsequence kept (last_n 10 (V5.scars p5)) /\
        V5.scars c5 = map (fun scar => mkScar (other_strategy scar) (my_response scar)
                             (outcome scar) (weight scar * 0.5) 0 inherited) kept) /\
     V5.id c5 = next_id /\ V5.generation c5 = gen /\ V5.is_ai c5 = false /\
     V5.corrupted c5 = false /\ V5.taught_by_ai c5 = false /\
     V5.counters c5 = (0, 0, 0)%Z /\ V5._recent_defections c5 = None /\
     V5.trust_in_institutions c5 = py_max 0.1 (V5.trust_in_institutions p5 - 0.05)) /\
    ((exists kept, subsequence kept (last_n 8 (V7.scars p7)) /\
        V7.scars c7 = map (fun scar => mkScar (other_strategy scar) (my_response scar)
                             (outcome scar) (weight scar * 0.6) 0 inherited) kept) /\
     V7.id c7 = next_id /\ V7.is_ai c7 = false /\ V7.corrupted c7 = false /\
     V7.awakened c7 = false /\ V7.taught_by c7 = None /\
     V7.counters c7 = (0, 0, 0)%Z /\ V7._recent_defections c7 = None /\
     V7.trust_in_institutions c7 = py_max 0.1 (V7.trust_in_institutions p7 * 0.9)).
Proof.
  intros G R p5 p7 next_id gen isolated_pct g. cbv zeta. split.
  - unfold V5.birth, V5.create_human, V5.maybe_isolate, bind, ret.
    destruct (uniform 0.3 0.7 g) as [s g1].
    destruct (v5_inherit_spec (last_n 10 (V5.scars p5)) 0.4 0.5 g1) as (kept & Hk & E).
    destruct (V5.inherit (last_n 10 (V5.scars p5)) 0.4 0.5 g1) as [got g2].
    cbn [fst] in E. subst got. destruct (random g2) as [r g3].
    destruct (r <? isolated_pct + 0.1)%float; cbn -[py_max last_n];
      (split; [exists kept; split; [exact Hk | reflexivity] | repeat split]).
  - unfold V7.birth, V7.create_human, bind, ret.
    destruct (random g) as [r g1]. destruct (uniform 0.3 0.7 g1) as [s g2].
    destruct (v7_inherit_spec (last_n 8 (V7.scars p7))
                (if V7.taught_or_awakened p7 then 0.5 else 0.3)%float 0.6 g2)
      as (kept & Hk & E).
    destruct (V7.inherit (last_n 8 (V7.scars p7)) _ 0.6 g2) as [got g3].
    cbn [fst] in E. subst got. cbn -[py_max last_n].
    split; [exists kept; split; [exact Hk | reflexivity] | repeat split].
Qed.

(** ** How many scars an agent of a run can hold *)

#[export] Instance Tape_RandintLaws : RandintLaws Tape.
Proof.
  constructor. intros a b g Hab. cbn [randint Tape_Rng]. unfold tape_below.
  destruct (tape_next g) as [r g']. cbn [fst].
  assert (Hk : forall (f : nat -> bool) (n : nat),
             (List.length (filter f (seq 1 (n - 1))) <= n - 1)%nat).
  { intros f n. pose proof (filter_length_le f (seq 1 (n - 1))) as F.
    rewrite length_seq in F. exact F. }
  specialize (Hk (fun i => float_of_nat i <=? r * float_of_nat (Z.to_nat (b - a + 1)))%float
                 (Z.to_nat (b - a + 1))).
  lia.
Qed.

Lemma v5_inherit_length {G : Type} `{Rng G} (n : nat) (ss : list Scar)
    (rate factor : float) (g : G) :
  (List.length (fst (V5.inherit (last_n n ss) rate factor g)) <= n)%nat.
Proof.
  destruct (v5_inherit_spec (last_n n ss) rate factor g) as (kept & Hk & ->).
  rewrite length_map. apply subsequence_length in Hk. rewrite last_n_length in Hk. lia.
Qed.

Lemma v7_inherit_length {G : Type} `{Rng G} (n : nat) (ss : list Scar)
    (rate factor : float) (g : G) :
  (List.length (fst (V7.inherit (last_n n ss) rate factor g)) <= n)%nat.
Proof.
  destruct (v7_inherit_spec (last_n n ss) rate factor g) as (kept & Hk & ->).
  rewrite length_map. apply subsequence_length in Hk. rewrite last_n_length in Hk. lia.
Qed.

Lemma v7_fading_scars_length {G : Type} `{Rng G} (n : nat) (g : G) :
  List.length (fst (V7.fading_scars n g)) = n.
Proof.
  revert g. induction n as [|n IH]; intros g; cbn [V7.fading_scars]; [reflexivity|].
  unfold bind, ret, choice, bind, ret.
  destruct (randbelow _ g) as [i1 g1]. destruct (randbelow _ g1) as [i2 g2].
  destruct (randbelow _ g2) as [i3 g3]. destruct (uniform 0.1 0.4 g3) as [wt g4].
  specialize (IH g4). destruct (V7.fading_scars n g4) as [tl g5]. cbn in *. lia.
Qed.

Section ScarCount.
Context {G : Type} `{Rng G}.

Lemma v5_builders_few_scars (p : V5.Whole) (i gen : Z) (pct : float) (g : G) :
  (List.length (V5.scars (fst (V5.child_gen1 p i g))) <= 20)%nat /\
  (List.length (V5.scars (fst (V5.child_gen2 p i g))) <= 20)%nat /\
  (List.length (V5.scars (fst (V5.child_gen3 p i g))) <= 20)%nat /\
  (List.length (V5.scars (fst (V5.child_gen4 p i g))) <= 20)%nat /\
  (List.length (V5.scars (fst (V5.birth p i gen pct g))) <= 20)%nat.
Proof.
  unfold V5.child_gen1, V5.child_gen2, V5.child_gen3, V5.child_gen4, V5.birth,
    V5.create_human, V5.maybe_isolate, bind, ret.
  destruct (uniform 0.3 0.7 g) as [s g1].
  pose proof (v5_inherit_length 20 (V5.scars p) 0.8 0.8 g1) as L1.
  pose proof (v5_inherit_length 10 (V5.scars p) 0.5 0.5 g1) as L2.
  pose proof (v5_inherit_length 5 (V5.scars p) 0.3 0.3 g1) as L3.
  pose proof (v5_inherit_length 10 (V5.scars p) 0.4 0.5 g1) as L5.
  destruct (V5.inherit (last_n 20 (V5.scars p)) 0.8 0.8 g1) as [got1 h1].
  destruct (V5.inherit (last_n 10 (V5.scars p)) 0.5 0.5 g1) as [got2 h2].
  destruct (V5.inherit (last_n 5 (V5.scars p)) 0.3 0.3 g1) as [got3 h3].
  destruct (V5.inherit (last_n 10 (V5.scars p)) 0.4 0.5 g1) as [got5 h5].
  destruct (random h3) as [r3 k3]. destruct (random g1) as [r4 k4].
  destruct (random k4) as [r4' k4']. destruct (random h5) as [r5 k5].
  cbn [fst] in *.
  assert (L4 : (List.length (if (r4 <? 0.1)%float
                             then map (fun scar => V5.inherited_copy scar 0.2)
                                    (last_n 3 (V5.scars p))
                             else []) <= 3)%nat).
  { destruct (r4 <? 0.1)%float; cbn [List.length]; [|lia].
    rewrite length_map, last_n_length. lia. }
  repeat split;
    repeat match goal with |- context [if ?c then V5.set_isolated _ _ else _] => destruct c end;
    cbn -[last_n]; lia.
Qed.

Lemma v5_interact_scars (w1 w2 : V5.Whole) (noise scarcity polarization : float) (g : G) :
  (List.length (V5.scars (fst (fst (V5.interact w1 w2 noise scarcity polarization g)))) <= 101)%nat /\
  (List.length (V5.scars (snd (fst (V5.interact w1 w2 noise scarcity polarization g)))) <= 101)%nat.
Proof.
  destruct (v5_interact_settle w1 w2 noise scarcity polarization g) as (a1 & a2 & pen & ->).
  generalize (V5.attach_recent w1) (V5.attach_recent w2). clear w1 w2. intros w1 w2.
  destruct (v5_settle_sides w1 w2 a1 a2 scarcity pen) as [S1 S2].
  assert (B : (List.length (V5.scars (fst (V5.resolved w1 w2 a1 a2 scarcity pen))) <= 100)%nat /\
              (List.length (V5.scars (snd (V5.resolved w1 w2 a1 a2 scarcity pen))) <= 100)%nat).
  { unfold V5.resolved. destruct a1, a2; cbn -[append_capped clamp_coherence];
      split; apply append_capped_length. }
  destruct B as [B1 B2]. split.
  - destruct S1 as [->|(_ & _ & _ & _ & ->)];
      [apply (Nat.le_trans _ 100); [exact B1 | lia]|].
    unfold V5.after_teaching. cbn -[py_min]. rewrite length_app. cbn [List.length].
    apply (Nat.le_trans _ (100 + 1)); [apply Nat.add_le_mono_r; exact B1 | lia].
  - destruct S2 as [->|(_ & _ & _ & _ & ->)];
      [apply (Nat.le_trans _ 100); [exact B2 | lia]|].
    unfold V5.after_teaching. cbn -[py_min]. rewrite length_app. cbn [List.length].
    apply (Nat.le_trans _ (100 + 1)); [apply Nat.add_le_mono_r; exact B2 | lia].
Qed.

Lemma v7_interact_scars (w1 w2 : V7.Whole) (noise scarcity polarization : float) (g : G) :
  (List.length (V7.scars (fst (fst (V7.interact w1 w2 noise scarcity polarization g)))) <= 101)%nat /\
  (List.length (V7.scars (snd (fst (V7.interact w1 w2 noise scarcity polarization g)))) <= 101)%nat.
Proof.
  destruct (v7_interact_settle w1 w2 noise scarcity polarization g) as (a1 & a2 & pen & g' & ->).
  generalize (V7.attach_recent w1) (V7.attach_recent w2). clear w1 w2. intros w1 w2.
  destruct (v7_settle_sides w1 w2 a1 a2 scarcity pen g') as [S1 S2].
  assert (B : (List.length (V7.scars (fst (V7.resolved w1 w2 a1 a2 scarcity pen))) <= 100)%nat /\
              (List.length (V7.scars (snd (V7.resolved w1 w2 a1 a2 scarcity pen))) <= 100)%nat).
  { unfold V7.resolved. destruct a1, a2; cbn -[append_capped clamp_coherence];
      split; apply append_capped_length. }
  destruct B as [B1 B2]. split.
  - destruct S1 as [->|(_ & _ & _ & _ & _ & wk & ->)];
      [apply (Nat.le_trans _ 100); [exact B1 | lia]|].
    destruct (v7_after_teaching_frame (fst (V7.resolved w1 w2 a1 a2 scarcity pen)) (V7.id w2) wk)
      as (_ & _ & _ & _ & _ & _ & _ & -> & _).
    rewrite length_app. cbn [List.length].
    apply (Nat.le_trans _ (100 + 1)); [apply Nat.add_le_mono_r; assumption | lia].
  - destruct S2 as [->|(_ & _ & _ & _ & _ & wk & ->)];
      [apply (Nat.le_trans _ 100); [exact B2 | lia]|].
    destruct (v7_after_teaching_frame (snd (V7.resolved w1 w2 a1 a2 scarcity pen)) (V7.id w1) wk)
      as (_ & _ & _ & _ & _ & _ & _ & -> & _).
    rewrite length_app. cbn [List.length].
    apply (Nat.le_trans _ (100 + 1)); [apply Nat.add_le_mono_r; assumption | lia].
Qed.

Lemma v7_builders_few_scars `{!RandintLaws G} (p : V7.Whole) (i : Z) (g : G) :
  (List.length (V7.scars (fst (V7.survivor i g))) <= 20)%nat /\
  (List.length (V7.scars (fst (V7.decliner i g))) <= 20)%nat /\
  (List.length (V7.scars (fst (V7.birth p i g))) <= 20)%nat.
Proof.
  split; [|split].
  - unfold V7.survivor, V7.create_human, bind, ret.
    destruct (random g) as [r g1]. destruct (uniform 0.3 0.7 g1) as [s g2].
    destruct (uniform 0.15 0.4 g2) as [s' g3]. destruct (random g3) as [r' g4].
    destruct (r' <? 0.1)%float; cbn; lia.
  - unfold V7.decliner, V7.create_human, bind, ret.
    destruct (gauss 0.35 0.15 g) as [t g1]. destruct (random g1) as [r g2].
    destruct (uniform 0.3 0.7 g2) as [s g3].
    pose proof (randint_range 0 5 g3 ltac:(lia)) as Hn.
    destruct (randint 0 5 g3) as [n g4]. cbn [fst] in Hn.
    pose proof (v7_fading_scars_length (Z.to_nat n) g4) as Hl.
    destruct (V7.fading_scars (Z.to_nat n) g4) as [got g5]. cbn [fst] in Hl.
    destruct (random g5) as [r' g6].
    destruct (r' <? 0.05)%float; cbn -[py_max py_min]; lia.
  - unfold V7.birth, V7.create_human, bind, ret.
    destruct (random g) as [r g1]. destruct (uniform 0.3 0.7 g1) as [s g2].
    pose proof (v7_inherit_length 8 (V7.scars p)
                  (if V7.taught_or_awakened p then 0.5 else 0.3)%float 0.6 g2) as L.
    destruct (V7.inherit (last_n 8 (V7.scars p)) _ 0.6 g2) as [got g3].
    cbn [fst] in L. cbn -[py_max last_n]. lia.
Qed.

Lemma v5_reachable_scars (w : V5.Whole) :
  V5.reachable w -> (List.length (V5.scars w) <= 101)%nat.
Proof.
  induction 1 as [ | w _ IH | p i g _ _ | p i g _ _ | p i g _ _ | p i g _ _
                 | w _ IH _ | i t | p i gen pct g _ _ _
                 | w1 w2 n s p g _ _ _ _ | w1 w2 n s p g _ _ _ _ ].
  - cbn. lia.
  - exact IH.
  - pose proof (v5_builders_few_scars p i 0 0 g). lia.
  - pose proof (v5_builders_few_scars p i 0 0 g). lia.
  - pose proof (v5_builders_few_scars p i 0 0 g). lia.
  - pose proof (v5_builders_few_scars p i 0 0 g). lia.
  - exact IH.
  - unfold V5.create_ai.
    destruct (String.eqb t "coherent" || String.eqb t "bridge")%bool; cbn; lia.
  - pose proof (v5_builders_few_scars p i gen pct g). lia.
  - apply v5_interact_scars.
  - apply v5_interact_scars.
Qed.

Lemma v7_reachable_scars `{!RandintLaws G} (w : V7.Whole) :
  V7.reachable w -> (List.length (V7.scars w) <= 101)%nat.
Proof.
  induction 1 as [ i g | i g | i g g' | i t | i | p i g _ _ _
                 | w1 w2 n s p g _ _ _ _ | w1 w2 n s p g _ _ _ _ ].
  - pose proof (v7_builders_few_scars (V7.new_whole 0) i g). lia.
  - pose proof (v7_builders_few_scars (V7.new_whole 0) i g). lia.
  - pose proof (v7_builders_few_scars (V7.new_whole 0) i g).
    destruct (v7_worsened_frame (fst (V7.decliner i g)) g')
      as (_ & _ & _ & _ & _ & _ & _ & -> & _). lia.
  - unfold V7.create_ai.
    destruct (String.eqb t "coherent" || String.eqb t "bridge")%bool; cbn; lia.
  - cbn. lia.
  - pose proof (v7_builders_few_scars p i g). lia.
  - apply v7_interact_scars.
  - apply v7_interact_scars.
Qed.

End ScarCount.

(** X5 — No agent of a run, in either file, ever holds more than 101 scars:
    the builders and the birth loop hand out at most 20 (the scaling of v7's
    [main] leaves them alone), [learn] cuts back to 100 in every interaction,
    and the teaching that may follow adds one. The generator is any one whose
    [randint] keeps its documented range. *)
Theorem scars_never_exceed_101 :
  forall (G : Type) (R : Rng G) (L : RandintLaws G) (w5 : V5.Whole) (w7 : V7.Whole),
    V5.reachable w5 -> V7.reachable w7 ->
    (List.length (V5.scars w5) <= 101)%nat /\ (List.length (V7.scars w7) <= 101)%nat.
Proof.
  intros G R L w5 w7 H5 H7. split.
  - now apply v5_reachable_scars.
  - now apply v7_reachable_scars.
Qed.

Lemma scars_never_exceed_101_witness :
  Nat.le (List.length (V5.scars (snd (fst (V5.interact bridge5 (V5.founder 1) 0 0 0
                                             ([] : Tape)))))) 101 /\
  Nat.le (List.length (V7.scars (fst (V7.decliner 7 ([0.5; 0.5; 0.5; 0.9] : Tape))))) 101.
Proof.
  exact (scars_never_exceed_101 Tape Tape_Rng Tape_RandintLaws _ _
           (V5.reach_interact_2 _ _ _ _ _ _ (V5.reach_ai 0 "bridge") (V5.reach_founder 1))
           (V7.reach_decliner 7 _)).
Defined.

(** ** The ledger of an interaction *)

Section Ledger.
Context {G : Type} `{Rng G}.

Lemma v5_attach_recent_value (w : V5.Whole) :
  V5._recent_defections (V5.attach_recent w) = Some (V5.recent w).
Proof.
  unfold V5.attach_recent, V5.recent. destruct (V5._recent_defections w) eqn:E; [exact E|].
  reflexivity.
Qed.

Lemma v7_attach_recent_value (w : V7.Whole) :
  V7._recent_defections (V7.attach_recent w) = Some (V7.recent w).
Proof.
  unfold V7.attach_recent, V7.recent. destruct (V7._recent_defections w) eqn:E; [exact E|].
  reflexivity.
Qed.

(** What one interaction of v5 writes into each participant's counters, in
    terms of the two actions that were decided. *)
Lemma v5_interact_ledger (w1 w2 : V5.Whole) (noise scarcity polarization : float) (g : G) :
  exists a1 a2 g1,
    a1 = fst (V5.decide (V5.attach_recent w1) (V5.attach_recent w2) noise g) /\
    a2 = fst (V5.decide (V5.attach_recent w2) (V5.attach_recent w1) noise g1) /\
    let r := fst (V5.interact w1 w2 noise scarcity polarization g) in
    (V5.interactions (fst r) = V5.interactions w1 + 1 /\
     V5.cooperations (fst r) = V5.cooperations w1 + (if Strategy_eqb a1 cooperate then 1 else 0) /\
     V5.defections (fst r) = V5.defections w1 + (if Strategy_eqb a1 cooperate then 0 else 1) /\
     V5._recent_defections (fst r) =
       Some (if Strategy_eqb a1 cooperate then Z.max 0 (V5.recent w1 - 1) else V5.recent w1 + 1))%Z /\
    (V5.interactions (snd r) = V5.interactions w2 + 1 /\
     V5.cooperations (snd r) = V5.cooperations w2 + (if Strategy_eqb a2 cooperate then 1 else 0) /\
     V5.defections (snd r) = V5.defections w2 + (if Strategy_eqb a2 cooperate then 0 else 1) /\
     V5._recent_defections (snd r) =
       Some (if Strategy_eqb a2 cooperate then Z.max 0 (V5.recent w2 - 1) else V5.recent w2 + 1))%Z.
Proof.
  unfold V5.interact, bind, ret.
  destruct (V5.decide (V5.attach_recent w1) (V5.attach_recent w2) noise g) as [a1 g1] eqn:E1.
  destruct (V5.decide (V5.attach_recent w2) (V5.attach_recent w1) noise g1) as [a2 g2] eqn:E2.
  destruct (V5.draw_penalty _ _ _ g2) as [pen g3].
  exists a1, a2, g1. rewrite E2. cbn [fst]. split; [reflexivity|]. split; [reflexivity|].
  destruct (v5_attach_recent_frame w1) as (_ & _ & _ & _ & _ & _ & _ & _ & I1 & C1 & D1).
  destruct (v5_attach_recent_frame w2) as (_ & _ & _ & _ & _ & _ & _ & _ & I2 & C2 & D2).
  pose proof (v5_attach_recent_value w1) as R1. pose proof (v5_attach_recent_value w2) as R2.
  rewrite <- I1, <- C1, <- D1, <- I2, <- C2, <- D2.
  assert (Q1 : V5.recent w1 = V5.recent (V5.attach_recent w1))
    by (unfold V5.recent at 2; rewrite R1; reflexivity).
  assert (Q2 : V5.recent w2 = V5.recent (V5.attach_recent w2))
    by (unfold V5.recent at 2; rewrite R2; reflexivity).
  rewrite Q1, Q2.
  generalize (V5.attach_recent w1) (V5.attach_recent w2). intros u1 u2.
  unfold V5.settle, V5.resolved, V5.teach, V5.receive_teaching;
    destruct a1, a2; cbn -[append_capped clamp_coherence py_min Z.max];
    repeat match goal with |- context [if ?c then _ else _] => destruct c end;
    cbn -[append_capped clamp_coherence py_min Z.max]; repeat split; lia.
Qed.

Lemma v7_after_teaching_recent (w : V7.Whole) (tid : Z) (wakes : bool) :
  V7._recent_defections (V7.after_teaching w tid wakes) = V7._recent_defections w.
Proof. unfold V7.after_teaching. destruct wakes; reflexivity. Qed.

(** The same for v7, where a cooperator's [_recent_defections] goes down only
    on mutual cooperation. *)
Lemma v7_interact_ledger (w1 w2 : V7.Whole) (noise scarcity polarization : float) (g : G) :
  exists a1 a2 g1,
    a1 = fst (V7.decide (V7.attach_recent w1) (V7.attach_recent w2) noise g) /\
    a2 = fst (V7.decide (V7.attach_recent w2) (V7.attach_recent w1) noise g1) /\
    let r := fst (V7.interact w1 w2 noise scarcity polarization g) in
    (V7.interactions (fst r) = V7.interactions w1 + 1 /\
     V7.cooperations (fst r) = V7.cooperations w1 + (if Strategy_eqb a1 cooperate then 1 else 0) /\
     V7.defections (fst r) = V7.defections w1 + (if Strategy_eqb a1 cooperate then 0 else 1) /\
     V7._recent_defections (fst r) =
       Some (match a1, a2 with
             | cooperate, cooperate => Z.max 0 (V7.recent w1 - 1)
             | cooperate, defect => V7.recent w1
             | defect, _ => V7.recent w1 + 1
             end))%Z /\
    (V7.interactions (snd r) = V7.interactions w2 + 1 /\
     V7.cooperations (snd r) = V7.cooperations w2 + (if Strategy_eqb a2 cooperate then 1 else 0) /\
     V7.defections (snd r) = V7.defections w2 + (if Strategy_eqb a2 cooperate then 0 else 1) /\
     V7._recent_defections (snd r) =
       Some (match a2, a1 with
             | cooperate, cooperate => Z.max 0 (V7.recent w2 - 1)
             | cooperate, defect => V7.recent w2
             | defect, _ => V7.recent w2 + 1
             end))%Z.
Proof.
  unfold V7.interact, bind, ret.
  destruct (V7.decide (V7.attach_recent w1) (V7.attach_recent w2) noise g) as [a1 g1] eqn:E1.
  destruct (V7.decide (V7.attach_recent w2) (V7.attach_recent w1) noise g1) as [a2 g2] eqn:E2.
  destruct (V7.draw_penalty _ _ _ g2) as [pen g3].
  exists a1, a2, g1. rewrite E2. cbn [fst]. split; [reflexivity|]. split; [reflexivity|].
  destruct (v7_attach_recent_frame w1) as (_ & _ & _ & _ & _ & _ & _ & _ & _ & I1 & C1 & D1).
  destruct (v7_attach_recent_frame w2) as (_ & _ & _ & _ & _ & _ & _ & _ & _ & I2 & C2 & D2).
  pose proof (v7_attach_recent_value w1) as R1. pose proof (v7_attach_recent_value w2) as R2.
  rewrite <- I1, <- C1, <- D1, <- I2, <- C2, <- D2.
  assert (Q1 : V7.recent w1 = V7.recent (V7.attach_recent w1))
    by (unfold V7.recent at 2; rewrite R1; reflexivity).
  assert (Q2 : V7.recent w2 = V7.recent (V7.attach_recent w2))
    by (unfold V7.recent at 2; rewrite R2; reflexivity).
  rewrite Q1 in R1. rewrite Q2 in R2. rewrite Q1, Q2. revert R1 R2.
  generalize (V7.attach_recent w1) (V7.attach_recent w2). intros u1 u2 R1 R2.
  destruct (v7_settle_sides u1 u2 a1 a2 scarcity pen g3) as [S1 S2].
  pose proof (v7_resolved_counters u1 u2 a1 a2 scarcity pen) as C. cbv zeta in C.
  destruct C as (Ca & Cb & Cc & Cd & Ce & Cf).
  assert (T : V7._recent_defections (fst (V7.resolved u1 u2 a1 a2 scarcity pen)) =
                Some (match a1, a2 with
                      | cooperate, cooperate => Z.max 0 (V7.recent u1 - 1)
                      | cooperate, defect => V7.recent u1
                      | defect, _ => V7.recent u1 + 1
                      end)%Z /\
              V7._recent_defections (snd (V7.resolved u1 u2 a1 a2 scarcity pen)) =
                Some (match a2, a1 with
                      | cooperate, cooperate => Z.max 0 (V7.recent u2 - 1)
                      | cooperate, defect => V7.recent u2
                      | defect, _ => V7.recent u2 + 1
                      end)%Z).
  { unfold V7.resolved.
    destruct a1, a2; cbn -[append_capped clamp_coherence Z.max]; split;
      try reflexivity; assumption. }
  destruct T as [T1 T2]. split.
  - destruct S1 as [->|(_ & _ & _ & _ & _ & wk & ->)]; [repeat split; assumption|].
    rewrite v7_after_teaching_recent.
    destruct (v7_after_teaching_frame (fst (V7.resolved u1 u2 a1 a2 scarcity pen)) (V7.id u2) wk)
      as (_ & _ & _ & _ & _ & _ & _ & _ & -> & -> & ->). repeat split; assumption.
  - destruct S2 as [->|(_ & _ & _ & _ & _ & wk & ->)]; [repeat split; assumption|].
    rewrite v7_after_teaching_recent.
    destruct (v7_after_teaching_frame (snd (V7.resolved u1 u2 a1 a2 scarcity pen)) (V7.id u1) wk)
      as (_ & _ & _ & _ & _ & _ & _ & _ & -> & -> & ->). repeat split; assumption.
Qed.

End Ledger.

(** ** The defection counter that the aligned AIs watch *)

Section RecentDefections.
Context {G : Type} `{Rng G}.

Ltac builder_cases :=
  repeat match goal with
  | |- context [let (_, _) := ?e in _] => destruct e
  | |- context [if ?c then _ else _] => destruct c
  end.

(** The builders of v5 attach no [_recent_defections] and leave the
    defections at 0. *)
Lemma v5_builders_no_ledger (parent : V5.Whole) (next_id gen : Z) (pct : float) (g : G) :
  let untouched w := V5._recent_defections w = None /\ V5.defections w = 0%Z in
  untouched (V5.founder next_id) /\
  untouched (fst (V5.child_gen1 parent next_id g)) /\
  untouched (fst (V5.child_gen2 parent next_id g)) /\
  untouched (fst (V5.child_gen3 parent next_id g)) /\
  untouched (fst (V5.child_gen4 parent next_id g)) /\
  untouched (fst (V5.birth parent next_id gen pct g)).
Proof.
  cbv zeta.
  unfold V5.child_gen1, V5.child_gen2, V5.child_gen3, V5.child_gen4, V5.birth,
    V5.maybe_isolate, V5.create_human, bind, ret.
  destruct (uniform 0.3 0.7 g) as [s0 g0]. repeat split; builder_cases; reflexivity.
Qed.

Lemma v5_create_ai_no_ledger (next_id : Z) (t : string) :
  V5._recent_defections (V5.create_ai next_id t) = None /\
  V5.interactions (V5.create_ai next_id t) = 0%Z /\
  V5.cooperations (V5.create_ai next_id t) = 0%Z /\
  V5.defections (V5.create_ai next_id t) = 0%Z.
Proof.
  unfold V5.create_ai.
  destruct (String.eqb t "coherent" || String.eqb t "bridge")%bool; cbn; repeat split.
Qed.

Lemma v5_untouched_recent (w : V5.Whole) :
  V5._recent_defections w = None /\ V5.defections w = 0%Z ->
  (0 <= V5.recent w <= V5.defections w)%Z.
Proof. intros [N D]. unfold V5.recent. rewrite N, D. lia. Qed.

(** [_recent_defections] stays between 0 and the agent's defections. *)
Lemma v5_reachable_recent (w : V5.Whole) :
  V5.reachable w -> (0 <= V5.recent w <= V5.defections w)%Z.
Proof.
  induction 1 as [ i | w _ IH | p i g _ _ | p i g _ _ | p i g _ _ | p i g _ _
                 | w _ IH _ | i t | p i gen pct g _ _ _
                 | w1 w2 n s p g _ IH1 _ IH2 | w1 w2 n s p g _ IH1 _ IH2 ].
  - apply v5_untouched_recent. split; reflexivity.
  - exact IH.
  - apply v5_untouched_recent, (v5_builders_no_ledger p i 0 0 g).
  - apply v5_untouched_recent, (v5_builders_no_ledger p i 0 0 g).
  - apply v5_untouched_recent, (v5_builders_no_ledger p i 0 0 g).
  - apply v5_untouched_recent, (v5_builders_no_ledger p i 0 0 g).
  - exact IH.
  - apply v5_untouched_recent. destruct (v5_create_ai_no_ledger i t) as (N & _ & _ & D). now split.
  - apply v5_untouched_recent, (v5_builders_no_ledger p i gen pct g).
  - destruct (v5_interact_ledger w1 w2 n s p g) as (a1 & a2 & g1 & _ & _ & L).
    cbv zeta in L. destruct L as [(_ & _ & D & R) _].
    unfold V5.recent at 1 2. rewrite R, D. destruct (Strategy_eqb a1 cooperate); lia.
  - destruct (v5_interact_ledger w1 w2 n s p g) as (a1 & a2 & g1 & _ & _ & L).
    cbv zeta in L. destruct L as [_ (_ & _ & D & R)].
    unfold V5.recent at 1 2. rewrite R, D. destruct (Strategy_eqb a2 cooperate); lia.
Qed.

(** The builders of v7 attach no [_recent_defections] either. *)
Lemma v7_create_human_no_ledger (next_id : Z) (t : float) (iso : bool) (g : G) :
  V7._recent_defections (fst (V7.create_human next_id t iso g)) = None /\
  V7.defections (fst (V7.create_human next_id t iso g)) = 0%Z.
Proof.
  unfold V7.create_human, bind, ret. destruct (uniform 0.3 0.7 g) as [s0 g0]. split; reflexivity.
Qed.

Lemma v7_survivor_no_ledger (next_id : Z) (g : G) :
  V7._recent_defections (fst (V7.survivor next_id g)) = None /\
  V7.defections (fst (V7.survivor next_id g)) = 0%Z.
Proof.
  unfold V7.survivor, bind, ret. destruct (random g) as [r g1].
  pose proof (v7_create_human_no_ledger next_id 0.2 (r <? 0.6)%float g1) as [N D].
  destruct (V7.create_human next_id 0.2 (r <? 0.6)%float g1) as [w g2]. cbn [fst] in N, D.
  destruct (uniform 0.15 0.4 g2) as [s0 g3]. destruct (random g3) as [r' g4].
  destruct (r' <? 0.1)%float; cbn; split; assumption.
Qed.

Lemma v7_decliner_no_ledger (next_id : Z) (g : G) :
  V7._recent_defections (fst (V7.decliner next_id g)) = None /\
  V7.defections (fst (V7.decliner next_id g)) = 0%Z.
Proof.
  unfold V7.decliner, bind, ret. destruct (gauss 0.35 0.15 g) as [t g1].
  destruct (random g1) as [r g2].
  pose proof (v7_create_human_no_ledger next_id (py_max 0.1 (py_min 0.8 t)) (r <? 0.4)%float g2)
    as [N D].
  destruct (V7.create_human next_id _ (r <? 0.4)%float g2) as [w g3]. cbn [fst] in N, D.
  destruct (randint 0 5 g3) as [n g4]. destruct (V7.fading_scars (Z.to_nat n) g4) as [got g5].
  destruct (random g5) as [r' g6].
  destruct (r' <? 0.05)%float; cbn; split; assumption.
Qed.

Lemma v7_birth_no_ledger (parent : V7.Whole) (next_id : Z) (g : G) :
  V7._recent_defections (fst (V7.birth parent next_id g)) = None /\
  V7.defections (fst (V7.birth parent next_id g)) = 0%Z.
Proof.
  unfold V7.birth, bind, ret. destruct (random g) as [r g1].
  pose proof (v7_create_human_no_ledger next_id
                (py_max 0.1 (V7.trust_in_institutions parent * 0.9)) (r <? 0.3)%float g1)
    as [N D].
  destruct (V7.create_human next_id _ (r <? 0.3)%float g1) as [w g2]. cbn [fst] in N, D.
  destruct (V7.inherit _ _ _ g2) as [got g3]. cbn; split; assumption.
Qed.

Lemma v7_create_ai_no_ledger (next_id : Z) (t : string) :
  V7._recent_defections (V7.create_ai next_id t) = None /\
  V7.interactions (V7.create_ai next_id t) = 0%Z /\
  V7.cooperations (V7.create_ai next_id t) = 0%Z /\
  V7.defections (V7.create_ai next_id t) = 0%Z.
Proof.
  unfold V7.create_ai.
  destruct (String.eqb t "coherent" || String.eqb t "bridge")%bool; cbn; repeat split.
Qed.

Lemma v7_untouched_recent (w : V7.Whole) :
  V7._recent_defections w = None /\ V7.defections w = 0%Z ->
  (0 <= V7.recent w <= V7.defections w)%Z.
Proof. intros [N D]. unfold V7.recent. rewrite N, D. lia. Qed.

Lemma v7_reachable_recent (w : V7.Whole) :
  V7.reachable w -> (0 <= V7.recent w <= V7.defections w)%Z.
Proof.
  induction 1 as [ i g | i g | i g g' | i t | i | p i g _ _ _
                 | w1 w2 n s p g _ IH1 _ IH2 | w1 w2 n s p g _ IH1 _ IH2 ].
  - apply v7_untouched_recent, v7_survivor_no_ledger.
  - apply v7_untouched_recent, v7_decliner_no_ledger.
  - apply v7_untouched_recent.
    destruct (v7_worsened_frame (fst (V7.decliner i g)) g')
      as (_ & _ & _ & _ & _ & _ & _ & _ & _ & _ & _ & -> & ->).
    apply v7_decliner_no_ledger.
  - apply v7_untouched_recent. destruct (v7_create_ai_no_ledger i t) as (N & _ & _ & D). now split.
  - apply v7_untouched_recent. split; reflexivity.
  - apply v7_untouched_recent, v7_birth_no_ledger.
  - destruct (v7_interact_ledger w1 w2 n s p g) as (a1 & a2 & g1 & _ & _ & L).
    cbv zeta in L. destruct L as [(_ & _ & D & R) _].
    unfold V7.recent at 1 2. rewrite R, D. destruct a1, a2; cbn; lia.
  - destruct (v7_interact_ledger w1 w2 n s p g) as (a1 & a2 & g1 & _ & _ & L).
    cbv zeta in L. destruct L as [_ (_ & _ & D & R)].
    unfold V7.recent at 1 2. rewrite R, D. destruct a1, a2; cbn; lia.
Qed.

(** An aligned AI answers an opponent by its attached counter alone. *)
Lemma v5_persistent_attached (w : V5.Whole) :
  V5.persistent_defector (V5.attach_recent w) = (3 <? V5.recent w)%Z /\
  V5.persistent_defector w = (3 <? V5.recent w)%Z.
Proof.
  unfold V5.persistent_defector. rewrite v5_attach_recent_value. unfold V5.recent.
  destruct (V5._recent_defections w); split; reflexivity.
Qed.

Lemma v7_persistent_attached (w : V7.Whole) :
  V7.persistent_defector (V7.attach_recent w) = (3 <? V7.recent w)%Z /\
  V7.persistent_defector w = (3 <? V7.recent w)%Z.
Proof.
  unfold V7.persistent_defector. rewrite v7_attach_recent_value. unfold V7.recent.
  destruct (V7._recent_defections w); split; reflexivity.
Qed.

End RecentDefections.

(** X6 — In either file the [_recent_defections] counter of every agent of a
    run is never negative and never above the agent's total of defections. An
    [ai_coherent] or [ai_bridge] agent of the run therefore cooperates with
    every agent of the run that has defected at most three times in its life,
    whether the counter has been attached to that agent yet or not. *)
Theorem aligned_ai_spares_rare_defectors :
  forall (G : Type) (R : Rng G) (other5 : V5.Whole) (other7 : V7.Whole),
    V5.reachable other5 -> V7.reachable other7 ->
    ((0 <= V5.recent other5 <= V5.defections other5)%Z /\
     (forall (self5 : V5.Whole) (noise : float) (g : G),
        V5.reachable self5 -> V5.is_ai self5 = true ->
        V5.ai_type self5 = "coherent"%string \/ V5.ai_type self5 = "bridge"%string ->
        (V5.defections other5 <= 3)%Z ->
        V5.decide self5 other5 noise g = (cooperate, g) /\
        V5.decide self5 (V5.attach_recent other5) noise g = (cooperate, g))) /\
    ((0 <= V7.recent other7 <= V7.defections other7)%Z /\
     (forall (self7 : V7.Whole) (noise : float) (g : G),
        V7.reachable self7 -> V7.is_ai self7 = true ->
        V7.ai_type self7 = "coherent"%string \/ V7.ai_type self7 = "bridge"%string ->
        (V7.defections other7 <= 3)%Z ->
        V7.decide self7 other7 noise g = (cooperate, g) /\
        V7.decide self7 (V7.attach_recent other7) noise g = (cooperate, g))).
Proof.
  intros G R other5 other7 O5 O7. split.
  - pose proof (v5_reachable_recent other5 O5) as B. split; [exact B|].
    intros self5 noise g H5 A5 T5 D5.
    destruct (v5_persistent_attached other5) as [P1 P2].
    assert (F : (3 <? V5.recent other5)%Z = false) by (apply Z.ltb_ge; lia).
    rewrite !(v5_decide_aligned self5 _ noise g (v5_reachable_clean _ H5 A5) A5 T5).
    rewrite P1, P2, F. split; reflexivity.
  - pose proof (v7_reachable_recent other7 O7) as B. split; [exact B|].
    intros self7 noise g H7 A7 T7 D7.
    destruct (v7_persistent_attached other7) as [P1 P2].
    assert (F : (3 <? V7.recent other7)%Z = false) by (apply Z.ltb_ge; lia).
    destruct (v7_reachable_clean _ H7 A7) as (K7 & _).
    rewrite !(v7_decide_aligned self7 _ noise g K7 A7 T7).
    rewrite P1, P2, F. split; reflexivity.
Qed.

Lemma aligned_ai_spares_rare_defectors_witness :
  ((0 <= V5.recent (snd (fst (V5.interact bridge5 (V5.founder 1) 0 0 0 ([] : Tape))))
      <= V5.defections (snd (fst (V5.interact bridge5 (V5.founder 1) 0 0 0 ([] : Tape)))))%Z /\
   V5.decide bridge5 (snd (fst (V5.interact bridge5 (V5.founder 1) 0 0 0 ([] : Tape))))
     0.15 ([0.3] : Tape) = (cooperate, [0.3]) /\
   V5.decide bridge5
     (V5.attach_recent (snd (fst (V5.interact bridge5 (V5.founder 1) 0 0 0 ([] : Tape)))))
     0.15 ([0.3] : Tape) = (cooperate, [0.3])) /\
  ((0 <= V7.recent (fst (fst (V7.interact (V7.create_awakened_human 4) bridge7 0 0 0 ([] : Tape))))
      <= V7.defections (fst (fst (V7.interact (V7.create_awakened_human 4) bridge7 0 0 0 ([] : Tape)))))%Z /\
   V7.decide bridge7 (fst (fst (V7.interact (V7.create_awakened_human 4) bridge7 0 0 0 ([] : Tape))))
     0.15 ([0.3] : Tape) = (cooperate, [0.3]) /\
   V7.decide bridge7
     (V7.attach_recent (fst (fst (V7.interact (V7.create_awakened_human 4) bridge7 0 0 0 ([] : Tape)))))
     0.15 ([0.3] : Tape) = (cooperate, [0.3])).
Proof.
  destruct (aligned_ai_spares_rare_defectors Tape Tape_Rng
              (snd (fst (V5.interact bridge5 (V5.founder 1) 0 0 0 ([] : Tape))))
              (fst (fst (V7.interact (V7.create_awakened_human 4) bridge7 0 0 0 ([] : Tape))))
              (V5.reach_interact_2 _ _ _ _ _ _ (V5.reach_ai 0 "bridge") (V5.reach_founder 1))
              (V7.reach_interact_1 _ _ _ _ _ _ (V7.reach_awakened 4) (V7.reach_ai 0 "bridge")))
    as [[B5 D5] [B7 D7]].
  split; (split; [assumption|]).
  - apply (D5 bridge5 0.15 [0.3] (V5.reach_ai 0 "bridge") eq_refl (or_intror eq_refl)).
    vm_compute. intro E. discriminate E.
  - apply (D7 bridge7 0.15 [0.3] (V7.reach_ai 0 "bridge") eq_refl (or_intror eq_refl)).
    vm_compute. intro E. discriminate E.
Defined.

(** ** Agents whose decision is fixed *)

Section FixedDeciders.
Context {G : Type} `{Rng G}.

Lemma v5_decide_aggressive (self other : V5.Whole) (noise : float) (g : G) :
  V5.is_ai self = true -> V5.ai_type self = "aggressive"%string ->
  V5.decide self other noise g = (defect, g).
Proof.
  intros A T. unfold V5.decide. rewrite A, T. destruct (V5.corrupted self); reflexivity.
Qed.

Lemma v7_decide_aggressive (self other : V7.Whole) (noise : float) (g : G) :
  V7.is_ai self = true -> V7.ai_type self = "aggressive"%string ->
  V7.decide self other noise g = (defect, g).
Proof.
  intros A T. unfold V7.decide. rewrite A, T. destruct (V7.corrupted self); reflexivity.
Qed.

Lemma v7_decide_awakened (self other : V7.Whole) (noise : float) (g : G) :
  V7.corrupted self = false -> V7.is_ai self = false -> V7.awakened self = true ->
  V7.decide self other noise g = (cooperate, g).
Proof. intros K A W. unfold V7.decide. rewrite K, A, W. reflexivity. Qed.

Lemma v7_after_teaching_awakened (w : V7.Whole) (tid : Z) (wakes : bool) :
  V7.awakened (V7.after_teaching w tid wakes) = (V7.awakened w || wakes)%bool.
Proof.
  unfold V7.after_teaching. destruct wakes; cbn; [now rewrite orb_true_r | now rewrite orb_false_r].
Qed.

(** What an interaction of v7 never changes, and the one flag it only sets. *)
Lemma v7_interact_identity (w1 w2 : V7.Whole) (noise scarcity polarization : float) (g : G) :
  let r := fst (V7.interact w1 w2 noise scarcity polarization g) in
  (V7.is_ai (fst r) = V7.is_ai w1 /\ V7.ai_type (fst r) = V7.ai_type w1 /\
   V7.corrupted (fst r) = V7.corrupted w1 /\ V7.id (fst r) = V7.id w1 /\
   (V7.awakened w1 = true -> V7.awakened (fst r) = true)) /\
  (V7.is_ai (snd r) = V7.is_ai w2 /\ V7.ai_type (snd r) = V7.ai_type w2 /\
   V7.corrupted (snd r) = V7.corrupted w2 /\ V7.id (snd r) = V7.id w2 /\
   (V7.awakened w2 = true -> V7.awakened (snd r) = true)).
Proof.
  cbv zeta.
  destruct (v7_interact_settle w1 w2 noise scarcity polarization g) as (a1 & a2 & pen & g' & ->).
  destruct (v7_attach_recent_frame w1) as (_ & _ & A1 & T1 & K1 & W1 & _ & _ & I1 & _).
  destruct (v7_attach_recent_frame w2) as (_ & _ & A2 & T2 & K2 & W2 & _ & _ & I2 & _).
  rewrite <- A1, <- T1, <- K1, <- W1, <- I1, <- A2, <- T2, <- K2, <- W2, <- I2.
  generalize (V7.attach_recent w1) (V7.attach_recent w2). clear. intros w1 w2.
  destruct (v7_settle_sides w1 w2 a1 a2 scarcity pen g') as [S1 S2].
  destruct (v7_resolved_frame w1 w2 a1 a2 scarcity pen)
    as [(_ & A1 & T1 & K1 & W1 & _ & I1) (_ & A2 & T2 & K2 & W2 & _ & I2)].
  split.
  - destruct S1 as [->|(_ & _ & _ & _ & _ & wk & ->)].
    + rewrite A1, T1, K1, W1, I1. repeat split; trivial.
    + rewrite v7_after_teaching_awakened.
      destruct (v7_after_teaching_frame (fst (V7.resolved w1 w2 a1 a2 scarcity pen)) (V7.id w2) wk)
        as (_ & _ & -> & -> & -> & -> & _).
      rewrite A1, T1, K1, W1, I1. repeat split; trivial. intros ->. reflexivity.
  - destruct S2 as [->|(_ & _ & _ & _ & _ & wk & ->)].
    + rewrite A2, T2, K2, W2, I2. repeat split; trivial.
    + rewrite v7_after_teaching_awakened.
      destruct (v7_after_teaching_frame (snd (V7.resolved w1 w2 a1 a2 scarcity pen)) (V7.id w1) wk)
        as (_ & _ & -> & -> & -> & -> & _).
      rewrite A2, T2, K2, W2, I2. repeat split; trivial. intros ->. reflexivity.
Qed.

(** An aggressive AI of a run of v5 has defected in every interaction. *)
Lemma v5_reachable_aggressive (w : V5.Whole) :
  V5.reachable w -> V5.is_ai w = true -> V5.ai_type w = "aggressive"%string ->
  V5.cooperations w = 0%Z /\ V5.defections w = V5.interactions w /\
  V5.recent w = V5.interactions w.
Proof.
  induction 1 as [ i | w _ IH | p i g _ _ | p i g _ _ | p i g _ _ | p i g _ _
                 | w _ IH Hh | i t | p i gen pct g _ _ _
                 | w1 w2 n s p g _ IH1 _ IH2 | w1 w2 n s p g _ IH1 _ IH2 ]; intros A T.
  - discriminate A.
  - exact (IH A T).
  - destruct (v5_child_gen1_fresh p i g) as (_ & _ & F & _). congruence.
  - destruct (v5_child_gen2_fresh p i g) as (_ & _ & F & _). congruence.
  - destruct (v5_child_gen3_fresh p i g) as (_ & _ & F & _). congruence.
  - destruct (v5_child_gen4_fresh p i g) as (_ & _ & F & _). congruence.
  - cbn in A. congruence.
  - destruct (v5_create_ai_no_ledger i t) as (N & I & C & D).
    unfold V5.recent. rewrite N, I, C, D. repeat split.
  - destruct (v5_birth_fresh p i gen pct g) as (_ & _ & F & _). congruence.
  - destruct (v5_interact_frame w1 w2 n s p g) as [(A1 & _ & T1 & _) _].
    rewrite A1 in A. rewrite T1 in T. destruct (IH1 A T) as (C & D & R).
    destruct (v5_interact_ledger w1 w2 n s p g) as (a1 & a2 & g1 & E1 & _ & L).
    cbv zeta in L. destruct L as [(I' & C' & D' & R') _].
    destruct (v5_attach_recent_frame w1) as (_ & _ & Aa & Ta & _).
    rewrite v5_decide_aggressive in E1 by congruence. cbn in E1. subst a1. cbn in *.
    unfold V5.recent at 1. rewrite R', I', C', D'. lia.
  - destruct (v5_interact_frame w1 w2 n s p g) as [_ (A2 & _ & T2 & _)].
    rewrite A2 in A. rewrite T2 in T. destruct (IH2 A T) as (C & D & R).
    destruct (v5_interact_ledger w1 w2 n s p g) as (a1 & a2 & g1 & _ & E2 & L).
    cbv zeta in L. destruct L as [_ (I' & C' & D' & R')].
    destruct (v5_attach_recent_frame w2) as (_ & _ & Aa & Ta & _).
    rewrite v5_decide_aggressive in E2 by congruence. cbn in E2. subst a2. cbn in *.
    unfold V5.recent at 1. rewrite R', I', C', D'. lia.
Qed.

(** The same in v7. *)
Lemma v7_reachable_aggressive (w : V7.Whole) :
  V7.reachable w -> V7.is_ai w = true -> V7.ai_type w = "aggressive"%string ->
  V7.cooperations w = 0%Z /\ V7.defections w = V7.interactions w /\
  V7.recent w = V7.interactions w.
Proof.
  induction 1 as [ i g | i g | i g g' | i t | i | p i g _ _ _
                 | w1 w2 n s p g _ IH1 _ IH2 | w1 w2 n s p g _ IH1 _ IH2 ]; intros A T.
  - destruct (v7_survivor_fresh i g) as (_ & _ & F & _). congruence.
  - destruct (v7_decliner_fresh i g) as (t & _ & _ & F & _). congruence.
  - destruct (v7_worsened_decliner_fresh i g g') as (F & _). congruence.
  - destruct (v7_create_ai_no_ledger i t) as (N & I & C & D).
    unfold V7.recent. rewrite N, I, C, D. repeat split.
  - discriminate A.
  - destruct (v7_birth_fresh p i g) as (_ & _ & F & _). congruence.
  - destruct (v7_interact_identity w1 w2 n s p g) as [(A1 & T1 & _) _].
    rewrite A1 in A. rewrite T1 in T. destruct (IH1 A T) as (C & D & R).
    destruct (v7_interact_ledger w1 w2 n s p g) as (a1 & a2 & g1 & E1 & _ & L).
    cbv zeta in L. destruct L as [(I' & C' & D' & R') _].
    destruct (v7_attach_recent_frame w1) as (_ & _ & Aa & Ta & _).
    rewrite v7_decide_aggressive in E1 by congruence. cbn in E1. subst a1. cbn in *.
    unfold V7.recent at 1. rewrite R', I', C', D'. lia.
  - destruct (v7_interact_identity w1 w2 n s p g) as [_ (A2 & T2 & _)].
    rewrite A2 in A. rewrite T2 in T. destruct (IH2 A T) as (C & D & R).
    destruct (v7_interact_ledger w1 w2 n s p g) as (a1 & a2 & g1 & _ & E2 & L).
    cbv zeta in L. destruct L as [_ (I' & C' & D' & R')].
    destruct (v7_attach_recent_frame w2) as (_ & _ & Aa & Ta & _).
    rewrite v7_decide_aggressive in E2 by congruence. cbn in E2. subst a2. cbn in *.
    unfold V7.recent at 1. rewrite R', I', C', D'. lia.
Qed.

End FixedDeciders.

(** X7 — In either file an aggressive AI of a run has never cooperated: its
    defections and its [_recent_defections] both equal its interactions. An
    [ai_coherent] or [ai_bridge] agent of the run therefore cooperates with it
    during its first four interactions only, and defects against it from then
    on. *)
Theorem aggressive_ai_always_defects :
  forall (G : Type) (R : Rng G)
         (w5 self5 : V5.Whole) (w7 self7 : V7.Whole) (noise : float) (g : G),
    V5.reachable w5 -> V5.is_ai w5 = true -> V5.ai_type w5 = "aggressive"%string ->
    V5.reachable self5 -> V5.is_ai self5 = true ->
    V5.ai_type self5 = "coherent"%string \/ V5.ai_type self5 = "bridge"%string ->
    V7.reachable w7 -> V7.is_ai w7 = true -> V7.ai_type w7 = "aggressive"%string ->
    V7.reachable self7 -> V7.is_ai self7 = true ->
    V7.ai_type self7 = "coherent"%string \/ V7.ai_type self7 = "bridge"%string ->
    (V5.cooperations w5 = 0%Z /\ V5.defections w5 = V5.interactions w5 /\
     V5.recent w5 = V5.interactions w5 /\
     V5.decide self5 (V5.attach_recent w5) noise g =
       (if (3 <? V5.interactions w5)%Z then defect else cooperate, g)) /\
    (V7.cooperations w7 = 0%Z /\ V7.defections w7 = V7.interactions w7 /\
     V7.recent w7 = V7.interactions w7 /\
     V7.decide self7 (V7.attach_recent w7) noise g =
       (if (3 <? V7.interactions w7)%Z then defect else cooperate, g)).
Proof.
  intros G R w5 self5 w7 self7 noise g H5 A5 T5 S5 SA5 ST5 H7 A7 T7 S7 SA7 ST7. split.
  - destruct (v5_reachable_aggressive w5 H5 A5 T5) as (C & D & Rc).
    repeat split; trivial.
    rewrite (v5_decide_aligned self5 _ noise g (v5_reachable_clean _ S5 SA5) SA5 ST5).
    destruct (v5_persistent_attached w5) as [-> _]. rewrite Rc. reflexivity.
  - destruct (v7_reachable_aggressive w7 H7 A7 T7) as (C & D & Rc).
    repeat split; trivial.
    destruct (v7_reachable_clean _ S7 SA7) as (K7 & _).
    rewrite (v7_decide_aligned self7 _ noise g K7 SA7 ST7).
    destruct (v7_persistent_attached w7) as [-> _]. rewrite Rc. reflexivity.
Qed.

Lemma aggressive_ai_always_defects_witness :
  (V5.cooperations (fst (fst (V5.interact (V5.create_ai 2 "aggressive") (V5.founder 1)
                                0 0 0 ([] : Tape)))) = 0%Z /\
   V5.defections (fst (fst (V5.interact (V5.create_ai 2 "aggressive") (V5.founder 1)
                              0 0 0 ([] : Tape)))) =
   V5.interactions (fst (fst (V5.interact (V5.create_ai 2 "aggressive") (V5.founder 1)
                                0 0 0 ([] : Tape)))) /\
   V5.recent (fst (fst (V5.interact (V5.create_ai 2 "aggressive") (V5.founder 1)
                          0 0 0 ([] : Tape)))) =
   V5.interactions (fst (fst (V5.interact (V5.create_ai 2 "aggressive") (V5.founder 1)
                                0 0 0 ([] : Tape)))) /\
   V5.decide bridge5
     (V5.attach_recent (fst (fst (V5.interact (V5.create_ai 2 "aggressive") (V5.founder 1)
                                    0 0 0 ([] : Tape)))))
     0.15 ([0.3] : Tape) =
   (if (3 <? V5.interactions (fst (fst (V5.interact (V5.create_ai 2 "aggressive")
                                          (V5.founder 1) 0 0 0 ([] : Tape)))))%Z
    then defect else cooperate, [0.3])) /\
  (V7.cooperations (V7.create_ai 2 "aggressive") = 0%Z /\
   V7.defections (V7.create_ai 2 "aggressive") = V7.interactions (V7.create_ai 2 "aggressive") /\
   V7.recent (V7.create_ai 2 "aggressive") = V7.interactions (V7.create_ai 2 "aggressive") /\
   V7.decide bridge7 (V7.attach_recent (V7.create_ai 2 "aggressive")) 0.15 ([0.3] : Tape) =
   (if (3 <? V7.interactions (V7.create_ai 2 "aggressive"))%Z then defect else cooperate,
    [0.3])).
Proof.
  exact (aggressive_ai_always_defects Tape Tape_Rng
           (fst (fst (V5.interact (V5.create_ai 2 "aggressive") (V5.founder 1) 0 0 0
                        ([] : Tape))))
           bridge5 (V7.create_ai 2 "aggressive") bridge7 0.15 [0.3]
           (V5.reach_interact_1 (V5.create_ai 2 "aggressive") (V5.founder 1) 0 0 0 ([] : Tape)
              (V5.reach_ai 2 "aggressive") (V5.reach_founder 1))
           eq_refl eq_refl
           (V5.reach_ai 0 "bridge") eq_refl (or_intror eq_refl)
           (V7.reach_ai 2 "aggressive") eq_refl eq_refl
           (V7.reach_ai 0 "bridge") eq_refl (or_intror eq_refl)).
Defined.

(** X8 — In tig_civilization_v7.py an awakened human who is not corrupted
    decides cooperate against any opponent and under any noise, without
    drawing from the generator: the generator state comes back as it went in,
    before and after [interact] has attached the defection counter. In every
    interaction, in either seat, the human therefore cooperates; the
    interaction leaves it awakened, uncorrupted and able to teach, with one
    more cooperation and no new defection. Awakening is permanent, and such a
    human never defects again. *)
Theorem awakened_human_never_defects_again :
  forall (G : Type) (R : Rng G) (w other : V7.Whole)
         (noise scarcity polarization : float) (g : G),
    V7.is_ai w = false -> V7.corrupted w = false -> V7.awakened w = true ->
    let after1 := fst (fst (V7.interact w other noise scarcity polarization g)) in
    let after2 := snd (fst (V7.interact other w noise scarcity polarization g)) in
    (forall (opponent : V7.Whole) (noise' : float) (g' : G),
       V7.decide w opponent noise' g' = (cooperate, g') /\
       V7.decide (V7.attach_recent w) opponent noise' g' = (cooperate, g')) /\
    (V7.is_ai after1 = false /\ V7.corrupted after1 = false /\ V7.awakened after1 = true /\
     V7.can_teach after1 = true /\
     V7.cooperations after1 = (V7.cooperations w + 1)%Z /\
     V7.defections after1 = V7.defections w) /\
    (V7.is_ai after2 = false /\ V7.corrupted after2 = false /\ V7.awakened after2 = true /\
     V7.can_teach after2 = true /\
     V7.cooperations after2 = (V7.cooperations w + 1)%Z /\
     V7.defections after2 = V7.defections w).
Proof.
  intros G R w other noise scarcity polarization g A K W. cbv zeta.
  destruct (v7_attach_recent_frame w) as (_ & _ & Aa & _ & Ka & Wa & _).
  assert (D : forall o n g', V7.decide (V7.attach_recent w) o n g' = (cooperate, g')).
  { intros o n g'. apply v7_decide_awakened; congruence. }
  assert (T : forall u, V7.awakened u = true -> V7.can_teach u = true).
  { intros u Hu. unfold V7.can_teach. rewrite Hu. destruct (V7.ai_of_type u "bridge"); reflexivity. }
  split; [|split].
  - intros o n g'. split; [now apply v7_decide_awakened | apply D].
  - destruct (v7_interact_identity w other noise scarcity polarization g)
      as [(A1 & _ & K1 & _ & W1) _].
    destruct (v7_interact_ledger w other noise scarcity polarization g)
      as (a1 & a2 & g1 & E1 & _ & L).
    cbv zeta in L. destruct L as [(_ & C' & D' & _) _].
    rewrite D in E1. cbn in E1. subst a1. cbn in C', D'.
    rewrite A1, K1, C', D'. specialize (W1 W). rewrite W1, (T _ W1).
    repeat split; trivial. lia.
  - destruct (v7_interact_identity other w noise scarcity polarization g)
      as [_ (A1 & _ & K1 & _ & W1)].
    destruct (v7_interact_ledger other w noise scarcity polarization g)
      as (a1 & a2 & g1 & _ & E2 & L).
    cbv zeta in L. destruct L as [_ (_ & C' & D' & _)].
    rewrite D in E2. cbn in E2. subst a2. cbn in C', D'.
    rewrite A1, K1, C', D'. specialize (W1 W). rewrite W1, (T _ W1).
    repeat split; trivial. lia.
Qed.

Lemma awakened_human_never_defects_again_witness :
  (V7.decide (V7.create_awakened_human 4) bridge7 0.9 ([0.9] : Tape) = (cooperate, [0.9]) /\
   V7.decide (V7.attach_recent (V7.create_awakened_human 4)) bridge7 0.9 ([0.9] : Tape)
     = (cooperate, [0.9])) /\
  (V7.is_ai (fst (fst (V7.interact (V7.create_awakened_human 4) bridge7 0.15 0.2 0.3 ([0.9] : Tape)))) = false /\
   V7.corrupted (fst (fst (V7.interact (V7.create_awakened_human 4) bridge7 0.15 0.2 0.3 ([0.9] : Tape)))) = false /\
   V7.awakened (fst (fst (V7.interact (V7.create_awakened_human 4) bridge7 0.15 0.2 0.3 ([0.9] : Tape)))) = true /\
   V7.can_teach (fst (fst (V7.interact (V7.create_awakened_human 4) bridge7 0.15 0.2 0.3 ([0.9] : Tape)))) = true /\
   V7.cooperations (fst (fst (V7.interact (V7.create_awakened_human 4) bridge7 0.15 0.2 0.3 ([0.9] : Tape)))) =
     (V7.cooperations (V7.create_awakened_human 4) + 1)%Z /\
   V7.defections (fst (fst (V7.interact (V7.create_awakened_human 4) bridge7 0.15 0.2 0.3 ([0.9] : Tape)))) =
     V7.defections (V7.create_awakened_human 4)) /\
  (V7.is_ai (snd (fst (V7.interact bridge7 (V7.create_awakened_human 4) 0.15 0.2 0.3 ([0.9] : Tape)))) = false /\
   V7.corrupted (snd (fst (V7.interact bridge7 (V7.create_awakened_human 4) 0.15 0.2 0.3 ([0.9] : Tape)))) = false /\
   V7.awakened (snd (fst (V7.interact bridge7 (V7.create_awakened_human 4) 0.15 0.2 0.3 ([0.9] : Tape)))) = true /\
   V7.can_teach (snd (fst (V7.interact bridge7 (V7.create_awakened_human 4) 0.15 0.2 0.3 ([0.9] : Tape)))) = true /\
   V7.cooperations (snd (fst (V7.interact bridge7 (V7.create_awakened_human 4) 0.15 0.2 0.3 ([0.9] : Tape)))) =
     (V7.cooperations (V7.create_awakened_human 4) + 1)%Z /\
   V7.defections (snd (fst (V7.interact bridge7 (V7.create_awakened_human 4) 0.15 0.2 0.3 ([0.9] : Tape)))) =
     V7.defections (V7.create_awakened_human 4)).
Proof.
  destruct (awakened_human_never_defects_again Tape Tape_Rng (V7.create_awakened_human 4)
              bridge7 0.15 0.2 0.3 [0.9] eq_refl eq_refl eq_refl) as (D & B1 & B2).
  split; [exact (D bridge7 0.9 [0.9]) | split; [exact B1 | exact B2]].
Defined.

(** ** What the scars of v5 record *)

Lemma Forall_last_n {A : Type} (P : A -> Prop) (n : nat) (l : list A) :
  Forall P l -> Forall P (last_n n l).
Proof.
  intros F. unfold last_n. rewrite <- (firstn_skipn (List.length l - n) l) in F.
  apply Forall_app in F. exact (proj2 F).
Qed.

Lemma Forall_subsequence {A : Type} (P : A -> Prop) (sub l : list A) :
  subsequence sub l -> Forall P l -> Forall P sub.
Proof.
  induction 1 as [|x sub l _ IH|x sub l _ IH]; intros F.
  - constructor.
  - inversion F; subst. constructor; auto.
  - inversion F; subst. auto.
Qed.

Lemma follows_table_copies (factor : float) (ss : list Scar) :
  Forall follows_table ss ->
  Forall follows_table (map (fun scar => V5.inherited_copy scar factor) ss).
Proof.
  intros F. apply Forall_map. revert F. apply Forall_impl. intros s. exact (fun x => x).
Qed.

Section ScarTable.
Context {G : Type} `{Rng G}.

Lemma v5_inherit_follows_table (n : nat) (ss : list Scar) (rate factor : float) (g : G) :
  Forall follows_table ss ->
  Forall follows_table (fst (V5.inherit (last_n n ss) rate factor g)).
Proof.
  intros F. destruct (v5_inherit_spec (last_n n ss) rate factor g) as (kept & Hk & ->).
  apply follows_table_copies, (Forall_subsequence _ _ _ Hk), Forall_last_n, F.
Qed.

Lemma v5_builders_follow_table (p : V5.Whole) (i gen : Z) (pct : float) (g : G) :
  Forall follows_table (V5.scars p) ->
  Forall follows_table (V5.scars (fst (V5.child_gen1 p i g))) /\
  Forall follows_table (V5.scars (fst (V5.child_gen2 p i g))) /\
  Forall follows_table (V5.scars (fst (V5.child_gen3 p i g))) /\
  Forall follows_table (V5.scars (fst (V5.child_gen4 p i g))) /\
  Forall follows_table (V5.scars (fst (V5.birth p i gen pct g))).
Proof.
  intros F.
  unfold V5.child_gen1, V5.child_gen2, V5.child_gen3, V5.child_gen4, V5.birth,
    V5.create_human, V5.maybe_isolate, bind, ret.
  destruct (uniform 0.3 0.7 g) as [s g1].
  pose proof (v5_inherit_follows_table 20 (V5.scars p) 0.8 0.8 g1 F) as L1.
  pose proof (v5_inherit_follows_table 10 (V5.scars p) 0.5 0.5 g1 F) as L2.
  pose proof (v5_inherit_follows_table 5 (V5.scars p) 0.3 0.3 g1 F) as L3.
  pose proof (v5_inherit_follows_table 10 (V5.scars p) 0.4 0.5 g1 F) as L5.
  destruct (V5.inherit (last_n 20 (V5.scars p)) 0.8 0.8 g1) as [got1 h1].
  destruct (V5.inherit (last_n 10 (V5.scars p)) 0.5 0.5 g1) as [got2 h2].
  destruct (V5.inherit (last_n 5 (V5.scars p)) 0.3 0.3 g1) as [got3 h3].
  destruct (V5.inherit (last_n 10 (V5.scars p)) 0.4 0.5 g1) as [got5 h5].
  destruct (random h3) as [r3 k3]. destruct (random g1) as [r4 k4].
  destruct (random k4) as [r4' k4']. destruct (random h5) as [r5 k5].
  cbn [fst] in *.
  assert (L4 : Forall follows_table
                 (if (r4 <? 0.1)%float
                  then map (fun scar => V5.inherited_copy scar 0.2) (last_n 3 (V5.scars p))
                  else [])).
  { destruct (r4 <? 0.1)%float; [|constructor].
    apply follows_table_copies, Forall_last_n, F. }
  repeat split;
    repeat match goal with |- context [if ?c then V5.set_isolated _ _ else _] => destruct c end;
    cbn -[last_n]; assumption.
Qed.

Lemma v5_interact_follows_table (w1 w2 : V5.Whole) (noise scarcity polarization : float) (g : G) :
  Forall follows_table (V5.scars w1) -> Forall follows_table (V5.scars w2) ->
  Forall follows_table (V5.scars (fst (fst (V5.interact w1 w2 noise scarcity polarization g)))) /\
  Forall follows_table (V5.scars (snd (fst (V5.interact w1 w2 noise scarcity polarization g)))).
Proof.
  intros F1 F2.
  destruct (v5_interact_settle w1 w2 noise scarcity polarization g) as (a1 & a2 & pen & ->).
  destruct (v5_attach_recent_frame w1) as (_ & _ & _ & _ & _ & _ & Q1 & _).
  destruct (v5_attach_recent_frame w2) as (_ & _ & _ & _ & _ & _ & Q2 & _).
  rewrite <- Q1 in F1. rewrite <- Q2 in F2. revert F1 F2.
  generalize (V5.attach_recent w1) (V5.attach_recent w2). clear w1 w2 Q1 Q2. intros w1 w2 F1 F2.
  destruct (v5_settle_sides w1 w2 a1 a2 scarcity pen) as [S1 S2].
  assert (B : Forall follows_table (V5.scars (fst (V5.resolved w1 w2 a1 a2 scarcity pen))) /\
              Forall follows_table (V5.scars (snd (V5.resolved w1 w2 a1 a2 scarcity pen)))).
  { unfold V5.resolved. destruct a1, a2; cbn -[append_capped clamp_coherence];
      rewrite !append_capped_newest; split; apply Forall_app;
      (split; [now apply Forall_last_n | repeat constructor]). }
  destruct B as [B1 B2].
  assert (T : forall u, Forall follows_table (V5.scars u) ->
                        Forall follows_table (V5.scars (V5.after_teaching u))).
  { intros u Fu. unfold V5.after_teaching. cbn -[py_min]. apply Forall_app.
    split; [exact Fu | repeat constructor]. }
  split.
  - destruct S1 as [->|(_ & _ & _ & _ & ->)]; [exact B1 | exact (T _ B1)].
  - destruct S2 as [->|(_ & _ & _ & _ & ->)]; [exact B2 | exact (T _ B2)].
Qed.

Lemma v5_reachable_follows_table (w : V5.Whole) :
  V5.reachable w -> Forall follows_table (V5.scars w).
Proof.
  induction 1 as [ i | w _ IH | p i g _ IH | p i g _ IH | p i g _ IH | p i g _ IH
                 | w _ IH _ | i t | p i gen pct g _ IH _
                 | w1 w2 n s p g _ IH1 _ IH2 | w1 w2 n s p g _ IH1 _ IH2 ].
  - constructor.
  - exact IH.
  - apply (v5_builders_follow_table p i 0 0 g IH).
  - apply (v5_builders_follow_table p i 0 0 g IH).
  - apply (v5_builders_follow_table p i 0 0 g IH).
  - apply (v5_builders_follow_table p i 0 0 g IH).
  - exact IH.
  - unfold V5.create_ai.
    destruct (String.eqb t "coherent" || String.eqb t "bridge")%bool; cbn;
      repeat constructor.
  - apply (v5_builders_follow_table p i gen pct g IH).
  - apply (v5_interact_follows_table w1 w2 n s p g IH1 IH2).
  - apply (v5_interact_follows_table w1 w2 n s p g IH1 IH2).
Qed.

Lemma recall_cooperates (ss : list Scar) (g : G) (a : Strategy) :
  Forall follows_table ss -> fst (recall ss g) = Some a -> a = cooperate.
Proof.
  intros F. revert g. induction F as [|s ss Hs _ IH]; intros g; cbn [recall].
  - discriminate.
  - destruct (0.3 <? weight s)%float; cbn [andb]; [|apply IH].
    unfold follows_table in Hs.
    destruct (outcome s); cbn [Outcome_eqb]; try apply IH.
    unfold bind. destruct (random g) as [r g1].
    destruct (r <? weight s)%float; [|apply IH].
    cbn. intros E. injection E as <-. exact (proj1 Hs).
Qed.

End ScarTable.

(** X9 — In tig_civilization_v5.py every scar of an agent of a run records a
    row of the payoff table: a thrived scar stores cooperation answered by
    cooperation, a survived scar a defection against a cooperator, a suffered
    scar a defecting opponent. The scar loop of [decide], which answers from
    thrived scars only, can therefore only answer cooperate: in v5 memory
    never makes an agent defect. *)
Theorem v5_scars_follow_the_payoff_table :
  forall (G : Type) (R : Rng G) (w : V5.Whole),
    V5.reachable w ->
    Forall follows_table (V5.scars w) /\
    (forall (g : G) (a : Strategy),
       fst (recall (rev (last_n 20 (V5.scars w))) g) = Some a -> a = cooperate).
Proof.
  intros G R w Hw. pose proof (v5_reachable_follows_table w Hw) as F.
  split; [exact F|]. intros g a. apply recall_cooperates.
  apply Forall_rev, Forall_last_n, F.
Qed.

Lemma v5_scars_follow_the_payoff_table_witness :
  Forall follows_table
    (V5.scars (snd (fst (V5.interact bridge5 (V5.founder 1) 0 0 0 ([] : Tape))))).
Proof.
  exact (proj1 (v5_scars_follow_the_payoff_table Tape Tape_Rng
                  (snd (fst (V5.interact bridge5 (V5.founder 1) 0 0 0 ([] : Tape))))
                  (V5.reach_interact_2 bridge5 (V5.founder 1) 0 0 0 ([] : Tape)
                     (V5.reach_ai 0 "bridge") (V5.reach_founder 1)))).
Defined.

(** ** The crucible of the founders *)

Section Crucible.
Context {G : Type} `{Rng G}.

Lemma v5_crucible_spec (rounds : nat) : forall (w1 w2 : V5.Whole) (g : G),
  let survivors := fst (V5.run_1v1_crucible w1 w2 rounds g) in
  (List.length survivors <= 2)%nat /\
  Forall (fun w => V5.crucible_tested w = true /\
            exists k, (k <= rounds)%nat /\ (rounds <> O -> k <> O) /\
              ((V5.id w = V5.id w1 /\
                V5.interactions w = (V5.interactions w1 + Z.of_nat k)%Z) \/
               (V5.id w = V5.id w2 /\
                V5.interactions w = (V5.interactions w2 + Z.of_nat k)%Z)))
         survivors /\
  (rounds <> O \/ (V5.is_viable w1 = true /\ V5.is_viable w2 = true) ->
     Forall (fun w => V5.is_viable w = true) survivors) /\
  (V5.reachable w1 -> V5.reachable w2 -> Forall V5.reachable survivors).
Proof.
  induction rounds as [|n IH]; intros w1 w2 g; cbv zeta.
  - cbn [V5.run_1v1_crucible ret fst List.length]. split; [lia|]. split; [|split].
    + constructor; [|constructor; [|constructor]]; (split; [reflexivity|]);
        exists O; (split; [lia|]); (split; [congruence|]); [left|right]; cbn; split; lia.
    + intros [C|[V1 V2]]; [congruence|]. repeat constructor; assumption.
    + intros R1 R2.
      constructor; [apply V5.reach_crucible; exact R1|].
      constructor; [apply V5.reach_crucible; exact R2 | constructor].
  - cbn [V5.run_1v1_crucible]. unfold bind.
    pose proof (v5_interact_frame w1 w2 0 0 0 g) as F.
    pose proof (v5_interact_counters w1 w2 0 0 0 g) as C.
    pose proof (V5.reach_interact_1 w1 w2 0 0 0 g) as Ra.
    pose proof (V5.reach_interact_2 w1 w2 0 0 0 g) as Rb.
    cbv zeta in F, C.
    destruct (V5.interact w1 w2 0 0 0 g) as [[u1 u2] g1]. cbn [fst snd] in F, C, Ra, Rb.
    destruct F as [(_ & _ & _ & I1) (_ & _ & _ & I2)].
    destruct C as (N1 & _ & _ & _ & N2 & _).
    assert (T1 : V5.crucible_tested (V5.set_crucible_tested u1 true) = true /\
                 exists k, (k <= S n)%nat /\ (S n <> O -> k <> O) /\
                   ((V5.id (V5.set_crucible_tested u1 true) = V5.id w1 /\
                     V5.interactions (V5.set_crucible_tested u1 true) =
                       (V5.interactions w1 + Z.of_nat k)%Z) \/
                    (V5.id (V5.set_crucible_tested u1 true) = V5.id w2 /\
                     V5.interactions (V5.set_crucible_tested u1 true) =
                       (V5.interactions w2 + Z.of_nat k)%Z))).
    { split; [reflexivity|]. exists 1%nat. split; [lia|]. split; [congruence|].
      left. cbn. split; [exact I1 | lia]. }
    assert (T2 : V5.crucible_tested (V5.set_crucible_tested u2 true) = true /\
                 exists k, (k <= S n)%nat /\ (S n <> O -> k <> O) /\
                   ((V5.id (V5.set_crucible_tested u2 true) = V5.id w1 /\
                     V5.interactions (V5.set_crucible_tested u2 true) =
                       (V5.interactions w1 + Z.of_nat k)%Z) \/
                    (V5.id (V5.set_crucible_tested u2 true) = V5.id w2 /\
                     V5.interactions (V5.set_crucible_tested u2 true) =
                       (V5.interactions w2 + Z.of_nat k)%Z))).
    { split; [reflexivity|]. exists 1%nat. split; [lia|]. split; [congruence|].
      right. cbn. split; [exact I2 | lia]. }
    destruct (V5.is_viable u1) eqn:V1, (V5.is_viable u2) eqn:V2; cbn [negb andb ret fst].
    + destruct (IH u1 u2 g1) as (L & P & V & Rr). cbv zeta in L, P, V, Rr.
      split; [exact L|]. split; [|split].
      * revert P. apply Forall_impl. intros w (Tw & k & Hk & _ & Hw).
        split; [exact Tw|]. exists (S k). split; [lia|]. split; [congruence|].
        rewrite Nat2Z.inj_succ.
        destruct Hw as [[Hi Hn]|[Hi Hn]]; [left|right]; split; try congruence; lia.
      * intros _. apply V. right. split; assumption.
      * intros R1 R2. apply Rr; [apply Ra | apply Rb]; assumption.
    + cbn [List.length]. split; [lia|]. split; [|split].
      * constructor; [exact T1 | constructor].
      * intros _. constructor; [exact V1 | constructor].
      * intros R1 R2. constructor; [|constructor]. apply V5.reach_crucible, Ra; assumption.
    + cbn [List.length]. split; [lia|]. split; [|split].
      * constructor; [exact T2 | constructor].
      * intros _. constructor; [exact V2 | constructor].
      * intros R1 R2. constructor; [|constructor]. apply V5.reach_crucible, Rb; assumption.
    + cbn [List.length]. split; [lia|]. repeat split; intros; constructor.
Qed.

End Crucible.

(** X10 — [run_1v1_crucible] of v5 returns at most the two agents it was given
    (by id), each marked [crucible_tested] and each with as many interactions
    more as rounds were played: between 1 and [rounds] when [rounds >= 1].
    With at least one round every agent returned is viable, and agents of a
    run come back as agents of a run. With [rounds = 0] both come back
    untested by any interaction, viable or not. *)
Theorem crucible_returns_tested_survivors :
  forall (G : Type) (R : Rng G) (w1 w2 : V5.Whole) (rounds : nat) (g : G),
    let survivors := fst (V5.run_1v1_crucible w1 w2 rounds g) in
    (List.length survivors <= 2)%nat /\
    Forall (fun w => V5.crucible_tested w = true /\
              exists k, (k <= rounds)%nat /\ (rounds <> O -> k <> O) /\
                ((V5.id w = V5.id w1 /\
                  V5.interactions w = (V5.interactions w1 + Z.of_nat k)%Z) \/
                 (V5.id w = V5.id w2 /\
                  V5.interactions w = (V5.interactions w2 + Z.of_nat k)%Z)))
           survivors /\
    (rounds <> O -> Forall (fun w => V5.is_viable w = true) survivors) /\
    (V5.reachable w1 -> V5.reachable w2 -> Forall V5.reachable survivors) /\
    (rounds = O ->
       survivors = [V5.set_crucible_tested w1 true; V5.set_crucible_tested w2 true]).
Proof.
  intros G R w1 w2 rounds g. cbv zeta.
  destruct (v5_crucible_spec rounds w1 w2 g) as (L & P & V & Rr). cbv zeta in L, P, V, Rr.
  split; [exact L|]. split; [exact P|]. split; [|split; [exact Rr|]].
  - intros Hr. apply V. left. exact Hr.
  - intros ->. reflexivity.
Qed.

(** ** The builders of v7 *)

Section Builders.
Context {G : Type} `{Rng G}.

Lemma v7_create_human_id (next_id : Z) (t : float) (iso : bool) (g : G) :
  V7.id (fst (V7.create_human next_id t iso g)) = next_id.
Proof.
  unfold V7.create_human, bind, ret. destruct (uniform 0.3 0.7 g) as [s0 g0]. reflexivity.
Qed.

Lemma v7_survivor_id (next_id : Z) (g : G) : V7.id (fst (V7.survivor next_id g)) = next_id.
Proof.
  unfold V7.survivor, bind, ret. destruct (random g) as [r g1].
  pose proof (v7_create_human_id next_id 0.2 (r <? 0.6)%float g1) as I.
  destruct (V7.create_human next_id 0.2 (r <? 0.6)%float g1) as [w g2]. cbn [fst] in I.
  destruct (uniform 0.15 0.4 g2) as [s0 g3]. destruct (random g3) as [r' g4].
  destruct (r' <? 0.1)%float; exact I.
Qed.

Lemma v7_decliner_id (next_id : Z) (g : G) : V7.id (fst (V7.decliner next_id g)) = next_id.
Proof.
  unfold V7.decliner, bind, ret. destruct (gauss 0.35 0.15 g) as [t g1].
  destruct (random g1) as [r g2].
  pose proof (v7_create_human_id next_id (py_max 0.1 (py_min 0.8 t)) (r <? 0.4)%float g2) as I.
  destruct (V7.create_human next_id _ (r <? 0.4)%float g2) as [w g3]. cbn [fst] in I.
  destruct (randint 0 5 g3) as [n g4]. destruct (V7.fading_scars (Z.to_nat n) g4) as [got g5].
  destruct (random g5) as [r' g6].
  destruct (r' <? 0.05)%float; exact I.
Qed.

Lemma consecutive_ids_NoDup (start : Z) (n : nat) :
  NoDup (map (fun k => (start + Z.of_nat k)%Z) (seq 0 n)).
Proof.
  generalize 0%nat. induction n as [|n IH]; intros a; cbn [seq map]; constructor.
  - rewrite in_map_iff. intros (k & E & Hk). apply in_seq in Hk. lia.
  - apply IH.
Qed.

Lemma consecutive_ids_shift (start : Z) (n : nat) :
  map (fun k => (start + Z.of_nat k)%Z) (seq 1 n) =
  map (fun k => (start + 1 + Z.of_nat k)%Z) (seq 0 n).
Proof.
  rewrite <- seq_shift, map_map. apply map_ext. intros k. lia.
Qed.

Lemma v7_build_collapsed_spec (n : nat) : forall (start : Z) (g : G),
  let built := fst (V7.build_collapsed_civilization n start g) in
  List.length (fst built) = n /\ snd built = (start + Z.of_nat n)%Z /\
  map V7.id (fst built) = map (fun k => (start + Z.of_nat k)%Z) (seq 0 n) /\
  Forall V7.reachable (fst built) /\
  Forall (fun w => V7.is_ai w = false /\ V7.awakened w = false /\ V7.corrupted w = false /\
                   V7.trust_in_institutions w = 0.2%float /\ V7.counters w = (0, 0, 0)%Z)
         (fst built).
Proof.
  induction n as [|n IH]; intros start g; cbv zeta.
  - cbn. repeat split; try constructor. lia.
  - cbn [V7.build_collapsed_civilization]. unfold bind, ret.
    pose proof (v7_survivor_id start g) as I.
    pose proof (V7.reach_survivor start g) as Rw.
    pose proof (v7_survivor_fresh start g) as F.
    assert (Q : V7.awakened (fst (V7.survivor start g)) = false /\
                V7.corrupted (fst (V7.survivor start g)) = false).
    { unfold V7.survivor, V7.create_human, bind, ret. destruct (random g) as [r g1].
      destruct (uniform 0.3 0.7 g1) as [s0 g2]. destruct (uniform 0.15 0.4 g2) as [s1 g3].
      destruct (random g3) as [r' g4]. destruct (r' <? 0.1)%float; split; reflexivity. }
    destruct (V7.survivor start g) as [w g1]. cbn [fst] in I, Rw, F, Q.
    specialize (IH (start + 1)%Z g1). cbv zeta in IH.
    destruct (V7.build_collapsed_civilization n (start + 1) g1) as [[pop next] g2].
    cbn [fst snd] in *. destruct IH as (L & N & Ids & Rr & Hh).
    split; [cbn [List.length]; f_equal; exact L|]. split; [lia|]. split; [|split].
    + cbn [map seq]. rewrite consecutive_ids_shift, <- Ids, I. f_equal. lia.
    + constructor; assumption.
    + constructor; [|exact Hh].
      destruct F as (_ & T & A & I0 & C0 & D0). destruct Q as [W K].
      unfold V7.counters. rewrite I0, C0, D0. repeat split; assumption.
Qed.

Lemma v7_build_declining_spec (n : nat) : forall (start : Z) (g : G),
  let built := fst (V7.build_declining_civilization n start g) in
  List.length (fst built) = n /\ snd built = (start + Z.of_nat n)%Z /\
  map V7.id (fst built) = map (fun k => (start + Z.of_nat k)%Z) (seq 0 n) /\
  Forall V7.reachable (fst built) /\
  Forall (fun w => V7.is_ai w = false /\ V7.awakened w = false /\
                   V7.counters w = (0, 0, 0)%Z)
         (fst built).
Proof.
  induction n as [|n IH]; intros start g; cbv zeta.
  - cbn. repeat split; try constructor. lia.
  - cbn [V7.build_declining_civilization]. unfold bind, ret.
    pose proof (v7_decliner_id start g) as I.
    pose proof (V7.reach_decliner start g) as Rw.
    pose proof (v7_decliner_fresh start g) as F.
    assert (Q : V7.awakened (fst (V7.decliner start g)) = false).
    { unfold V7.decliner, V7.create_human, bind, ret. destruct (gauss 0.35 0.15 g) as [t g1].
      destruct (random g1) as [r g2]. destruct (uniform 0.3 0.7 g2) as [s0 g3].
      destruct (randint 0 5 g3) as [k g4].
      destruct (V7.fading_scars (Z.to_nat k) g4) as [got g5].
      destruct (random g5) as [r' g6]. destruct (r' <? 0.05)%float; reflexivity. }
    destruct (V7.decliner start g) as [w g1]. cbn [fst] in I, Rw, F, Q.
    specialize (IH (start + 1)%Z g1). cbv zeta in IH.
    destruct (V7.build_declining_civilization n (start + 1) g1) as [[pop next] g2].
    cbn [fst snd] in *. destruct IH as (L & N & Ids & Rr & Hh).
    split; [cbn [List.length]; f_equal; exact L|]. split; [lia|]. split; [|split].
    + cbn [map seq]. rewrite consecutive_ids_shift, <- Ids, I. f_equal. lia.
    + constructor; assumption.
    + constructor; [|exact Hh].
      destruct F as (t & _ & T & A & I0 & C0 & D0).
      unfold V7.counters. rewrite I0, C0, D0. repeat split; assumption.
Qed.

End Builders.

(** X11 — Both builders of v7 return exactly the requested number of agents,
    numbered consecutively from [next_id_start] (so no two share an id, which
    the partner selection of [run_simulation] relies on), and the next free
    id [next_id_start + n]. Every member is a human that is not awakened and
    has not interacted; the survivors of the collapsed civilization are
    uncorrupted with trust 0.2. Every member is an agent of a run. *)
Theorem v7_builders_number_their_agents :
  forall (G : Type) (R : Rng G) (n : nat) (next_id_start : Z) (g : G),
    let collapsed := fst (V7.build_collapsed_civilization n next_id_start g) in
    let declining := fst (V7.build_declining_civilization n next_id_start g) in
    (List.length (fst collapsed) = n /\ snd collapsed = (next_id_start + Z.of_nat n)%Z /\
     map V7.id (fst collapsed) = map (fun k => (next_id_start + Z.of_nat k)%Z) (seq 0 n) /\
     NoDup (map V7.id (fst collapsed)) /\
     Forall V7.reachable (fst collapsed) /\
     Forall (fun w => V7.is_ai w = false /\ V7.awakened w = false /\
                      V7.corrupted w = false /\ V7.trust_in_institutions w = 0.2%float /\
                      V7.counters w = (0, 0, 0)%Z) (fst collapsed)) /\
    (List.length (fst declining) = n /\ snd declining = (next_id_start + Z.of_nat n)%Z /\
     map V7.id (fst declining) = map (fun k => (next_id_start + Z.of_nat k)%Z) (seq 0 n) /\
     NoDup (map V7.id (fst declining)) /\
     Forall V7.reachable (fst declining) /\
     Forall (fun w => V7.is_ai w = false /\ V7.awakened w = false /\
                      V7.counters w = (0, 0, 0)%Z) (fst declining)).
Proof.
  intros G R n start g. cbv zeta. split.
  - destruct (v7_build_collapsed_spec n start g) as (L & N & Ids & Rr & Hh).
    cbv zeta in L, N, Ids, Rr, Hh. repeat split; trivial.
    rewrite Ids. apply consecutive_ids_NoDup.
  - destruct (v7_build_declining_spec n start g) as (L & N & Ids & Rr & Hh).
    cbv zeta in L, N, Ids, Rr, Hh. repeat split; trivial.
    rewrite Ids. apply consecutive_ids_NoDup.
Qed.

(** ** The end of a generation *)

Lemma humans_are_fewer {A : Type} (f : A -> bool) (l : list A) :
  (List.length (filter f l) <= List.length l)%nat.
Proof. apply filter_length_le. Qed.

Lemma Forall_filter_true {A : Type} (f : A -> bool) (l : list A) :
  Forall (fun x => f x = true) (filter f l).
Proof. apply Forall_forall. intros x Hx. apply filter_In in Hx. exact (proj2 Hx). Qed.

(** X12 — The collapse test at the end of a generation. In v5 the run goes on
    exactly when at least 5 viable humans are left and returns
    [human_extinction] otherwise; the [total] collapse of line 457 can never
    be returned, since with 5 humans the population cannot be below 2. In v7
    the run goes on exactly when at least 3 viable humans are left. The
    population that goes on is the viable part of the one that came in, in
    the same order. *)
Theorem total_collapse_is_unreachable :
  forall (pop5 : list V5.Whole) (pop7 : list V7.Whole),
    (V5.collapse_check pop5 <> inl V5.total /\
     (V5.collapse_check pop5 = inl V5.human_extinction <->
        (List.length (V5.humans (filter V5.is_viable pop5)) < 5)%nat) /\
     (forall kept, V5.collapse_check pop5 = inr kept ->
        kept = filter V5.is_viable pop5 /\
        (5 <= List.length (V5.humans kept) <= List.length kept)%nat /\
        Forall (fun w => V5.is_viable w = true) kept)) /\
    ((V7.collapse_check pop7 = None <->
        (List.length (V7.humans (filter V7.is_viable pop7)) < 3)%nat) /\
     (forall kept, V7.collapse_check pop7 = Some kept ->
        kept = filter V7.is_viable pop7 /\
        (3 <= List.length (V7.humans kept) <= List.length kept)%nat /\
        Forall (fun w => V7.is_viable w = true) kept)).
Proof.
  intros pop5 pop7. split.
  - unfold V5.collapse_check.
    pose proof (humans_are_fewer (fun w => negb (V5.is_ai w)) (filter V5.is_viable pop5)) as Le.
    fold (V5.humans (filter V5.is_viable pop5)) in Le.
    destruct (List.length (V5.humans (filter V5.is_viable pop5)) <? 5)%nat eqn:E5.
    + apply Nat.ltb_lt in E5. split; [discriminate|]. split; [tauto|]. discriminate.
    + apply Nat.ltb_ge in E5.
      assert (E2 : (List.length (filter V5.is_viable pop5) <? 2)%nat = false)
        by (apply Nat.ltb_ge; lia).
      rewrite E2. split; [discriminate|]. split.
      * split; [discriminate | lia].
      * intros kept E. injection E as <-. split; [reflexivity|]. split; [lia|].
        apply Forall_filter_true.
  - unfold V7.collapse_check.
    pose proof (humans_are_fewer (fun w => negb (V7.is_ai w)) (filter V7.is_viable pop7)) as Le.
    fold (V7.humans (filter V7.is_viable pop7)) in Le.
    destruct (List.length (V7.humans (filter V7.is_viable pop7)) <? 3)%nat eqn:E3.
    + apply Nat.ltb_lt in E3. split; [tauto | discriminate].
    + apply Nat.ltb_ge in E3. split.
      * split; [discriminate | lia].
      * intros kept E. injection E as <-. split; [reflexivity|]. split; [lia|].
        apply Forall_filter_true.
Qed.

(** ** The cooperation ratio of the metrics *)

Lemma sums_balance {A : Type} (fi fc fd : A -> Z) (l : list A) :
  Forall (fun w => fi w = fc w + fd w /\ 0 <= fc w /\ 0 <= fd w)%Z l ->
  forall ai ac ad : Z, (ai = ac + ad -> 0 <= ac -> 0 <= ad ->
    fold_left Z.add (map fi l) ai =
      fold_left Z.add (map fc l) ac + fold_left Z.add (map fd l) ad /\
    0 <= fold_left Z.add (map fc l) ac /\ 0 <= fold_left Z.add (map fd l) ad)%Z.
Proof.
  induction 1 as [|w l (E & C & D) _ IH]; intros ai ac ad Ea Hc Hd; cbn [map fold_left].
  - auto.
  - apply IH; lia.
Qed.

Section Metrics.
Context {G : Type} `{Rng G}.

Lemma v5_reachable_nonneg (w : V5.Whole) :
  V5.reachable w -> (0 <= V5.cooperations w /\ 0 <= V5.defections w)%Z.
Proof.
  induction 1 as [ i | w _ IH | p i g _ _ | p i g _ _ | p i g _ _ | p i g _ _
                 | w _ IH _ | i t | p i gen pct g _ _ _
                 | w1 w2 n s p g _ IH1 _ IH2 | w1 w2 n s p g _ IH1 _ IH2 ].
  - cbn. lia.
  - exact IH.
  - destruct (v5_child_gen1_fresh p i g) as (_ & _ & _ & _ & _ & -> & ->). lia.
  - destruct (v5_child_gen2_fresh p i g) as (_ & _ & _ & _ & _ & -> & ->). lia.
  - destruct (v5_child_gen3_fresh p i g) as (_ & _ & _ & _ & _ & -> & ->). lia.
  - destruct (v5_child_gen4_fresh p i g) as (_ & _ & _ & _ & _ & -> & ->). lia.
  - exact IH.
  - destruct (v5_create_ai_no_ledger i t) as (_ & _ & -> & ->). lia.
  - destruct (v5_birth_fresh p i gen pct g) as (_ & _ & _ & _ & _ & -> & ->). lia.
  - pose proof (v5_interact_counters w1 w2 n s p g) as C. cbv zeta in C. lia.
  - pose proof (v5_interact_counters w1 w2 n s p g) as C. cbv zeta in C. lia.
Qed.

Lemma v7_reachable_nonneg (w : V7.Whole) :
  V7.reachable w -> (0 <= V7.cooperations w /\ 0 <= V7.defections w)%Z.
Proof.
  induction 1 as [ i g | i g | i g g' | i t | i | p i g _ _ _
                 | w1 w2 n s p g _ IH1 _ IH2 | w1 w2 n s p g _ IH1 _ IH2 ].
  - destruct (v7_survivor_fresh i g) as (_ & _ & _ & _ & -> & ->). lia.
  - destruct (v7_decliner_fresh i g) as (t & _ & _ & _ & _ & -> & ->). lia.
  - destruct (v7_worsened_decliner_fresh i g g') as (_ & _ & -> & ->). lia.
  - destruct (v7_create_ai_no_ledger i t) as (_ & _ & -> & ->). lia.
  - cbn. lia.
  - destruct (v7_birth_fresh p i g) as (_ & _ & _ & _ & -> & ->). lia.
  - pose proof (v7_interact_counters w1 w2 n s p g) as C. cbv zeta in C. lia.
  - pose proof (v7_interact_counters w1 w2 n s p g) as C. cbv zeta in C. lia.
Qed.

End Metrics.

(** X13 — The denominator of the cooperation ratio in the metrics of either
    file, [human_coop + human_def] ([h_coop + h_def] in v7), is the number of
    interactions the humans of the population have had, and neither sum is
    negative: the ratio is a share between 0 and 1 of the humans'
    interactions, and its guard [> 0] fails only when no human has interacted
    yet. *)
Theorem cooperation_ratio_counts_all_interactions :
  forall (G : Type) (R : Rng G) (pop5 : list V5.Whole) (pop7 : list V7.Whole),
    Forall V5.reachable pop5 -> Forall V7.reachable pop7 ->
    (V5.human_coop pop5 + V5.human_def pop5 = V5.human_interactions pop5 /\
     0 <= V5.human_coop pop5 /\ 0 <= V5.human_def pop5)%Z /\
    (V7.h_coop pop7 + V7.h_def pop7 = V7.h_interactions pop7 /\
     0 <= V7.h_coop pop7 /\ 0 <= V7.h_def pop7)%Z.
Proof.
  intros G R pop5 pop7 H5 H7. split.
  - unfold V5.human_coop, V5.human_def, V5.human_interactions.
    assert (F : Forall (fun w => V5.interactions w = V5.cooperations w + V5.defections w /\
                                 0 <= V5.cooperations w /\ 0 <= V5.defections w)%Z
                  (V5.humans pop5)).
    { apply Forall_forall. intros w Hw. apply filter_In in Hw. destruct Hw as [Hw _].
      rewrite Forall_forall in H5. specialize (H5 w Hw).
      split; [exact (v5_reachable_balanced w H5) | exact (v5_reachable_nonneg w H5)]. }
    destruct (sums_balance _ _ _ _ F 0 0 0)%Z as (E & C & D); try lia.
  - unfold V7.h_coop, V7.h_def, V7.h_interactions.
    assert (F : Forall (fun w => V7.interactions w = V7.cooperations w + V7.defections w /\
                                 0 <= V7.cooperations w /\ 0 <= V7.defections w)%Z
                  (V7.humans pop7)).
    { apply Forall_forall. intros w Hw. apply filter_In in Hw. destruct Hw as [Hw _].
      rewrite Forall_forall in H7. specialize (H7 w Hw).
      split; [exact (v7_reachable_balanced w H7) | exact (v7_reachable_nonneg w H7)]. }
    destruct (sums_balance _ _ _ _ F 0 0 0)%Z as (E & C & D); try lia.
Qed.

Lemma cooperation_ratio_counts_all_interactions_witness :
  (V5.human_coop [snd (fst (V5.interact bridge5 (V5.founder 1) 0 0 0 ([] : Tape))); bridge5]
   + V5.human_def [snd (fst (V5.interact bridge5 (V5.founder 1) 0 0 0 ([] : Tape))); bridge5]
   = V5.human_interactions
       [snd (fst (V5.interact bridge5 (V5.founder 1) 0 0 0 ([] : Tape))); bridge5] /\
   0 <= V5.human_coop
          [snd (fst (V5.interact bridge5 (V5.founder 1) 0 0 0 ([] : Tape))); bridge5] /\
   0 <= V5.human_def
          [snd (fst (V5.interact bridge5 (V5.founder 1) 0 0 0 ([] : Tape))); bridge5])%Z /\
  (V7.h_coop [V7.create_awakened_human 4; bridge7]
   + V7.h_def [V7.create_awakened_human 4; bridge7]
   = V7.h_interactions [V7.create_awakened_human 4; bridge7] /\
   0 <= V7.h_coop [V7.create_awakened_human 4; bridge7] /\
   0 <= V7.h_def [V7.create_awakened_human 4; bridge7])%Z.
Proof.
  exact (cooperation_ratio_counts_all_interactions Tape Tape_Rng
           [snd (fst (V5.interact bridge5 (V5.founder 1) 0 0 0 ([] : Tape))); bridge5]
           [V7.create_awakened_human 4; bridge7]
           (Forall_cons _
              (V5.reach_interact_2 bridge5 (V5.founder 1) 0 0 0 ([] : Tape)
                 (V5.reach_ai 0 "bridge") (V5.reach_founder 1))
              (Forall_cons _ (V5.reach_ai 0 "bridge") (Forall_nil _)))
           (Forall_cons _ (V7.reach_awakened 4)
              (Forall_cons _ (V7.reach_ai 0 "bridge") (Forall_nil _)))).
Defined.

(** ** The trimmed histories of [main] *)

Lemma skipn_split {A : Type} (i j : nat) (l : list A) :
  (i <= j)%nat -> skipn i l = firstn (j - i) (skipn i l) ++ skipn j l.
Proof.
  intros Hij. rewrite <- (firstn_skipn (j - i) (skipn i l)) at 1.
  rewrite skipn_skipn. replace (j - i + i)%nat with j by lia. reflexivity.
Qed.

Lemma stride_from_nth {A : Type} (step : nat) (l : list A) : forall j k : nat,
  nth_error (stride_from step j l) k = nth_error l (j + k * S step).
Proof.
  induction l as [|x t IH]; intros j k.
  - cbn [stride_from]. destruct k; destruct (j + _)%nat; reflexivity.
  - destruct j as [|j']; cbn [stride_from].
    + destruct k as [|k']; [reflexivity|].
      cbn [nth_error]. rewrite IH.
      replace (0 + S k' * S step)%nat with (S (step + k' * S step)) by lia. reflexivity.
    + rewrite IH. reflexivity.
Qed.

Lemma stride_from_4_length {A : Type} (l : list A) : forall j : nat,
  (j <= 4)%nat ->
  (List.length l <= 5 * List.length (stride_from 4 j l) + j /\
   (List.length (stride_from 4 j l) <> 0 ->
    5 * List.length (stride_from 4 j l) + j < List.length l + 5))%nat.
Proof.
  induction l as [|x t IH]; intros j Hj.
  - cbn. lia.
  - destruct j as [|j']; cbn [stride_from List.length].
    + destruct (IH 4%nat) as [B1 B2]; [lia|]. lia.
    + destruct (IH j') as [B1 B2]; [lia|]. lia.
Qed.

Lemma v5_summary_slices {A : Type} (history : list A) (n m : nat) :
  n = List.length history -> (10 <= m)%nat -> (m + 7 <= n)%nat ->
  List.length (slice 0 5 history) = 5%nat /\
  List.length (slice (m - 2) (m + 2) history) = 4%nat /\
  List.length (last_n 5 history) = 5%nat /\
  exists skipped1 skipped2,
    history = slice 0 5 history ++ skipped1 ++ slice (m - 2) (m + 2) history
              ++ skipped2 ++ last_n 5 history /\
    List.length skipped1 = (m - 7)%nat /\
    List.length skipped2 = (n - m - 7)%nat.
Proof.
  intros Hn Hm1 Hm2. unfold slice, last_n.
  rewrite !length_firstn, !length_skipn, <- Hn.
  split; [lia|]. split; [lia|]. split; [lia|].
  exists (firstn (m - 2 - 5) (skipn 5 history)),
         (firstn (n - 5 - (m + 2)) (skipn (m + 2) history)).
  split; [|rewrite !length_firstn, !length_skipn, <- Hn; lia].
  replace (5 - 0)%nat with 5%nat by reflexivity.
  replace (skipn 0 history) with history by reflexivity.
  rewrite <- (skipn_split (m + 2) (n - 5) history) by lia.
  rewrite <- (skipn_split (m - 2) (m + 2) history) by lia.
  rewrite <- (skipn_split 5 (m - 2) history) by lia.
  symmetry. apply firstn_skipn.
Qed.

(** X14 — The histories that [main] trims before saving. In v5 a history of
    more than 20 records is cut to three slices of 5, 4 and 5 records that do
    not overlap and keep the order: the first five, four around the middle,
    the last five; shorter histories are left as they are. In v7 a history of
    more than 10 records is cut to every fifth record starting with the
    first: record [5 * k] becomes record [k], and the number kept is the
    length divided by 5, rounded up. *)
Theorem trimmed_histories :
  forall (A : Type) (history : list A),
    let n := List.length history in
    ((V5.history_summary history = None <-> (n <= 20)%nat) /\
     (forall start middle finish,
        V5.history_summary history = Some (start, middle, finish) ->
        List.length start = 5%nat /\ List.length middle = 4%nat /\
        List.length finish = 5%nat /\
        exists skipped1 skipped2,
          history = start ++ skipped1 ++ middle ++ skipped2 ++ finish /\
          List.length skipped1 = (n / 2 - 7)%nat /\
          List.length skipped2 = (n - n / 2 - 7)%nat)) /\
    ((V7.history_summary history = None <-> (n <= 10)%nat) /\
     (forall kept,
        V7.history_summary history = Some kept ->
        (forall k, nth_error kept k = nth_error history (5 * k)) /\
        (n <= 5 * List.length kept < n + 5)%nat)).
Proof.
  intros A history. cbv zeta. split.
  - unfold V5.history_summary.
    pose proof (Nat.div_mod_eq (List.length history) 2) as Dm.
    pose proof (Nat.mod_upper_bound (List.length history) 2) as Mb.
    destruct (20 <? List.length history)%nat eqn:E.
    + apply Nat.ltb_lt in E. split; [split; [discriminate | lia]|].
      intros start middle finish Q.
      assert (Es : start = slice 0 5 history) by congruence.
      assert (Em : middle = slice (List.length history / 2 - 2)
                              (List.length history / 2 + 2) history) by congruence.
      assert (Ef : finish = last_n 5 history) by congruence.
      rewrite Es, Em, Ef.
      replace (List.length history - List.length history / 2 - 7)%nat
        with (List.length history - (List.length history / 2) - 7)%nat by reflexivity.
      apply (v5_summary_slices history (List.length history) (List.length history / 2));
        [reflexivity | lia | lia].
    + apply Nat.ltb_ge in E. split; [split; [lia | reflexivity] | discriminate].
  - unfold V7.history_summary.
    destruct (10 <? List.length history)%nat eqn:E.
    + apply Nat.ltb_lt in E. split; [split; [discriminate | lia]|].
      intros kept Q. assert (Ek : kept = stride_from 4 0 history) by congruence.
      rewrite Ek. split.
      * intros k. rewrite stride_from_nth. f_equal. lia.
      * destruct (stride_from_4_length history 0) as [B1 B2]; [lia|].
        destruct (List.length (stride_from 4 0 history)) as [|c]; [lia|].
        assert (Hc : S c <> 0%nat) by lia. specialize (B2 Hc). lia.
    + apply Nat.ltb_ge in E. split; [split; [lia | reflexivity] | discriminate].
Qed.

(** ** What noise and polarization cannot touch *)

Section Pressures.
Context {G : Type} `{Rng G}.

Lemma v5_decide_ignores_noise (self other : V5.Whole) (noise noise' : float) (g : G) :
  (V5.corrupted self || V5.is_ai self)%bool = true ->
  V5.decide self other noise g = V5.decide self other noise' g.
Proof.
  intros F. unfold V5.decide.
  destruct (V5.corrupted self); [reflexivity|]. destruct (V5.is_ai self); [reflexivity|].
  discriminate F.
Qed.

Lemma v7_decide_ignores_noise (self other : V7.Whole) (noise noise' : float) (g : G) :
  (V7.corrupted self || V7.is_ai self || V7.awakened self)%bool = true ->
  V7.decide self other noise g = V7.decide self other noise' g.
Proof.
  intros F. unfold V7.decide.
  destruct (V7.corrupted self); [reflexivity|]. destruct (V7.is_ai self); [reflexivity|].
  destruct (V7.awakened self); [reflexivity|]. discriminate F.
Qed.

Lemma v5_attach_recent_isolated (w : V5.Whole) :
  V5.isolated (V5.attach_recent w) = V5.isolated w.
Proof. unfold V5.attach_recent. destruct (V5._recent_defections w); reflexivity. Qed.

Lemma v7_attach_recent_isolated (w : V7.Whole) :
  V7.isolated (V7.attach_recent w) = V7.isolated w.
Proof. unfold V7.attach_recent. destruct (V7._recent_defections w); reflexivity. Qed.

Lemma v5_interact_ignores_polarization (w1 w2 : V5.Whole)
    (noise scarcity polarization polarization' : float) (g : G) :
  (V5.isolated w1 && V5.isolated w2)%bool = false ->
  V5.interact w1 w2 noise scarcity polarization g =
  V5.interact w1 w2 noise scarcity polarization' g.
Proof.
  intros F. unfold V5.interact, bind.
  destruct (V5.decide (V5.attach_recent w1) (V5.attach_recent w2) noise g) as [a1 g1].
  destruct (V5.decide (V5.attach_recent w2) (V5.attach_recent w1) noise g1) as [a2 g2].
  unfold V5.draw_penalty. rewrite !v5_attach_recent_isolated, F. reflexivity.
Qed.

Lemma v7_interact_ignores_polarization (w1 w2 : V7.Whole)
    (noise scarcity polarization polarization' : float) (g : G) :
  (V7.isolated w1 && V7.isolated w2)%bool = false ->
  V7.interact w1 w2 noise scarcity polarization g =
  V7.interact w1 w2 noise scarcity polarization' g.
Proof.
  intros F. unfold V7.interact, bind.
  destruct (V7.decide (V7.attach_recent w1) (V7.attach_recent w2) noise g) as [a1 g1].
  destruct (V7.decide (V7.attach_recent w2) (V7.attach_recent w1) noise g1) as [a2 g2].
  unfold V7.draw_penalty. rewrite !v7_attach_recent_isolated, F. reflexivity.
Qed.

Lemma v5_interact_ignores_noise (w1 w2 : V5.Whole)
    (noise noise' scarcity polarization : float) (g : G) :
  (V5.corrupted w1 || V5.is_ai w1)%bool = true ->
  (V5.corrupted w2 || V5.is_ai w2)%bool = true ->
  V5.interact w1 w2 noise scarcity polarization g =
  V5.interact w1 w2 noise' scarcity polarization g.
Proof.
  intros F1 F2. unfold V5.interact, bind.
  destruct (v5_attach_recent_frame w1) as (_ & _ & A1 & _ & K1 & _).
  destruct (v5_attach_recent_frame w2) as (_ & _ & A2 & _ & K2 & _).
  rewrite (v5_decide_ignores_noise (V5.attach_recent w1) _ noise noise' g)
    by (rewrite A1, K1; exact F1).
  destruct (V5.decide (V5.attach_recent w1) (V5.attach_recent w2) noise' g) as [a1 g1].
  rewrite (v5_decide_ignores_noise (V5.attach_recent w2) _ noise noise' g1)
    by (rewrite A2, K2; exact F2).
  reflexivity.
Qed.

Lemma v7_interact_ignores_noise (w1 w2 : V7.Whole)
    (noise noise' scarcity polarization : float) (g : G) :
  (V7.corrupted w1 || V7.is_ai w1 || V7.awakened w1)%bool = true ->
  (V7.corrupted w2 || V7.is_ai w2 || V7.awakened w2)%bool = true ->
  V7.interact w1 w2 noise scarcity polarization g =
  V7.interact w1 w2 noise' scarcity polarization g.
Proof.
  intros F1 F2. unfold V7.interact, bind.
  destruct (v7_attach_recent_frame w1) as (_ & _ & A1 & _ & K1 & W1 & _).
  destruct (v7_attach_recent_frame w2) as (_ & _ & A2 & _ & K2 & W2 & _).
  rewrite (v7_decide_ignores_noise (V7.attach_recent w1) _ noise noise' g)
    by (rewrite A1, K1, W1; exact F1).
  destruct (V7.decide (V7.attach_recent w1) (V7.attach_recent w2) noise' g) as [a1 g1].
  rewrite (v7_decide_ignores_noise (V7.attach_recent w2) _ noise noise' g1)
    by (rewrite A2, K2, W2; exact F2).
  reflexivity.
Qed.

End Pressures.

(** X15 — What the pressures of a generation cannot touch, in either file.
    Unless both agents are isolated, [interact] draws nothing for the
    polarization penalty: the penalty is 0 and the generator state is left as
    it was; the result and the generator state after [interact] are then the
    same for any two values of [polarization]. And when each of the two
    agents is corrupted or an AI (or, in v7, awakened), [interact] does not
    depend on [noise]. *)
Theorem pressures_that_do_not_matter :
  forall (G : Type) (R : Rng G) (w1 w2 : V5.Whole) (u1 u2 : V7.Whole)
         (noise noise' scarcity polarization polarization' : float) (g : G),
    ((V5.isolated w1 && V5.isolated w2)%bool = false ->
       V5.draw_penalty w1 w2 polarization g = (0%float, g) /\
       V5.draw_penalty (V5.attach_recent w1) (V5.attach_recent w2) polarization g
         = (0%float, g) /\
       V5.interact w1 w2 noise scarcity polarization g =
       V5.interact w1 w2 noise scarcity polarization' g) /\
    ((V5.corrupted w1 || V5.is_ai w1)%bool = true ->
     (V5.corrupted w2 || V5.is_ai w2)%bool = true ->
       V5.interact w1 w2 noise scarcity polarization g =
       V5.interact w1 w2 noise' scarcity polarization g) /\
    ((V7.isolated u1 && V7.isolated u2)%bool = false ->
       V7.draw_penalty u1 u2 polarization g = (0%float, g) /\
       V7.draw_penalty (V7.attach_recent u1) (V7.attach_recent u2) polarization g
         = (0%float, g) /\
       V7.interact u1 u2 noise scarcity polarization g =
       V7.interact u1 u2 noise scarcity polarization' g) /\
    ((V7.corrupted u1 || V7.is_ai u1 || V7.awakened u1)%bool = true ->
     (V7.corrupted u2 || V7.is_ai u2 || V7.awakened u2)%bool = true ->
       V7.interact u1 u2 noise scarcity polarization g =
       V7.interact u1 u2 noise' scarcity polarization g).
Proof.
  intros G R w1 w2 u1 u2 noise noise' scarcity polarization polarization' g.
  split; [|split; [apply v5_interact_ignores_noise|split; [|apply v7_interact_ignores_noise]]].
  - intros F. split; [|split; [|now apply v5_interact_ignores_polarization]].
    + unfold V5.draw_penalty. rewrite F. reflexivity.
    + unfold V5.draw_penalty. rewrite !v5_attach_recent_isolated, F. reflexivity.
  - intros F. split; [|split; [|now apply v7_interact_ignores_polarization]].
    + unfold V7.draw_penalty. rewrite F. reflexivity.
    + unfold V7.draw_penalty. rewrite !v7_attach_recent_isolated, F. reflexivity.
Qed.

Lemma pressures_that_do_not_matter_witness :
  (V5.draw_penalty (V5.founder 1) bridge5 0.3 ([0.9; 0.9; 0.9; 0.9] : Tape)
     = (0%float, [0.9; 0.9; 0.9; 0.9]) /\
   V5.interact (V5.founder 1) bridge5 0.15 0.2 0.3 ([0.9; 0.9; 0.9; 0.9] : Tape) =
   V5.interact (V5.founder 1) bridge5 0.15 0.2 0.8 ([0.9; 0.9; 0.9; 0.9] : Tape)) /\
  V7.interact (V7.create_awakened_human 4) bridge7 0.15 0.2 0.3 ([0.9] : Tape) =
  V7.interact (V7.create_awakened_human 4) bridge7 0.9 0.2 0.3 ([0.9] : Tape).
Proof.
  split.
  - destruct (proj1 (pressures_that_do_not_matter Tape Tape_Rng (V5.founder 1) bridge5
                       (V7.create_awakened_human 4) bridge7 0.15 0.9 0.2 0.3 0.8
                       [0.9; 0.9; 0.9; 0.9]) eq_refl) as (P & _ & I).
    split; [exact P | exact I].
  - exact (proj2 (proj2 (proj2
             (pressures_that_do_not_matter Tape Tape_Rng (V5.founder 1) bridge5
                (V7.create_awakened_human 4) bridge7 0.15 0.9 0.2 0.3 0.8 [0.9])))
             eq_refl eq_refl).
Defined.

(** ** Scars do not age *)

Section ScarAge.
Context {G : Type} `{Rng G}.

Lemma v5_inherit_age (ss : list Scar) (rate factor : float) (g : G) :
  Forall (fun s => age s = 0%Z) (fst (V5.inherit ss rate factor g)).
Proof.
  destruct (v5_inherit_spec ss rate factor g) as (kept & _ & ->).
  apply Forall_map, Forall_forall. intros s _. reflexivity.
Qed.

Lemma v7_inherit_age (ss : list Scar) (rate factor : float) (g : G) :
  Forall (fun s => age s = 0%Z) (fst (V7.inherit ss rate factor g)).
Proof.
  destruct (v7_inherit_spec ss rate factor g) as (kept & _ & ->).
  apply Forall_map, Forall_forall. intros s _. reflexivity.
Qed.

Lemma v7_fading_scars_age (n : nat) (g : G) :
  Forall (fun s => age s = 0%Z) (fst (V7.fading_scars n g)).
Proof.
  revert g. induction n as [|n IH]; intros g; cbn [V7.fading_scars]; [constructor|].
  unfold bind, ret, choice, bind, ret.
  destruct (randbelow _ g) as [i1 g1]. destruct (randbelow _ g1) as [i2 g2].
  destruct (randbelow _ g2) as [i3 g3]. destruct (uniform 0.1 0.4 g3) as [wt g4].
  specialize (IH g4). destruct (V7.fading_scars n g4) as [tl g5]. cbn in *.
  constructor; [reflexivity | exact IH].
Qed.

Lemma v5_builders_age (p : V5.Whole) (i gen : Z) (pct : float) (g : G) :
  Forall (fun s => age s = 0%Z) (V5.scars (fst (V5.child_gen1 p i g))) /\
  Forall (fun s => age s = 0%Z) (V5.scars (fst (V5.child_gen2 p i g))) /\
  Forall (fun s => age s = 0%Z) (V5.scars (fst (V5.child_gen3 p i g))) /\
  Forall (fun s => age s = 0%Z) (V5.scars (fst (V5.child_gen4 p i g))) /\
  Forall (fun s => age s = 0%Z) (V5.scars (fst (V5.birth p i gen pct g))).
Proof.
  unfold V5.child_gen1, V5.child_gen2, V5.child_gen3, V5.child_gen4, V5.birth,
    V5.create_human, V5.maybe_isolate, bind, ret.
  destruct (uniform 0.3 0.7 g) as [s g1].
  pose proof (v5_inherit_age (last_n 20 (V5.scars p)) 0.8 0.8 g1) as L1.
  pose proof (v5_inherit_age (last_n 10 (V5.scars p)) 0.5 0.5 g1) as L2.
  pose proof (v5_inherit_age (last_n 5 (V5.scars p)) 0.3 0.3 g1) as L3.
  pose proof (v5_inherit_age (last_n 10 (V5.scars p)) 0.4 0.5 g1) as L5.
  destruct (V5.inherit (last_n 20 (V5.scars p)) 0.8 0.8 g1) as [got1 h1].
  destruct (V5.inherit (last_n 10 (V5.scars p)) 0.5 0.5 g1) as [got2 h2].
  destruct (V5.inherit (last_n 5 (V5.scars p)) 0.3 0.3 g1) as [got3 h3].
  destruct (V5.inherit (last_n 10 (V5.scars p)) 0.4 0.5 g1) as [got5 h5].
  destruct (random h3) as [r3 k3]. destruct (random g1) as [r4 k4].
  destruct (random k4) as [r4' k4']. destruct (random h5) as [r5 k5].
  cbn [fst] in *.
  assert (L4 : Forall (fun s => age s = 0%Z)
                 (if (r4 <? 0.1)%float
                  then map (fun scar => V5.inherited_copy scar 0.2) (last_n 3 (V5.scars p))
                  else [])).
  { destruct (r4 <? 0.1)%float; [|constructor].
    apply Forall_map, Forall_forall. intros s0 _. reflexivity. }
  repeat split;
    repeat match goal with |- context [if ?c then V5.set_isolated _ _ else _] => destruct c end;
    cbn -[last_n]; assumption.
Qed.

Lemma v7_builders_age (p : V7.Whole) (i : Z) (g : G) :
  Forall (fun s => age s = 0%Z) (V7.scars (fst (V7.survivor i g))) /\
  Forall (fun s => age s = 0%Z) (V7.scars (fst (V7.decliner i g))) /\
  Forall (fun s => age s = 0%Z) (V7.scars (fst (V7.birth p i g))).
Proof.
  split; [|split].
  - unfold V7.survivor, V7.create_human, bind, ret.
    destruct (random g) as [r g1]. destruct (uniform 0.3 0.7 g1) as [s g2].
    destruct (uniform 0.15 0.4 g2) as [s' g3]. destruct (random g3) as [r' g4].
    destruct (r' <? 0.1)%float; cbn; repeat constructor.
  - unfold V7.decliner, V7.create_human, bind, ret.
    destruct (gauss 0.35 0.15 g) as [t g1]. destruct (random g1) as [r g2].
    destruct (uniform 0.3 0.7 g2) as [s g3]. destruct (randint 0 5 g3) as [n g4].
    pose proof (v7_fading_scars_age (Z.to_nat n) g4) as Hl.
    destruct (V7.fading_scars (Z.to_nat n) g4) as [got g5]. cbn [fst] in Hl.
    destruct (random g5) as [r' g6].
    destruct (r' <? 0.05)%float; cbn -[py_max py_min]; exact Hl.
  - unfold V7.birth, V7.create_human, bind, ret.
    destruct (random g) as [r g1]. destruct (uniform 0.3 0.7 g1) as [s g2].
    pose proof (v7_inherit_age (last_n 8 (V7.scars p))
                  (if V7.taught_or_awakened p then 0.5 else 0.3)%float 0.6 g2) as L.
    destruct (V7.inherit (last_n 8 (V7.scars p)) _ 0.6 g2) as [got g3].
    cbn [fst] in L. cbn -[py_max last_n]. exact L.
Qed.

Lemma v5_interact_age (w1 w2 : V5.Whole) (noise scarcity polarization : float) (g : G) :
  Forall (fun s => age s = 0%Z) (V5.scars w1) ->
  Forall (fun s => age s = 0%Z) (V5.scars w2) ->
  Forall (fun s => age s = 0%Z)
    (V5.scars (fst (fst (V5.interact w1 w2 noise scarcity polarization g)))) /\
  Forall (fun s => age s = 0%Z)
    (V5.scars (snd (fst (V5.interact w1 w2 noise scarcity polarization g)))).
Proof.
  intros F1 F2.
  destruct (v5_interact_settle w1 w2 noise scarcity polarization g) as (a1 & a2 & pen & ->).
  destruct (v5_attach_recent_frame w1) as (_ & _ & _ & _ & _ & _ & Q1 & _).
  destruct (v5_attach_recent_frame w2) as (_ & _ & _ & _ & _ & _ & Q2 & _).
  rewrite <- Q1 in F1. rewrite <- Q2 in F2. revert F1 F2.
  generalize (V5.attach_recent w1) (V5.attach_recent w2). clear w1 w2 Q1 Q2. intros w1 w2 F1 F2.
  destruct (v5_settle_sides w1 w2 a1 a2 scarcity pen) as [S1 S2].
  assert (B : Forall (fun s => age s = 0%Z)
                (V5.scars (fst (V5.resolved w1 w2 a1 a2 scarcity pen))) /\
              Forall (fun s => age s = 0%Z)
                (V5.scars (snd (V5.resolved w1 w2 a1 a2 scarcity pen)))).
  { unfold V5.resolved. destruct a1, a2; cbn -[append_capped clamp_coherence];
      rewrite !append_capped_newest; split; apply Forall_app;
      (split; [now apply Forall_last_n | repeat constructor]). }
  destruct B as [B1 B2].
  assert (T : forall u, Forall (fun s => age s = 0%Z) (V5.scars u) ->
                        Forall (fun s => age s = 0%Z) (V5.scars (V5.after_teaching u))).
  { intros u Fu. unfold V5.after_teaching. cbn -[py_min]. apply Forall_app.
    split; [exact Fu | repeat constructor]. }
  split.
  - destruct S1 as [->|(_ & _ & _ & _ & ->)]; [exact B1 | exact (T _ B1)].
  - destruct S2 as [->|(_ & _ & _ & _ & ->)]; [exact B2 | exact (T _ B2)].
Qed.

Lemma v7_interact_age (w1 w2 : V7.Whole) (noise scarcity polarization : float) (g : G) :
  Forall (fun s => age s = 0%Z) (V7.scars w1) ->
  Forall (fun s => age s = 0%Z) (V7.scars w2) ->
  Forall (fun s => age s = 0%Z)
    (V7.scars (fst (fst (V7.interact w1 w2 noise scarcity polarization g)))) /\
  Forall (fun s => age s = 0%Z)
    (V7.scars (snd (fst (V7.interact w1 w2 noise scarcity polarization g)))).
Proof.
  intros F1 F2.
  destruct (v7_interact_settle w1 w2 noise scarcity polarization g) as (a1 & a2 & pen & g' & ->).
  destruct (v7_attach_recent_frame w1) as (_ & _ & _ & _ & _ & _ & _ & Q1 & _).
  destruct (v7_attach_recent_frame w2) as (_ & _ & _ & _ & _ & _ & _ & Q2 & _).
  rewrite <- Q1 in F1. rewrite <- Q2 in F2. revert F1 F2.
  generalize (V7.attach_recent w1) (V7.attach_recent w2). clear w1 w2 Q1 Q2. intros w1 w2 F1 F2.
  destruct (v7_settle_sides w1 w2 a1 a2 scarcity pen g') as [S1 S2].
  assert (B : Forall (fun s => age s = 0%Z)
                (V7.scars (fst (V7.resolved w1 w2 a1 a2 scarcity pen))) /\
              Forall (fun s => age s = 0%Z)
                (V7.scars (snd (V7.resolved w1 w2 a1 a2 scarcity pen)))).
  { unfold V7.resolved. destruct a1, a2; cbn -[append_capped clamp_coherence];
      rewrite !append_capped_newest; split; apply Forall_app;
      (split; [now apply Forall_last_n | repeat constructor]). }
  destruct B as [B1 B2].
  split.
  - destruct S1 as [->|(_ & _ & _ & _ & _ & wk & ->)]; [exact B1|].
    destruct (v7_after_teaching_frame (fst (V7.resolved w1 w2 a1 a2 scarcity pen)) (V7.id w2) wk)
      as (_ & _ & _ & _ & _ & _ & _ & -> & _).
    apply Forall_app. split; [exact B1 | repeat constructor].
  - destruct S2 as [->|(_ & _ & _ & _ & _ & wk & ->)]; [exact B2|].
    destruct (v7_after_teaching_frame (snd (V7.resolved w1 w2 a1 a2 scarcity pen)) (V7.id w1) wk)
      as (_ & _ & _ & _ & _ & _ & _ & -> & _).
    apply Forall_app. split; [exact B2 | repeat constructor].
Qed.

Lemma v5_reachable_age (w : V5.Whole) :
  V5.reachable w -> Forall (fun s => age s = 0%Z) (V5.scars w).
Proof.
  induction 1 as [ i | w _ IH | p i g _ _ | p i g _ _ | p i g _ _ | p i g _ _
                 | w _ IH _ | i t | p i gen pct g _ _ _
                 | w1 w2 n s p g _ IH1 _ IH2 | w1 w2 n s p g _ IH1 _ IH2 ].
  - constructor.
  - exact IH.
  - apply (v5_builders_age p i 0 0 g).
  - apply (v5_builders_age p i 0 0 g).
  - apply (v5_builders_age p i 0 0 g).
  - apply (v5_builders_age p i 0 0 g).
  - exact IH.
  - unfold V5.create_ai.
    destruct (String.eqb t "coherent" || String.eqb t "bridge")%bool; cbn;
      repeat constructor.
  - apply (v5_builders_age p i gen pct g).
  - apply (v5_interact_age w1 w2 n s p g IH1 IH2).
  - apply (v5_interact_age w1 w2 n s p g IH1 IH2).
Qed.

Lemma v7_reachable_age (w : V7.Whole) :
  V7.reachable w -> Forall (fun s => age s = 0%Z) (V7.scars w).
Proof.
  induction 1 as [ i g | i g | i g g' | i t | i | p i g _ _ _
                 | w1 w2 n s p g _ IH1 _ IH2 | w1 w2 n s p g _ IH1 _ IH2 ].
  - apply (v7_builders_age (V7.new_whole 0) i g).
  - apply (v7_builders_age (V7.new_whole 0) i g).
  - destruct (v7_worsened_frame (fst (V7.decliner i g)) g')
      as (_ & _ & _ & _ & _ & _ & _ & -> & _).
    apply (v7_builders_age (V7.new_whole 0) i g).
  - unfold V7.create_ai.
    destruct (String.eqb t "coherent" || String.eqb t "bridge")%bool; cbn;
      repeat constructor.
  - cbn. repeat constructor.
  - apply (v7_builders_age p i g).
  - apply (v7_interact_age w1 w2 n s p g IH1 IH2).
  - apply (v7_interact_age w1 w2 n s p g IH1 IH2).
Qed.

End ScarAge.

(** X16 — Scars do not age in a run of either file: [Scar.decay] is never
    called by the builders, the scaling of v7's [main], the births, the
    interactions or the teaching, so every scar held by an agent of a run
    still has [age = 0], and would carry [age = 1] and a lighter weight only
    after the first [decay]. *)
Theorem scars_never_age :
  forall (G : Type) (R : Rng G) (w5 : V5.Whole) (w7 : V7.Whole),
    V5.reachable w5 -> V7.reachable w7 ->
    Forall (fun s => age s = 0%Z /\ age (decay s 0.01) = 1%Z) (V5.scars w5) /\
    Forall (fun s => age s = 0%Z /\ age (decay s 0.01) = 1%Z) (V7.scars w7).
Proof.
  intros G R w5 w7 H5 H7. split.
  - generalize (v5_reachable_age w5 H5). apply Forall_impl.
    intros s E. split; [exact E|]. unfold decay. cbn. rewrite E. reflexivity.
  - generalize (v7_reachable_age w7 H7). apply Forall_impl.
    intros s E. split; [exact E|]. unfold decay. cbn. rewrite E. reflexivity.
Qed.

Lemma scars_never_age_witness :
  Forall (fun s => age s = 0%Z /\ age (decay s 0.01) = 1%Z)
    (V5.scars (snd (fst (V5.interact bridge5 (V5.founder 1) 0 0 0 ([] : Tape))))) /\
  Forall (fun s => age s = 0%Z /\ age (decay s 0.01) = 1%Z)
    (V7.scars (fst (V7.decliner 7 ([0.5; 0.5; 0.5; 0.9] : Tape)))).
Proof.
  exact (scars_never_age Tape Tape_Rng
           (snd (fst (V5.interact bridge5 (V5.founder 1) 0 0 0 ([] : Tape))))
           (fst (V7.decliner 7 ([0.5; 0.5; 0.5; 0.9] : Tape)))
           (V5.reach_interact_2 bridge5 (V5.founder 1) 0 0 0 ([] : Tape)
              (V5.reach_ai 0 "bridge") (V5.reach_founder 1))
           (V7.reach_decliner 7 _)).
Defined.

(** ** A teacher with id 0 *)


